(** * Signal-processing and buffering engine of the EEG viewer (src/GUI.py)

  A shallow embedding of the engine methods of [SegmentViewer]:
  window segmentation, bound selection, the stateful band-pass + notch
  filter pipeline, the streaming ring buffer with its warm-up discard,
  the display smoother and the band-power axis ceiling; and, around them,
  window navigation and the plotted slice, the vertical bounds tables, the
  stacked layout, the band-power smoothing, the filter design and the
  stream timer.

  Conventions.
  - Python [int] values are [Z].  Python floats that only take part in
    comparisons, sums and products are idealised as exact rationals [Q];
    where the code merely moves samples around, or where only the order of
    the operations matters, the sample type is abstract.
  - A Python exception is an explicit constructor of [exn]; a method that
    can raise returns an [outcome].
  - Dictionaries keyed by channel index are [gmap nat _], the band-power
    dictionary keyed by band name is a [gmap string _].
  - A 2-D numpy array (channel x sample) is the list of its rows together
    with its column count, so that an array without rows still has a
    [shape[1]]. *)

From Stdlib Require Import ZArith QArith Qround Qabs Lqa Lia List.
From stdpp Require Import base option list gmap strings sorting.
Import ListNotations.

Local Open Scope Z_scope.

(** ** Python-level helpers *)

Inductive exn : Type :=
| IndexError
| KeyError
| ValueError
| ZeroDivisionError
| TypeError
| AttributeError.

(** The result of running a method on the engine: it returns normally with a
  value, or an exception escapes it. *)
Inductive outcome (A : Type) : Type :=
| Returned (a : A)
| Raised (e : exn).
Arguments Returned {A} a.
Arguments Raised {A} e.

(** [int(x)] on a float: truncation toward zero. *)
Definition py_int (x : Q) : Z := Z.quot (Qnum x) (Z.pos (Qden x)).

(** The literal [0.8] and [0.5]. *)
Definition q0_8 : Q := 8 # 10.
Definition q0_5 : Q := 1 # 2.

(** ** Window segmenter *)
Module Segmenter.

Record windows : Type := {
  window_size_samples : Z;
  stride : Z;
  num_windows : Z
}.

(** [window_size_samples = int(window_size_sec * sampling_rate)] *)
Definition calc_window_size_samples (window_size_sec : Q) (sampling_rate : Z) : Z :=
  py_int (window_size_sec * inject_Z sampling_rate).

(** [stride = int(window_size_samples * 0.8)] *)
Definition calc_stride (wss : Z) : Z :=
  py_int (inject_Z wss * q0_8).

(** [SegmentViewer.recalculate_windows].  The two assignments to
    [window_size_samples] and [stride] come first; the floor division by
    [stride] then raises [ZeroDivisionError] when the stride is zero, and
    [num_windows] keeps its old value. *)
Definition recalculate_windows (self : windows) (window_size_sec : Q)
    (sampling_rate : Z) (total_samples : Z) : windows * option exn :=
  let wss := calc_window_size_samples window_size_sec sampling_rate in
  let st := calc_stride wss in
  if Z.eqb st 0
  then ({| window_size_samples := wss; stride := st;
           num_windows := num_windows self |}, Some ZeroDivisionError)
  else ({| window_size_samples := wss; stride := st;
           num_windows := Z.max 1 ((total_samples - wss) / st + 1) |}, None).



End Segmenter.

(** ** Bounds calculator: selection across channels *)
Module Bounds.

(** [x > y] on floats. *)
Definition Qgtb (x y : Q) : bool := negb (Qle_bool x y).

(** The [for ch_idx in channel_indices] loop shared, word for word, by
    [get_iqr_bounds_for_channels] and [get_minmax_bounds_for_channels]:
    [max_range] and [best_bounds] are the loop-carried variables,
    [best_bounds = None] is Python's [None].  Reading the bounds of a channel
    that has none raises [KeyError]. *)
Fixpoint select_loop (table : gmap nat (Q * Q)) (channel_indices : list nat)
    (max_range : Q) (best_bounds : option (Q * Q)) : outcome (option (Q * Q)) :=
  match channel_indices with
  | [] => Returned best_bounds
  | ch_idx :: rest =>
      match table !! ch_idx with
      | None => Raised KeyError
      | Some (y_min, y_max) =>
          let range_size := (y_max - y_min)%Q in
          if Qgtb range_size max_range
          then select_loop table rest range_size (Some (y_min, y_max))
          else select_loop table rest max_range best_bounds
      end
  end.

Definition select_bounds (table : gmap nat (Q * Q)) (channel_indices : list nat)
    : outcome (option (Q * Q)) :=
  match channel_indices with
  | [] => Returned (Some (0%Q, 1%Q))
  | _ => select_loop table channel_indices 0%Q None
  end.

Record bounds_tables : Type := {
  channel_iqr_bounds : gmap nat (Q * Q);
  channel_minmax_bounds : gmap nat (Q * Q)
}.

(** [SegmentViewer.get_iqr_bounds_for_channels] *)
Definition get_iqr_bounds_for_channels (self : bounds_tables)
    (channel_indices : list nat) : outcome (option (Q * Q)) :=
  select_bounds (channel_iqr_bounds self) channel_indices.

(** [SegmentViewer.get_minmax_bounds_for_channels] *)
Definition get_minmax_bounds_for_channels (self : bounds_tables)
    (channel_indices : list nat) : outcome (option (Q * Q)) :=
  select_bounds (channel_minmax_bounds self) channel_indices.

(** A caller's [y_min, y_max = self.get_bounds_for_channels(...)]:
    unpacking [None] raises [TypeError]. *)
Definition unpack_bounds (r : outcome (option (Q * Q))) : outcome (Q * Q) :=
  match r with
  | Returned (Some b) => Returned b
  | Returned None => Raised TypeError
  | Raised e => Raised e
  end.

(** The range [y_max - y_min] of a channel's bound pair. *)
Definition range_of (b : Q * Q) : Q := (snd b - fst b)%Q.

(** The wording of the specification: the selection returns the pair of a
    requested channel of largest range, and that pair covers the bound pair
    of every requested channel. *)
Definition spec_selection (table : gmap nat (Q * Q)) (channel_indices : list nat)
    (result : outcome (option (Q * Q))) : Prop :=
  exists b ch,
    result = Returned (Some b)
    /\ ch ∈ channel_indices /\ table !! ch = Some b
    /\ (forall c b', c ∈ channel_indices -> table !! c = Some b' ->
          (range_of b' <= range_of b)%Q)
    /\ (forall c b', c ∈ channel_indices -> table !! c = Some b' ->
          (fst b <= fst b')%Q /\ (snd b' <= snd b)%Q).

End Bounds.

(** ** Band-power axis ceiling *)
Module Spectral.

(** Python's [max] over a non-empty list: the first maximal element. *)
Definition py_max (v : Q) (vs : list Q) : Q :=
  fold_left (fun m x => if Bounds.Qgtb x m then x else m) vs v.



End Spectral.

(** ** Samples *)

(** A float64 sample as the display code sees it: the sentinel NaN that marks
    an unfilled buffer cell, or a number. *)
Inductive cell : Type :=
| NaN
| Val (q : Q).

(** ** Display smoother *)
Module Smoother.


(** [np.isnan] on one sample. *)
Definition isnan (c : cell) : bool :=
  match c with NaN => true | Val _ => false end.












End Smoother.

(** ** The streaming engine: filter pipeline, warm-up gate, ring buffer *)
Module Engine.

(** Float arithmetic as the filter code uses it.  No law is assumed of the
    operations: what is proved of the pipeline holds for IEEE doubles as
    much as for exact numbers. *)
Class Float (R : Type) : Type := {
  f_zero : R;
  f_nan : R;
  f_isnan : R -> bool;
  f_of_int : Z -> R;
  f_add : R -> R -> R;
  f_sub : R -> R -> R;
  f_mul : R -> R -> R;
  f_div : R -> R -> R
}.

Record array2 (R : Type) : Type := Array2 {
  ncols : nat;
  rows : list (list R)
}.
Arguments Array2 {R} ncols rows.
Arguments ncols {R} _.
Arguments rows {R} _.

(** The attributes of [SegmentViewer] that the engine methods read or write
    ([SCIPY_AVAILABLE] is the module-level flag; [board_connected] stands for
    [self.board is not None]). *)
Record engine (R : Type) : Type := {
  SCIPY_AVAILABLE : bool;
  sampling_rate : Z;
  num_channels : nat;
  magnitude_scale : Z;
  filter_coeffs_valid : bool;
  bandpass_b : list R;
  bandpass_a : list R;
  notch_b : list R;
  notch_a : list R;
  bandpass_zi_template : list R;
  notch_zi_template : list R;
  bandpass_zi : gmap nat (list R);
  notch_zi : gmap nat (list R);
  board_connected : bool;
  streaming_active : bool;
  file_loaded : bool;
  stream_buffer : option (array2 R);
  stream_warmup_remaining : Z;
  fft_update_counter : Z;
  fft_update_interval : Z;
  smoothed_fft : gmap nat (list R);
  smoothed_band_power : gmap string R;
  band_power_y_max : R
}.
Arguments SCIPY_AVAILABLE {R} _.
Arguments sampling_rate {R} _.
Arguments num_channels {R} _.
Arguments magnitude_scale {R} _.
Arguments filter_coeffs_valid {R} _.
Arguments bandpass_b {R} _.
Arguments bandpass_a {R} _.
Arguments notch_b {R} _.
Arguments notch_a {R} _.
Arguments bandpass_zi_template {R} _.
Arguments notch_zi_template {R} _.
Arguments bandpass_zi {R} _.
Arguments notch_zi {R} _.
Arguments board_connected {R} _.
Arguments streaming_active {R} _.
Arguments file_loaded {R} _.
Arguments stream_buffer {R} _.
Arguments stream_warmup_remaining {R} _.
Arguments fft_update_counter {R} _.
Arguments fft_update_interval {R} _.
Arguments smoothed_fft {R} _.
Arguments smoothed_band_power {R} _.
Arguments band_power_y_max {R} _.

Definition set_bandpass_zi {R : Type} (v : gmap nat (list R)) (self : engine R) : engine R :=
  {| SCIPY_AVAILABLE := SCIPY_AVAILABLE self;
     sampling_rate := sampling_rate self;
     num_channels := num_channels self;
     magnitude_scale := magnitude_scale self;
     filter_coeffs_valid := filter_coeffs_valid self;
     bandpass_b := bandpass_b self;
     bandpass_a := bandpass_a self;
     notch_b := notch_b self;
     notch_a := notch_a self;
     bandpass_zi_template := bandpass_zi_template self;
     notch_zi_template := notch_zi_template self;
     bandpass_zi := v;
     notch_zi := notch_zi self;
     board_connected := board_connected self;
     streaming_active := streaming_active self;
     file_loaded := file_loaded self;
     stream_buffer := stream_buffer self;
     stream_warmup_remaining := stream_warmup_remaining self;
     fft_update_counter := fft_update_counter self;
     fft_update_interval := fft_update_interval self;
     smoothed_fft := smoothed_fft self;
     smoothed_band_power := smoothed_band_power self;
     band_power_y_max := band_power_y_max self |}.

Definition set_notch_zi {R : Type} (v : gmap nat (list R)) (self : engine R) : engine R :=
  {| SCIPY_AVAILABLE := SCIPY_AVAILABLE self;
     sampling_rate := sampling_rate self;
     num_channels := num_channels self;
     magnitude_scale := magnitude_scale self;
     filter_coeffs_valid := filter_coeffs_valid self;
     bandpass_b := bandpass_b self;
     bandpass_a := bandpass_a self;
     notch_b := notch_b self;
     notch_a := notch_a self;
     bandpass_zi_template := bandpass_zi_template self;
     notch_zi_template := notch_zi_template self;
     bandpass_zi := bandpass_zi self;
     notch_zi := v;
     board_connected := board_connected self;
     streaming_active := streaming_active self;
     file_loaded := file_loaded self;
     stream_buffer := stream_buffer self;
     stream_warmup_remaining := stream_warmup_remaining self;
     fft_update_counter := fft_update_counter self;
     fft_update_interval := fft_update_interval self;
     smoothed_fft := smoothed_fft self;
     smoothed_band_power := smoothed_band_power self;
     band_power_y_max := band_power_y_max self |}.

Definition set_stream_buffer {R : Type} (v : option (array2 R)) (self : engine R) : engine R :=
  {| SCIPY_AVAILABLE := SCIPY_AVAILABLE self;
     sampling_rate := sampling_rate self;
     num_channels := num_channels self;
     magnitude_scale := magnitude_scale self;
     filter_coeffs_valid := filter_coeffs_valid self;
     bandpass_b := bandpass_b self;
     bandpass_a := bandpass_a self;
     notch_b := notch_b self;
     notch_a := notch_a self;
     bandpass_zi_template := bandpass_zi_template self;
     notch_zi_template := notch_zi_template self;
     bandpass_zi := bandpass_zi self;
     notch_zi := notch_zi self;
     board_connected := board_connected self;
     streaming_active := streaming_active self;
     file_loaded := file_loaded self;
     stream_buffer := v;
     stream_warmup_remaining := stream_warmup_remaining self;
     fft_update_counter := fft_update_counter self;
     fft_update_interval := fft_update_interval self;
     smoothed_fft := smoothed_fft self;
     smoothed_band_power := smoothed_band_power self;
     band_power_y_max := band_power_y_max self |}.

Definition set_stream_warmup_remaining {R : Type} (v : Z) (self : engine R) : engine R :=
  {| SCIPY_AVAILABLE := SCIPY_AVAILABLE self;
     sampling_rate := sampling_rate self;
     num_channels := num_channels self;
     magnitude_scale := magnitude_scale self;
     filter_coeffs_valid := filter_coeffs_valid self;
     bandpass_b := bandpass_b self;
     bandpass_a := bandpass_a self;
     notch_b := notch_b self;
     notch_a := notch_a self;
     bandpass_zi_template := bandpass_zi_template self;
     notch_zi_template := notch_zi_template self;
     bandpass_zi := bandpass_zi self;
     notch_zi := notch_zi self;
     board_connected := board_connected self;
     streaming_active := streaming_active self;
     file_loaded := file_loaded self;
     stream_buffer := stream_buffer self;
     stream_warmup_remaining := v;
     fft_update_counter := fft_update_counter self;
     fft_update_interval := fft_update_interval self;
     smoothed_fft := smoothed_fft self;
     smoothed_band_power := smoothed_band_power self;
     band_power_y_max := band_power_y_max self |}.

Definition set_fft_update_counter {R : Type} (v : Z) (self : engine R) : engine R :=
  {| SCIPY_AVAILABLE := SCIPY_AVAILABLE self;
     sampling_rate := sampling_rate self;
     num_channels := num_channels self;
     magnitude_scale := magnitude_scale self;
     filter_coeffs_valid := filter_coeffs_valid self;
     bandpass_b := bandpass_b self;
     bandpass_a := bandpass_a self;
     notch_b := notch_b self;
     notch_a := notch_a self;
     bandpass_zi_template := bandpass_zi_template self;
     notch_zi_template := notch_zi_template self;
     bandpass_zi := bandpass_zi self;
     notch_zi := notch_zi self;
     board_connected := board_connected self;
     streaming_active := streaming_active self;
     file_loaded := file_loaded self;
     stream_buffer := stream_buffer self;
     stream_warmup_remaining := stream_warmup_remaining self;
     fft_update_counter := v;
     fft_update_interval := fft_update_interval self;
     smoothed_fft := smoothed_fft self;
     smoothed_band_power := smoothed_band_power self;
     band_power_y_max := band_power_y_max self |}.

Definition set_smoothed_fft {R : Type} (v : gmap nat (list R)) (self : engine R) : engine R :=
  {| SCIPY_AVAILABLE := SCIPY_AVAILABLE self;
     sampling_rate := sampling_rate self;
     num_channels := num_channels self;
     magnitude_scale := magnitude_scale self;
     filter_coeffs_valid := filter_coeffs_valid self;
     bandpass_b := bandpass_b self;
     bandpass_a := bandpass_a self;
     notch_b := notch_b self;
     notch_a := notch_a self;
     bandpass_zi_template := bandpass_zi_template self;
     notch_zi_template := notch_zi_template self;
     bandpass_zi := bandpass_zi self;
     notch_zi := notch_zi self;
     board_connected := board_connected self;
     streaming_active := streaming_active self;
     file_loaded := file_loaded self;
     stream_buffer := stream_buffer self;
     stream_warmup_remaining := stream_warmup_remaining self;
     fft_update_counter := fft_update_counter self;
     fft_update_interval := fft_update_interval self;
     smoothed_fft := v;
     smoothed_band_power := smoothed_band_power self;
     band_power_y_max := band_power_y_max self |}.

(** *** Python slices of one row *)

(** [l[k:]] *)
Definition slice_from {A : Type} (k : nat) (l : list A) : list A := skipn k l.

(** [l[-k:]]; [l[-0:]] is [l[0:]], the whole row. *)
Definition slice_from_neg {A : Type} (k : nat) (l : list A) : list A :=
  match k with
  | O => l
  | S _ => skipn (length l - k)%nat l
  end.

(** [l[:-k]]; [l[:-0]] is [l[:0]], the empty row. *)
Definition slice_to_neg {A : Type} (k : nat) (l : list A) : list A :=
  match k with
  | O => []
  | S _ => firstn (length l - k)%nat l
  end.

(** [a[:, -k:]] *)
Definition cols_from_neg {R : Type} (k : nat) (a : array2 R) : array2 R :=
  {| ncols := match k with O => ncols a | S _ => Nat.min k (ncols a) end;
     rows := map (slice_from_neg k) (rows a) |}.

(** [a[:, :k]] and [a[:, k:]], used to cut a signal into two chunks. *)
Definition cols_to {R : Type} (k : nat) (a : array2 R) : array2 R :=
  {| ncols := Nat.min k (ncols a); rows := map (firstn k) (rows a) |}.

Definition cols_from {R : Type} (k : nat) (a : array2 R) : array2 R :=
  {| ncols := (ncols a - k)%nat; rows := map (slice_from k) (rows a) |}.

(** [np.hstack((a, b))] for two arrays with the same number of rows. *)
Definition hstack {R : Type} (a b : array2 R) : array2 R :=
  {| ncols := (ncols a + ncols b)%nat; rows := zip_with (@app R) (rows a) (rows b) |}.

(** Every row of a numpy array has [shape[1]] entries. *)
Definition rectangular {R : Type} (a : array2 R) : Prop :=
  Forall (fun r => length r = ncols a) (rows a).

(** Row [i] of an array (the empty row when there is none). *)
Definition row {R : Type} (i : nat) (a : array2 R) : list R :=
  nth i (rows a) [].

(** Sequencing of calls that may raise. *)
Definition bind {A B : Type} (m : outcome A) (k : A -> outcome B) : outcome B :=
  match m with
  | Returned a => k a
  | Raised e => Raised e
  end.

Section Generic.
Context {R : Type} `{Float R}.

(** *** [scipy.signal.lfilter(b, a, x, zi=zi)]

    Library code, modelled by its documented contract: the coefficients are
    divided by [a[0]] and zero-padded to a common length [n + 1]; [zi] must
    hold [n] values, otherwise [ValueError]; the samples are then consumed
    one after the other by the transposed direct form II recurrence
    [y = z[0] + b[0] x], [z[k-1] = z[k] + b[k] x - a[k] y],
    [z[n-1] = b[n] x - a[n] y], and the final delay values are returned with
    the output. *)
Definition pad_to (n : nat) (cs : list R) : list R :=
  cs ++ replicate (n - length cs)%nat f_zero.

Fixpoint next_state (bs as_ zs : list R) (x y : R) : list R :=
  match bs, as_ with
  | b :: bs', a :: as' =>
      match zs with
      | z :: zs' => f_sub (f_add z (f_mul b x)) (f_mul a y) :: next_state bs' as' zs' x y
      | [] => f_sub (f_mul b x) (f_mul a y) :: next_state bs' as' [] x y
      end
  | _, _ => []
  end.

Definition df2t_sample (bn an z : list R) (x : R) : R * list R :=
  let b0 := hd f_zero bn in
  let y := match z with
           | z0 :: _ => f_add z0 (f_mul b0 x)
           | [] => f_mul b0 x
           end in
  (y, next_state (tl bn) (tl an) (tl z) x y).

Fixpoint df2t_run (bn an xs z : list R) : list R * list R :=
  match xs with
  | [] => ([], z)
  | x :: xs' =>
      let '(y, z') := df2t_sample bn an z x in
      let '(ys, zf) := df2t_run bn an xs' z' in
      (y :: ys, zf)
  end.

Definition lfilter (b a x zi : list R) : outcome (list R * list R) :=
  match a, b with
  | a0 :: _, _ :: _ =>
      let n := (Nat.max (length a) (length b) - 1)%nat in
      if Nat.eqb (length zi) n
      then Returned (df2t_run (pad_to (S n) (map (fun c => f_div c a0) b))
                              (pad_to (S n) (map (fun c => f_div c a0) a)) x zi)
      else Raised ValueError
  | _, _ => Raised ValueError
  end.

(** *** [SegmentViewer.process_signal] *)

(** A statement of the [try] block: it works on the local [channel_data] and
    on the engine, and either completes or raises before it has assigned
    anything. *)
Definition stmt : Type := list R * engine R -> outcome (list R * engine R).

(** [if i not in self.bandpass_zi:
         self.bandpass_zi[i] = self.bandpass_zi_template * channel_data[0]] *)
Definition seed_bandpass (i : nat) : stmt := fun '(channel_data, self) =>
  match bandpass_zi self !! i with
  | Some _ => Returned (channel_data, self)
  | None =>
      match channel_data with
      | [] => Raised IndexError
      | x0 :: _ =>
          Returned (channel_data,
                    set_bandpass_zi
                      (<[i := map (fun t => f_mul t x0) (bandpass_zi_template self)]>
                         (bandpass_zi self)) self)
      end
  end.

(** [if i not in self.notch_zi:
         self.notch_zi[i] = self.notch_zi_template * channel_data[0]] *)
Definition seed_notch (i : nat) : stmt := fun '(channel_data, self) =>
  match notch_zi self !! i with
  | Some _ => Returned (channel_data, self)
  | None =>
      match channel_data with
      | [] => Raised IndexError
      | x0 :: _ =>
          Returned (channel_data,
                    set_notch_zi
                      (<[i := map (fun t => f_mul t x0) (notch_zi_template self)]>
                         (notch_zi self)) self)
      end
  end.

(** [channel_data, self.bandpass_zi[i] = lfilter(self.bandpass_b,
       self.bandpass_a, channel_data, zi=self.bandpass_zi[i])] *)
Definition apply_bandpass (i : nat) : stmt := fun '(channel_data, self) =>
  match bandpass_zi self !! i with
  | None => Raised KeyError
  | Some zi =>
      bind (lfilter (bandpass_b self) (bandpass_a self) channel_data zi)
           (fun '(y, zf) =>
              Returned (y, set_bandpass_zi (<[i := zf]> (bandpass_zi self)) self))
  end.

(** [channel_data, self.notch_zi[i] = lfilter(self.notch_b, self.notch_a,
       channel_data, zi=self.notch_zi[i])] *)
Definition apply_notch (i : nat) : stmt := fun '(channel_data, self) =>
  match notch_zi self !! i with
  | None => Raised KeyError
  | Some zi =>
      bind (lfilter (notch_b self) (notch_a self) channel_data zi)
           (fun '(y, zf) =>
              Returned (y, set_notch_zi (<[i := zf]> (notch_zi self)) self))
  end.

(** [try: body  except: pass] -- the statements run in order; when one raises
    the rest is skipped and what the earlier ones assigned stays. *)
Fixpoint try_pass (body : list stmt) (s : list R * engine R) : list R * engine R :=
  match body with
  | [] => s
  | c :: rest =>
      match c s with
      | Returned s' => try_pass rest s'
      | Raised _ => s
      end
  end.

Definition filter_block (i : nat) : list stmt :=
  [seed_bandpass i; seed_notch i; apply_bandpass i; apply_notch i].

(** [self.magnitude_scale / 100.0] *)
Definition gain (self : engine R) : R :=
  f_div (f_of_int (magnitude_scale self)) (f_of_int 100).

(** [channel_data * (self.magnitude_scale / 100.0)] *)
Definition scaled (self : engine R) (channel_data : list R) : list R :=
  map (fun x => f_mul x (gain self)) channel_data.

(** [processed[i, :] = channel_data]: the value must have the length of the
    destination row, or a single entry that numpy repeats along the row. *)
Definition assign_row (dst channel_data : list R) : outcome (list R) :=
  if Nat.eqb (length channel_data) (length dst) then Returned channel_data
  else match channel_data with
       | [x] => Returned (replicate (length dst) x)
       | _ => Raised ValueError
       end.

(** The body of [for i in range(data.shape[0])] for channel [i], whose input
    row is [data_i] and whose row of [processed = np.zeros_like(data)] is
    [zeros_i]. *)
Definition process_channel (i : nat) (data_i zeros_i : list R) (self : engine R)
    : outcome (list R * engine R) :=
  let channel_data := data_i in
  let '(channel_data, self) :=
    if SCIPY_AVAILABLE self && filter_coeffs_valid self
    then try_pass (filter_block i) (channel_data, self)
    else (channel_data, self) in
  let channel_data := scaled self channel_data in
  bind (assign_row zeros_i channel_data) (fun r => Returned (r, self)).

Fixpoint process_rows (i : nat) (data_rows : list (list R)) (self : engine R)
    : outcome (list (list R) * engine R) :=
  match data_rows with
  | [] => Returned ([], self)
  | data_i :: rest =>
      bind (process_channel i data_i (map (fun _ => f_zero) data_i) self)
           (fun '(r, self) =>
              bind (process_rows (S i) rest self)
                   (fun '(rs, self) => Returned (r :: rs, self)))
  end.

Definition process_signal (self : engine R) (data : array2 R)
    : outcome (array2 R * engine R) :=
  bind (process_rows 0 (rows data) self)
       (fun '(rs, self) => Returned ({| ncols := ncols data; rows := rs |}, self)).

(** *** One channel's view of the [try] block

    The filter block of channel [i] reads and writes the engine only through
    entry [i] of the two state dictionaries; everything else it reads is
    left unchanged by [process_signal].  [view] and [put] read and write that
    pair of entries ([None] for an absent key), and the statements below are
    those of the block above, rewritten over the pair. *)
Definition local_state : Type := option (list R) * option (list R).

Definition view (i : nat) (self : engine R) : local_state :=
  (bandpass_zi self !! i, notch_zi self !! i).

Definition put (i : nat) (s : local_state) (self : engine R) : engine R :=
  set_notch_zi (partial_alter (fun _ => snd s) i (notch_zi self))
    (set_bandpass_zi (partial_alter (fun _ => fst s) i (bandpass_zi self)) self).

Definition local_stmt : Type :=
  list R * local_state -> outcome (list R * local_state).

Definition seed (template channel_data : list R) (z : option (list R))
    : outcome (option (list R)) :=
  match z with
  | Some _ => Returned z
  | None =>
      match channel_data with
      | [] => Raised IndexError
      | x0 :: _ => Returned (Some (map (fun t => f_mul t x0) template))
      end
  end.

Definition stage (b a channel_data : list R) (z : option (list R))
    : outcome (list R * option (list R)) :=
  match z with
  | None => Raised KeyError
  | Some zi => bind (lfilter b a channel_data zi)
                    (fun '(y, zf) => Returned (y, Some zf))
  end.

Definition local_seed_bandpass (self : engine R) : local_stmt :=
  fun '(channel_data, (zb, zn)) =>
    bind (seed (bandpass_zi_template self) channel_data zb)
         (fun zb => Returned (channel_data, (zb, zn))).

Definition local_seed_notch (self : engine R) : local_stmt :=
  fun '(channel_data, (zb, zn)) =>
    bind (seed (notch_zi_template self) channel_data zn)
         (fun zn => Returned (channel_data, (zb, zn))).

Definition local_apply_bandpass (self : engine R) : local_stmt :=
  fun '(channel_data, (zb, zn)) =>
    bind (stage (bandpass_b self) (bandpass_a self) channel_data zb)
         (fun '(y, zb) => Returned (y, (zb, zn))).

Definition local_apply_notch (self : engine R) : local_stmt :=
  fun '(channel_data, (zb, zn)) =>
    bind (stage (notch_b self) (notch_a self) channel_data zn)
         (fun '(y, zn) => Returned (y, (zb, zn))).

Fixpoint local_try (body : list local_stmt) (s : list R * local_state)
    : list R * local_state :=
  match body with
  | [] => s
  | c :: rest =>
      match c s with
      | Returned s' => local_try rest s'
      | Raised _ => s
      end
  end.

Definition local_block (self : engine R) : list local_stmt :=
  [local_seed_bandpass self; local_seed_notch self;
   local_apply_bandpass self; local_apply_notch self].

(** The filter part of the loop body of one channel, over its state pair:
    the [try] block when filtering is on, nothing otherwise. *)
Definition local_channel (self : engine R) (channel_data : list R)
    (s : local_state) : list R * local_state :=
  if SCIPY_AVAILABLE self && filter_coeffs_valid self
  then local_try (local_block self) (channel_data, s)
  else (channel_data, s).

(** The result of a statement over the state pair, written back to the
    engine. *)
Definition lifted (i : nat) (self : engine R)
    (r : outcome (list R * local_state)) : outcome (list R * engine R) :=
  match r with
  | Returned (y, s) => Returned (y, put i s self)
  | Raised e => Raised e
  end.

(** Whether the [try] block of channel [i] ends in its [except] branch. *)
Fixpoint try_raises (body : list stmt) (s : list R * engine R) : bool :=
  match body with
  | [] => false
  | c :: rest =>
      match c s with
      | Returned s' => try_raises rest s'
      | Raised _ => true
      end
  end.

End Generic.

Section Streaming.
Context {R : Type} `{Float R}.

(** [self.stream_warmup_remaining = int(self.sampling_rate * 0.5)] *)
Definition warmup_samples (sampling_rate : Z) : Z :=
  py_int (inject_Z sampling_rate * q0_5).

(** [self.stream_buffer[:] = np.nan] *)
Definition fill_nan (a : array2 R) : array2 R :=
  {| ncols := ncols a; rows := map (map (fun _ => f_nan)) (rows a) |}.

(** [SegmentViewer.toggle_streaming_visualization], engine state only (the
    timer, the widgets and the plot items belong to the rendering layer). *)
Definition toggle_streaming_visualization (self : engine R) : engine R :=
  if negb (streaming_active self) then
    (* Start streaming visualization *)
    {| SCIPY_AVAILABLE := SCIPY_AVAILABLE self;
       sampling_rate := sampling_rate self;
       num_channels := num_channels self;
       magnitude_scale := magnitude_scale self;
       filter_coeffs_valid := filter_coeffs_valid self;
       bandpass_b := bandpass_b self;
       bandpass_a := bandpass_a self;
       notch_b := notch_b self;
       notch_a := notch_a self;
       bandpass_zi_template := bandpass_zi_template self;
       notch_zi_template := notch_zi_template self;
       bandpass_zi := ∅;
       notch_zi := ∅;
       board_connected := board_connected self;
       streaming_active := true;
       file_loaded := true;
       stream_buffer := fill_nan <$> stream_buffer self;
       stream_warmup_remaining := warmup_samples (sampling_rate self);
       fft_update_counter := fft_update_counter self;
       fft_update_interval := fft_update_interval self;
       smoothed_fft := ∅;
       smoothed_band_power := ∅;
       band_power_y_max := f_zero |}
  else
    (* Stop streaming visualization *)
    {| SCIPY_AVAILABLE := SCIPY_AVAILABLE self;
       sampling_rate := sampling_rate self;
       num_channels := num_channels self;
       magnitude_scale := magnitude_scale self;
       filter_coeffs_valid := filter_coeffs_valid self;
       bandpass_b := bandpass_b self;
       bandpass_a := bandpass_a self;
       notch_b := notch_b self;
       notch_a := notch_a self;
       bandpass_zi_template := bandpass_zi_template self;
       notch_zi_template := notch_zi_template self;
       bandpass_zi := bandpass_zi self;
       notch_zi := notch_zi self;
       board_connected := board_connected self;
       streaming_active := false;
       file_loaded := false;
       stream_buffer := stream_buffer self;
       stream_warmup_remaining := stream_warmup_remaining self;
       fft_update_counter := fft_update_counter self;
       fft_update_interval := fft_update_interval self;
       smoothed_fft := smoothed_fft self;
       smoothed_band_power := smoothed_band_power self;
       band_power_y_max := band_power_y_max self |}.

(** The transient caches of a live session. *)
Definition caches_cleared (self : engine R) : Prop :=
  bandpass_zi self = ∅ /\ notch_zi self = ∅
  /\ smoothed_fft self = ∅ /\ smoothed_band_power self = ∅
  /\ stream_buffer self = fill_nan <$> stream_buffer self.

(** *** The warm-up gate of [update_stream_data]

    [if self.stream_warmup_remaining > 0: ...]: the new counter, and the
    chunk that goes on to the rolling buffer ([None] for the early
    [return]). *)
Definition warmup_discard (stream_warmup_remaining : Z) (processed_data : array2 R)
    : Z * option (array2 R) :=
  if 0 <? stream_warmup_remaining then
    let n := Z.of_nat (ncols processed_data) in
    let remaining := stream_warmup_remaining - n in
    if 0 <=? remaining then (remaining, None)
    else
      let keep := - remaining in
      (0, Some (cols_from_neg (Z.to_nat keep) processed_data))
  else (stream_warmup_remaining, Some processed_data).


(** *** The rolling buffer of [update_stream_data] *)

(** [self.stream_buffer[:, :-new_samples] = self.stream_buffer[:, new_samples:]]
    on one row: both sides have [len - new_samples] entries whatever the
    row, and the last [new_samples] entries stay. *)
Definition shift_left (new_samples : nat) (buf_row : list R) : list R :=
  slice_from new_samples buf_row ++ slice_from_neg new_samples buf_row.

(** [self.stream_buffer[:, -new_samples:] = processed_data], reached with
    [0 < new_samples < buf_len] and a chunk of [new_samples] columns: numpy
    wants as many rows in the chunk as in the buffer, or a single row that it
    repeats. *)
Definition write_tail (new_samples : nat) (buf processed_data : array2 R)
    : outcome (array2 R) :=
  match rows processed_data with
  | [p] =>
      Returned {| ncols := ncols buf;
                  rows := map (fun b => slice_to_neg new_samples b ++ p) (rows buf) |}
  | ps =>
      if Nat.eqb (length ps) (length (rows buf))
      then Returned {| ncols := ncols buf;
                       rows := zip_with (fun b p => slice_to_neg new_samples b ++ p)
                                        (rows buf) ps |}
      else Raised ValueError
  end.

(** [if new_samples > 0: ...]: the buffer after the block, and the exception
    that left it, if any. *)
Definition roll_buffer (stream_buffer processed_data : array2 R)
    : array2 R * option exn :=
  let new_samples := ncols processed_data in
  if (0 <? new_samples)%nat then
    let buf_len := ncols stream_buffer in
    if (buf_len <=? new_samples)%nat
    then (cols_from_neg buf_len processed_data, None)
    else
      let shifted := {| ncols := buf_len;
                        rows := map (shift_left new_samples) (rows stream_buffer) |} in
      match write_tail new_samples shifted processed_data with
      | Returned b => (b, None)
      | Raised e => (shifted, Some e)
      end
  else (stream_buffer, None).

(** What a tick leaves for the rendering layer to do. *)
Inductive tick : Type :=
| Idle
| Discarded
| Failed (e : exn)
| Redraw (spectra_due : bool).

(** [SegmentViewer.update_stream_data]; [eeg_data] is
    [self.board.get_board_data()[self.eeg_channels, :]].  The calls to
    [update_streaming_plots], [update_fft] and [update_band_power] are
    reported, not run. *)
Definition update_stream_data (self : engine R) (eeg_data : array2 R)
    : engine R * tick :=
  if negb (board_connected self) || negb (streaming_active self) then (self, Idle)
  else if Nat.eqb (ncols eeg_data) 0 then (self, Idle)
  else
    match process_signal self eeg_data with
    | Raised e => (self, Failed e)
    | Returned (processed_data, self) =>
        let '(remaining, kept) :=
          warmup_discard (stream_warmup_remaining self) processed_data in
        let self := set_stream_warmup_remaining remaining self in
        match kept with
        | None => (self, Discarded)
        | Some processed_data =>
            if (0 <? ncols processed_data)%nat then
              match stream_buffer self with
              | None => (self, Failed AttributeError)
              | Some buf =>
                  let '(buf, raised) := roll_buffer buf processed_data in
                  let self := set_stream_buffer (Some buf) self in
                  match raised with
                  | Some e => (self, Failed e)
                  | None =>
                      let counter := fft_update_counter self + 1 in
                      if fft_update_interval self <=? counter
                      then (set_fft_update_counter 0 self, Redraw true)
                      else (set_fft_update_counter counter self, Redraw false)
                  end
              end
            else (self, Idle)
        end
    end.

(** *** [SegmentViewer.resize_stream_buffer] *)

(** [np.full((self.num_channels, new_buf_size), np.nan)] *)
Definition full_nan (channels size : nat) : array2 R :=
  {| ncols := size; rows := replicate channels (replicate size f_nan) |}.

(** [new_buf_size = int(self.sampling_rate * new_window_sec)], floored at 10 *)
Definition new_buf_size (sampling_rate : Z) (new_window_sec : Q) : nat :=
  let n := py_int (inject_Z sampling_rate * new_window_sec) in
  Z.to_nat (if n <? 10 then 10 else n).

(** [new_buf[:, -copy_len:] = old_buf[:, -copy_len:]].  [copy_len] is zero
    only for an old buffer without columns; both slices are then whole
    arrays, and no column cannot be spread over the ten or more columns of
    the new buffer. *)
Definition copy_right (copy_len : nat) (new_buf old_buf : array2 R)
    : outcome (array2 R) :=
  match copy_len with
  | O => Raised ValueError
  | S _ => write_tail copy_len new_buf (cols_from_neg copy_len old_buf)
  end.

Definition resize_stream_buffer (self : engine R) (new_window_sec : Q)
    : outcome (engine R) :=
  let size := new_buf_size (sampling_rate self) new_window_sec in
  match stream_buffer self with
  | None => Raised AttributeError
  | Some old_buf =>
      let old_size := ncols old_buf in
      let new_buf := full_nan (num_channels self) size in
      let copy_len := Nat.min old_size size in
      bind (copy_right copy_len new_buf old_buf)
           (fun new_buf =>
              Returned (set_smoothed_fft ∅ (set_stream_buffer (Some new_buf) self)))
  end.

End Streaming.

(** Exact arithmetic on [cell], for running the engine on concrete data:
    NaN is absorbing and results are kept in lowest terms. *)
Definition cell_op (op : Q -> Q -> Q) (x y : cell) : cell :=
  match x, y with
  | Val p, Val q => Val (Qred (op p q))
  | _, _ => NaN
  end.

Definition cell_div (x y : cell) : cell :=
  match x, y with
  | Val p, Val q => if Qeq_bool q 0 then NaN else Val (Qred (p / q))
  | _, _ => NaN
  end.

#[export] Instance cell_float : Float cell := {
  f_zero := Val 0;
  f_nan := NaN;
  f_isnan := Smoother.isnan;
  f_of_int := fun z => Val (inject_Z z);
  f_add := cell_op Qplus;
  f_sub := cell_op Qminus;
  f_mul := cell_op Qmult;
  f_div := cell_div
}.

End Engine.

(** ** Concrete engines and chunks *)
Module Examples.
Import Engine.

(** A connected engine before a session, one EEG channel at 250 Hz, with a
    first-order filter [y[n] = x[n] + x[n-1]] in the band-pass slot and the
    identity filter of order two in the notch slot. *)
Definition idle_engine_at (rate : Z) : engine cell :=
  {| SCIPY_AVAILABLE := true;
     sampling_rate := rate;
     num_channels := 1;
     magnitude_scale := 100;
     filter_coeffs_valid := true;
     bandpass_b := [Val 1; Val 1];
     bandpass_a := [Val 1; Val 0];
     notch_b := [Val 1; Val 0; Val 0];
     notch_a := [Val 1; Val 0; Val 0];
     bandpass_zi_template := [Val 0];
     notch_zi_template := [Val 0; Val 0];
     bandpass_zi := ∅;
     notch_zi := ∅;
     board_connected := true;
     streaming_active := false;
     file_loaded := false;
     stream_buffer := Some {| ncols := 3; rows := [[Val 0; Val 0; Val 0]] |};
     stream_warmup_remaining := 0;
     fft_update_counter := 0;
     fft_update_interval := 3;
     smoothed_fft := ∅;
     smoothed_band_power := ∅;
     band_power_y_max := Val 0 |}.

Definition idle_engine : engine cell := idle_engine_at 250.

(** The same engine in the middle of a live session. *)
Definition live_engine : engine cell :=
  {| SCIPY_AVAILABLE := true;
     sampling_rate := 250;
     num_channels := 1;
     magnitude_scale := 100;
     filter_coeffs_valid := true;
     bandpass_b := [Val 1; Val 1];
     bandpass_a := [Val 1; Val 0];
     notch_b := [Val 1; Val 0; Val 0];
     notch_a := [Val 1; Val 0; Val 0];
     bandpass_zi_template := [Val 0];
     notch_zi_template := [Val 0; Val 0];
     bandpass_zi := {[ 0%nat := [Val 7] ]};
     notch_zi := {[ 0%nat := [Val 0; Val 0] ]};
     board_connected := true;
     streaming_active := true;
     file_loaded := true;
     stream_buffer := Some {| ncols := 3; rows := [[Val 5; Val 6; Val 7]] |};
     stream_warmup_remaining := 0;
     fft_update_counter := 1;
     fft_update_interval := 3;
     smoothed_fft := {[ 0%nat := [Val 2] ]};
     smoothed_band_power := {[ "Alpha"%string := Val 3 ]};
     band_power_y_max := Val 3 |}.


(** One channel, two samples. *)
Definition chunk_1_2 : array2 cell :=
  {| ncols := 2; rows := [[Val 1; Val 2]] |}.


(** A one-channel buffer of capacity three, and one without any column. *)
Definition buffer_5_6_7 : array2 cell :=
  {| ncols := 3; rows := [[Val 5; Val 6; Val 7]] |}.

(** Window tables: one without windows, and the one of a
    1000-sample recording at 100 Hz cut into 5 s windows. *)
Definition no_windows : Segmenter.windows :=
  {| Segmenter.window_size_samples := 0; Segmenter.stride := 0;
     Segmenter.num_windows := 0 |}.

Definition windows_5s_100hz : Segmenter.windows :=
  {| Segmenter.window_size_samples := 500; Segmenter.stride := 400;
     Segmenter.num_windows := 2 |}.

End Examples.

(** ** Window navigation in file mode *)
Module Navigation.
Import Segmenter.

(** Python's [max(a, b)] and [min(a, b)] on floats: the first argument wins
    a tie. *)
Definition py_max2 (a b : Q) : Q := if Bounds.Qgtb b a then b else a.
Definition py_min2 (a b : Q) : Q := if Bounds.Qgtb a b then b else a.

(** Entry [k] of [self.full_time_axis = np.arange(total_samples) /
    self.sampling_rate]. *)
Definition time_at (sampling_rate k : Z) : Q :=
  (inject_Z k / inject_Z sampling_rate)%Q.

(** [self.full_time_axis[i]] for a Python index [i]: a negative index counts
    from the end, an index outside the axis raises [IndexError]. *)
Definition full_time_axis_at (total_samples sampling_rate i : Z) : outcome Q :=
  if (0 <=? i) && (i <? total_samples)
  then Returned (time_at sampling_rate i)
  else if (- total_samples <=? i) && (i <? 0)
       then Returned (time_at sampling_rate (total_samples + i))
       else Raised IndexError.

(** [SegmentViewer.get_window_bounds]; [total_samples] is
    [len(self.full_time_axis)]. *)
Definition get_window_bounds (w : windows) (total_samples window_idx : Z) : Z * Z :=
  let start_sample := Z.max 0 (window_idx * stride w) in
  let end_sample := Z.min (start_sample + window_size_samples w) total_samples in
  (start_sample, end_sample).

(** [SegmentViewer.get_window_from_time]: the floor division raises when the
    stride is zero. *)
Definition get_window_from_time (w : windows) (sampling_rate : Z) (t_center : Q)
    : outcome Z :=
  let sample_idx := py_int (t_center * inject_Z sampling_rate) in
  if stride w =? 0 then Raised ZeroDivisionError
  else
    let window_idx := sample_idx / stride w in
    Returned (Z.max 0 (Z.min window_idx (num_windows w - 1))).

(** Step 1 of [SegmentViewer.sync_navigation_controls]: the new
    [self.current_window]. *)
Definition sync_navigation_controls (w : windows) (current_window : Z) : Z :=
  Z.max 0 (Z.min current_window (num_windows w - 1)).

(** The "snap to window boundaries" block of [navigate_to_window] (the same
    three lines open [update_plot_overlay], [update_plot_stacked],
    [on_overlay_range_changed] and [auto_fit_plot]): the pair
    [(t_start, t_end)]. *)
Definition window_time_range (w : windows) (total_samples sampling_rate value : Z)
    : outcome (Q * Q) :=
  let '(start_sample, end_sample) := get_window_bounds w total_samples value in
  Engine.bind (full_time_axis_at total_samples sampling_rate start_sample)
    (fun t_start =>
       Engine.bind
         (full_time_axis_at total_samples sampling_rate
            (Z.min (end_sample - 1) (total_samples - 1)))
         (fun t_end => Returned (t_start, t_end))).

(** [SegmentViewer.get_visible_data_range] for
    [view_range = (t_min, t_max)]. *)
Definition get_visible_data_range (total_samples sampling_rate : Z) (t_min t_max : Q)
    : outcome (Z * Z) :=
  let padding := ((t_max - t_min) * (2 # 10))%Q in
  let t_min_padded := py_max2 0 (t_min - padding) in
  Engine.bind (full_time_axis_at total_samples sampling_rate (-1))
    (fun last =>
       let t_max_padded := py_min2 last (t_max + padding) in
       let start_idx := Z.max 0 (py_int (t_min_padded * inject_Z sampling_rate)) in
       let end_idx :=
         Z.min total_samples (py_int (t_max_padded * inject_Z sampling_rate)) in
       Returned (start_idx, end_idx)).

(** The playback position and view range that [SegmentViewer.autoplay_step]
    computes, given the time [elapsed] since the last frame
    ([time.perf_counter()] differences): the new [autoplay_current_time],
    [t_start] and [t_end]. *)
Definition autoplay_view (window_size_sec autoplay_speed autoplay_current_time
    elapsed : Q) (total_samples sampling_rate : Z) : outcome (Q * Q * Q) :=
  let elapsed := py_min2 elapsed (1 # 10) in
  let time_increment := (elapsed * autoplay_speed)%Q in
  let current := (autoplay_current_time + time_increment)%Q in
  Engine.bind (full_time_axis_at total_samples sampling_rate (-1))
    (fun total_duration =>
       let current :=
         if Qle_bool (total_duration - window_size_sec / 2) current
         then (window_size_sec / 2)%Q else current in
       let half_window := (window_size_sec / 2)%Q in
       let t_start := (current - half_window)%Q in
       let t_end := (current + half_window)%Q in
       Engine.bind (full_time_axis_at total_samples sampling_rate 0)
         (fun first =>
            let '(t_start, t_end) :=
              if Bounds.Qgtb first t_start
              then (first, (first + window_size_sec)%Q)
              else (t_start, t_end) in
            let '(t_start, t_end) :=
              if Bounds.Qgtb t_end total_duration
              then ((total_duration - window_size_sec)%Q, total_duration)
              else (t_start, t_end) in
            Returned (current, t_start, t_end))).

End Navigation.

(** ** A ten-column buffer *)
Module BufferExamples.
Import Engine.

(** [live_engine] with a one-channel buffer of capacity ten, the smallest
    capacity a resize produces. *)
Definition buffer_0_to_9 : array2 cell :=
  {| ncols := 10;
     rows := [map (fun k => Val (inject_Z k)) [0; 1; 2; 3; 4; 5; 6; 7; 8; 9]] |}.

Definition ten_column_engine : engine cell :=
  set_stream_buffer (Some buffer_0_to_9) Examples.live_engine.

End BufferExamples.

(** ** The stream timer *)
Module Timer.
Import Engine.

Section Ticks.
Context {R : Type} `{Float R}.



End Ticks.
End Timer.

(** ** Band-power smoothing *)
Module BandPower.








End BandPower.

(** ** Band powers of one update *)
Module BandPowerExamples.



End BandPowerExamples.

(** ** Vertical bounds in file mode *)
Module Vertical.

(** [<=] on floats, decided. *)
#[global] Instance Qle_dec : RelDecision Qle :=
  fun x y => decide (Qnum x * QDen y <= Qnum y * QDen x).

(** [np.min(channel_data)] and [np.max(channel_data)] on a row of numbers;
    numpy raises [ValueError] on an empty row. *)
Definition np_min (channel_data : list Q) : outcome Q :=
  match channel_data with
  | [] => Raised ValueError
  | x :: xs =>
      Returned (fold_left (fun m v => if Bounds.Qgtb m v then v else m) xs x)
  end.

Definition np_max (channel_data : list Q) : outcome Q :=
  match channel_data with
  | [] => Raised ValueError
  | x :: xs => Returned (Spectral.py_max x xs)
  end.

(** numpy's [_lerp(a, b, t)]: [a + (b - a) * t], computed from [b] when
    [t >= 0.5]. *)
Definition lerp (a b t : Q) : Q :=
  if Qle_bool (1 # 2) t then (b - (b - a) * (1 - t))%Q
  else (a + (b - a) * t)%Q.

(** The interpolation step of numpy's [_quantile] on the sorted row [arr]:
    the entries at [floor(virtual_index)] and at the next index (clipped to
    the last one), blended by the fractional part. *)
Definition interpolate (arr : list Q) (virtual_index : Q) : Q :=
  let values_count := Z.of_nat (length arr) in
  let previous_index := Qfloor virtual_index in
  let next_index := Z.min (previous_index + 1) (values_count - 1) in
  let gamma := (virtual_index - inject_Z previous_index)%Q in
  lerp (nth (Z.to_nat previous_index) arr 0%Q)
       (nth (Z.to_nat next_index) arr 0%Q) gamma.

(** [np.quantile(channel_data, q)] with numpy's default method ("linear",
    virtual index [(n - 1) * q]) on a row of numbers; an empty row makes
    numpy raise. *)
Definition np_quantile (channel_data : list Q) (q : Q) : outcome Q :=
  match channel_data with
  | [] => Raised ValueError
  | _ =>
      let arr := merge_sort Qle channel_data in
      let values_count := Z.of_nat (length arr) in
      Returned (interpolate arr (inject_Z (values_count - 1) * q))
  end.

(** The "IQR bounds" lines of [prepare_data] for one channel. *)
Definition iqr_bounds (channel_data : list Q) : outcome (Q * Q) :=
  Engine.bind (np_quantile channel_data (25 # 100)) (fun q1 =>
  Engine.bind (np_quantile channel_data (75 # 100)) (fun q3 =>
    let iqr := (q3 - q1)%Q in
    let iqr_y_min := (q1 - iqr * 5)%Q in
    let iqr_y_max := (q3 + iqr * 5)%Q in
    Returned (iqr_y_min, iqr_y_max))).

(** The "Min-Max bounds" lines of [prepare_data] for one channel. *)
Definition minmax_bounds (channel_data : list Q) : outcome (Q * Q) :=
  Engine.bind (np_min channel_data) (fun minmax_y_min =>
  Engine.bind (np_max channel_data) (fun minmax_y_max =>
    Returned (minmax_y_min, minmax_y_max))).

(** The loop [for ch_idx in range(self.num_channels)] of [prepare_data]
    from channel [ch_idx] on; [raw_data] holds the rows still to visit
    ([num_channels] is [raw_data.shape[0]], set by [recalculate_windows]
    just before). *)
Fixpoint prepare_loop (raw_data : list (list Q)) (ch_idx : nat)
    (self : Bounds.bounds_tables) : outcome Bounds.bounds_tables :=
  match raw_data with
  | [] => Returned self
  | channel_data :: rest =>
      Engine.bind (iqr_bounds channel_data) (fun iqr_pair =>
      Engine.bind (minmax_bounds channel_data) (fun minmax_pair =>
        prepare_loop rest (S ch_idx)
          {| Bounds.channel_iqr_bounds :=
               <[ch_idx := iqr_pair]> (Bounds.channel_iqr_bounds self);
             Bounds.channel_minmax_bounds :=
               <[ch_idx := minmax_pair]> (Bounds.channel_minmax_bounds self) |}))
  end.

(** The two bounds tables that [prepare_data] leaves. *)
Definition prepare_data (raw_data : list (list Q)) : outcome Bounds.bounds_tables :=
  prepare_loop raw_data 0
    {| Bounds.channel_iqr_bounds := ∅; Bounds.channel_minmax_bounds := ∅ |}.

Inductive bounds_mode : Type := iqr | minmax.

(** The table that a mode reads. *)
Definition table_of (vertical_bounds_mode : bounds_mode)
    (self : Bounds.bounds_tables) : gmap nat (Q * Q) :=
  match vertical_bounds_mode with
  | iqr => Bounds.channel_iqr_bounds self
  | minmax => Bounds.channel_minmax_bounds self
  end.

(** [SegmentViewer.get_bounds_for_channels] *)
Definition get_bounds_for_channels (vertical_bounds_mode : bounds_mode)
    (self : Bounds.bounds_tables) (channel_indices : list nat)
    : outcome (option (Q * Q)) :=
  match vertical_bounds_mode with
  | iqr => Bounds.get_iqr_bounds_for_channels self channel_indices
  | minmax => Bounds.get_minmax_bounds_for_channels self channel_indices
  end.

(** [SegmentViewer.apply_vertical_zoom] in overlay display on a loaded file:
    the Y range handed to [setYRange], [None] for the early [return].
    [value] is the zoom percentage, positive on both zoom widgets. *)
Definition apply_vertical_zoom (vertical_bounds_mode : bounds_mode)
    (self : Bounds.bounds_tables) (active_channels : list nat) (value : Q)
    : outcome (option (Q * Q)) :=
  match active_channels with
  | [] => Returned None
  | _ =>
      let zoom_factor := (value / 100)%Q in
      Engine.bind
        (Bounds.unpack_bounds
           (get_bounds_for_channels vertical_bounds_mode self active_channels))
        (fun '(y_min, y_max) =>
           let y_center := ((y_min + y_max) / 2)%Q in
           let y_range := ((y_max - y_min) / zoom_factor)%Q in
           let new_y_min := (y_center - y_range / 2)%Q in
           let new_y_max := (y_center + y_range / 2)%Q in
           Returned (Some (new_y_min, new_y_max)))
  end.

(** A channel without any variation: all its samples are equal. *)
Definition flat (channel_data : list Q) : Prop :=
  forall v w, v ∈ channel_data -> w ∈ channel_data -> (v == w)%Q.

(** The bounds of a channel in a mode. *)
Definition bounds_in (vertical_bounds_mode : bounds_mode)
    (channel_data : list Q) : outcome (Q * Q) :=
  match vertical_bounds_mode with
  | iqr => iqr_bounds channel_data
  | minmax => minmax_bounds channel_data
  end.

(** A channel whose bounds in a mode have no extent: flat in min-max mode,
    with coinciding quartiles in IQR mode. *)
Definition degenerate (vertical_bounds_mode : bounds_mode)
    (channel_data : list Q) : Prop :=
  match vertical_bounds_mode with
  | iqr =>
      exists q1 q3,
        np_quantile channel_data (25 # 100) = Returned q1
        /\ np_quantile channel_data (75 # 100) = Returned q3
        /\ (q1 == q3)%Q
  | minmax => flat channel_data
  end.

(** Three channels of seven samples: the second one is flat, the third one
    is not, but its quartiles coincide. *)
Definition three_channels : list (list Q) :=
  [[1; 5; 3; 2; 8; 4; 6]; [2; 2; 2; 2; 2; 2; 2]; [0; 5; 5; 5; 5; 5; 9]]%Q.

End Vertical.

(** ** Changing the window length in file mode *)
Module WindowLength.
Import Segmenter Navigation.

(** The "new view range centered on the same time point" block shared by
    [on_horizontal_zoom_changed] and [on_window_size_spinbox_changed];
    [last] is [self.full_time_axis[-1]]. *)
Definition resized_view (value t_center last : Q) : Q * Q :=
  let t_start := (t_center - value / 2)%Q in
  let t_end := (t_center + value / 2)%Q in
  let t_start := py_max2 0 t_start in
  let t_end := py_min2 last t_end in
  if Qeq_bool t_start 0 then (t_start, py_min2 value last)
  else if Qeq_bool t_end last then (py_max2 0 (last - value), t_end)
  else (t_start, t_end).

(** [SegmentViewer.on_window_size_spinbox_changed] on a loaded file, from
    [self.recalculate_windows()] on: the window table, the current window
    and the X range handed to [setXRange].  [t_center] is the centre of the
    view before the change. *)
Definition on_window_size_spinbox_changed (self : windows) (current_window : Z)
    (value t_center : Q) (sampling_rate total_samples : Z)
    : windows * Z * outcome (Q * Q) :=
  match recalculate_windows self value sampling_rate total_samples with
  | (self, Some e) => (self, current_window, Raised e)
  | (self, None) =>
      let current_window := sync_navigation_controls self current_window in
      (self, current_window,
       Engine.bind (full_time_axis_at total_samples sampling_rate (-1))
         (fun last => Returned (resized_view value t_center last)))
  end.

End WindowLength.

(** ** Stacked display *)
Module Stacked.

(** [SegmentViewer.compute_channel_spacing] *)
Definition compute_channel_spacing (total_y_span : Q) (num_active : Z) : Q :=
  if num_active <=? 0 then total_y_span
  else (total_y_span / inject_Z (num_active + 1))%Q.

(** [offsets[k]] of [offsets = np.arange(0, -num_active * d, -d)], which is
    also the tick [-k * d] of lane [k]. *)
Definition offset (d : Q) (k : Z) : Q := (0 + inject_Z k * - d)%Q.

(** One sample of [offset_data = (all_data[k] - all_means[k])
    * self.channel_amplitude_scale + offsets[k]]. *)
Definition offset_sample (channel_amplitude_scale d : Q) (k : Z) (x mean : Q) : Q :=
  ((x - mean) * channel_amplitude_scale + offset d k)%Q.

(** [y_bottom = -num_active * d] and [y_top = d], as handed to
    [setYRange]. *)
Definition y_range (total_y_span : Q) (num_active : Z) : Q * Q :=
  let d := compute_channel_spacing total_y_span num_active in
  ((- inject_Z num_active * d)%Q, d).

End Stacked.

(** ** Filter design *)
Module Design.
Import Engine.

Section Coefficients.
Context {R : Type} `{Float R}.

(** scipy's design routines at sampling rate [fs], each returning its
    result or raising: [butter(2, [lowcut, highcut], btype='band', fs=fs)],
    [iirnotch(notch_freq, 30, fs=fs)] and [lfilter_zi(b, a)]. *)
Variable butter : Z -> outcome (list R * list R).
Variable iirnotch : Z -> outcome (list R * list R).
Variable lfilter_zi : list R -> list R -> outcome (list R).

(** [self.filter_coeffs_valid = v] *)
Definition set_filter_coeffs_valid (v : bool) (self : engine R) : engine R :=
  {| SCIPY_AVAILABLE := SCIPY_AVAILABLE self;
     sampling_rate := sampling_rate self;
     num_channels := num_channels self;
     magnitude_scale := magnitude_scale self;
     filter_coeffs_valid := v;
     bandpass_b := bandpass_b self;
     bandpass_a := bandpass_a self;
     notch_b := notch_b self;
     notch_a := notch_a self;
     bandpass_zi_template := bandpass_zi_template self;
     notch_zi_template := notch_zi_template self;
     bandpass_zi := bandpass_zi self;
     notch_zi := notch_zi self;
     board_connected := board_connected self;
     streaming_active := streaming_active self;
     file_loaded := file_loaded self;
     stream_buffer := stream_buffer self;
     stream_warmup_remaining := stream_warmup_remaining self;
     fft_update_counter := fft_update_counter self;
     fft_update_interval := fft_update_interval self;
     smoothed_fft := smoothed_fft self;
     smoothed_band_power := smoothed_band_power self;
     band_power_y_max := band_power_y_max self |}.

(** [self.bandpass_b, self.bandpass_a = b, a] *)
Definition set_bandpass (b a : list R) (self : engine R) : engine R :=
  {| SCIPY_AVAILABLE := SCIPY_AVAILABLE self;
     sampling_rate := sampling_rate self;
     num_channels := num_channels self;
     magnitude_scale := magnitude_scale self;
     filter_coeffs_valid := filter_coeffs_valid self;
     bandpass_b := b;
     bandpass_a := a;
     notch_b := notch_b self;
     notch_a := notch_a self;
     bandpass_zi_template := bandpass_zi_template self;
     notch_zi_template := notch_zi_template self;
     bandpass_zi := bandpass_zi self;
     notch_zi := notch_zi self;
     board_connected := board_connected self;
     streaming_active := streaming_active self;
     file_loaded := file_loaded self;
     stream_buffer := stream_buffer self;
     stream_warmup_remaining := stream_warmup_remaining self;
     fft_update_counter := fft_update_counter self;
     fft_update_interval := fft_update_interval self;
     smoothed_fft := smoothed_fft self;
     smoothed_band_power := smoothed_band_power self;
     band_power_y_max := band_power_y_max self |}.

(** [self.notch_b, self.notch_a = b, a] *)
Definition set_notch (b a : list R) (self : engine R) : engine R :=
  {| SCIPY_AVAILABLE := SCIPY_AVAILABLE self;
     sampling_rate := sampling_rate self;
     num_channels := num_channels self;
     magnitude_scale := magnitude_scale self;
     filter_coeffs_valid := filter_coeffs_valid self;
     bandpass_b := bandpass_b self;
     bandpass_a := bandpass_a self;
     notch_b := b;
     notch_a := a;
     bandpass_zi_template := bandpass_zi_template self;
     notch_zi_template := notch_zi_template self;
     bandpass_zi := bandpass_zi self;
     notch_zi := notch_zi self;
     board_connected := board_connected self;
     streaming_active := streaming_active self;
     file_loaded := file_loaded self;
     stream_buffer := stream_buffer self;
     stream_warmup_remaining := stream_warmup_remaining self;
     fft_update_counter := fft_update_counter self;
     fft_update_interval := fft_update_interval self;
     smoothed_fft := smoothed_fft self;
     smoothed_band_power := smoothed_band_power self;
     band_power_y_max := band_power_y_max self |}.

(** [self.bandpass_zi_template = zi] *)
Definition set_bandpass_zi_template (zi : list R) (self : engine R) : engine R :=
  {| SCIPY_AVAILABLE := SCIPY_AVAILABLE self;
     sampling_rate := sampling_rate self;
     num_channels := num_channels self;
     magnitude_scale := magnitude_scale self;
     filter_coeffs_valid := filter_coeffs_valid self;
     bandpass_b := bandpass_b self;
     bandpass_a := bandpass_a self;
     notch_b := notch_b self;
     notch_a := notch_a self;
     bandpass_zi_template := zi;
     notch_zi_template := notch_zi_template self;
     bandpass_zi := bandpass_zi self;
     notch_zi := notch_zi self;
     board_connected := board_connected self;
     streaming_active := streaming_active self;
     file_loaded := file_loaded self;
     stream_buffer := stream_buffer self;
     stream_warmup_remaining := stream_warmup_remaining self;
     fft_update_counter := fft_update_counter self;
     fft_update_interval := fft_update_interval self;
     smoothed_fft := smoothed_fft self;
     smoothed_band_power := smoothed_band_power self;
     band_power_y_max := band_power_y_max self |}.

(** [self.notch_zi_template = zi] *)
Definition set_notch_zi_template (zi : list R) (self : engine R) : engine R :=
  {| SCIPY_AVAILABLE := SCIPY_AVAILABLE self;
     sampling_rate := sampling_rate self;
     num_channels := num_channels self;
     magnitude_scale := magnitude_scale self;
     filter_coeffs_valid := filter_coeffs_valid self;
     bandpass_b := bandpass_b self;
     bandpass_a := bandpass_a self;
     notch_b := notch_b self;
     notch_a := notch_a self;
     bandpass_zi_template := bandpass_zi_template self;
     notch_zi_template := zi;
     bandpass_zi := bandpass_zi self;
     notch_zi := notch_zi self;
     board_connected := board_connected self;
     streaming_active := streaming_active self;
     file_loaded := file_loaded self;
     stream_buffer := stream_buffer self;
     stream_warmup_remaining := stream_warmup_remaining self;
     fft_update_counter := fft_update_counter self;
     fft_update_interval := fft_update_interval self;
     smoothed_fft := smoothed_fft self;
     smoothed_band_power := smoothed_band_power self;
     band_power_y_max := band_power_y_max self |}.

(** [SegmentViewer.calculate_filter_coefficients]: the assignments made
    before a call raises stay, and [except Exception] turns the error into
    [filter_coeffs_valid = False]. *)
Definition calculate_filter_coefficients (self : engine R) : engine R :=
  if negb (SCIPY_AVAILABLE self) then set_filter_coeffs_valid false self
  else
    match butter (sampling_rate self) with
    | Raised _ => set_filter_coeffs_valid false self
    | Returned (b, a) =>
        let self := set_bandpass b a self in
        match iirnotch (sampling_rate self) with
        | Raised _ => set_filter_coeffs_valid false self
        | Returned (b, a) =>
            let self := set_notch b a self in
            match lfilter_zi (bandpass_b self) (bandpass_a self) with
            | Raised _ => set_filter_coeffs_valid false self
            | Returned zi =>
                let self := set_bandpass_zi_template zi self in
                match lfilter_zi (notch_b self) (notch_a self) with
                | Raised _ => set_filter_coeffs_valid false self
                | Returned zi =>
                    let self := set_notch_zi_template zi self in
                    let self := set_bandpass_zi ∅ self in
                    let self := set_notch_zi ∅ self in
                    set_filter_coeffs_valid true self
                end
            end
        end
    end.

End Coefficients.

(** Design routines for running the engine on concrete data: a band-pass
    design that succeeds above 70 Hz and a notch design that succeeds above
    120 Hz, with fixed coefficients. *)
Definition butter_above_70 (fs : Z) : outcome (list cell * list cell) :=
  if 70 <? fs then Returned ([Val 1; Val 1], [Val 1; Val 0])
  else Raised ValueError.

Definition iirnotch_above_120 (fs : Z) : outcome (list cell * list cell) :=
  if 120 <? fs then Returned ([Val 1; Val 0; Val 0], [Val 1; Val 0; Val 0])
  else Raised ValueError.

Definition lfilter_zi_zero (b a : list cell) : outcome (list cell) :=
  Returned (replicate (Nat.max (length a) (length b) - 1) (Val 0)).

End Design.

(** ** The data slice of a window *)
Module Plot.
Import Segmenter Navigation.


(** [update_window_controls_from_view] on a loaded file: the window that the
    slider and the spinbox are set to for the view [view_range], looked up
    from the centre of the view. *)
Definition update_window_controls_from_view (w : windows) (sampling_rate : Z)
    (view_range : Q * Q) : outcome Z :=
  let t_center := ((fst view_range + snd view_range) / 2)%Q in
  get_window_from_time w sampling_rate t_center.

End Plot.

(** * Theorems *)

(** ** Window segmenter *)

Lemma py_int_bounds (x : Q) :
  (0 <= x)%Q -> (inject_Z (py_int x) <= x /\ x < inject_Z (py_int x) + 1)%Q.
Proof.
  destruct x as [n d]. unfold py_int, Qle, Qlt. cbn.
  intros Hn. rewrite Z.mul_1_r in Hn.
  rewrite Z.quot_div_nonneg by lia.
  rewrite !Z.mul_1_r.
  pose proof (Z.div_mod n (Z.pos d) ltac:(lia)) as Hdm.
  pose proof (Z.mod_pos_bound n (Z.pos d) ltac:(lia)) as Hm.
  split; nia.
Qed.

Lemma py_int_nonneg (x : Q) : (0 <= x)%Q -> 0 <= py_int x.
Proof.
  destruct x as [n d]. unfold py_int, Qle. cbn. intros Hn.
  rewrite Z.mul_1_r in Hn. apply Z.quot_pos; lia.
Qed.

Lemma calc_stride_bounds (wss : Z) :
  0 <= wss ->
  10 * Segmenter.calc_stride wss <= 8 * wss < 10 * Segmenter.calc_stride wss + 10.
Proof.
  intros Hw. unfold Segmenter.calc_stride.
  assert (Hx : (0 <= inject_Z wss * q0_8)%Q).
  { unfold Qle, q0_8. cbn. lia. }
  destruct (py_int_bounds _ Hx) as [Hlo Hhi].
  revert Hlo Hhi. generalize (py_int (inject_Z wss * q0_8)). intros s.
  unfold Qle, Qlt, q0_8. cbn. lia.
Qed.




(** ** Bounds selection *)

Lemma Qgtb_true (x y : Q) : Bounds.Qgtb x y = true <-> (y < x)%Q.
Proof.
  unfold Bounds.Qgtb. rewrite negb_true_iff.
  split.
  - intros Hb. apply Qnot_le_lt. intros Hle.
    apply Qle_bool_iff in Hle. congruence.
  - intros Hlt. destruct (Qle_bool x y) eqn:E; [| reflexivity].
    apply Qle_bool_iff in E. exfalso. exact (Qlt_not_le _ _ Hlt E).
Qed.

Lemma Qgtb_false (x y : Q) : Bounds.Qgtb x y = false <-> (x <= y)%Q.
Proof.
  unfold Bounds.Qgtb. rewrite negb_false_iff. apply Qle_bool_iff.
Qed.

(** What the selection loop computes, whatever the table: a returned pair
    is the carried one or that of a requested channel, no requested channel
    has a larger range, and [None] comes back only when nothing was carried
    in and no requested channel has a range above the carried maximum. *)
Lemma select_loop_spec (table : gmap nat (Q * Q)) :
  forall (chs : list nat) (mr : Q) (best r : option (Q * Q)),
    Bounds.select_loop table chs mr best = Returned r ->
    (forall b, best = Some b -> Bounds.range_of b = mr) ->
    match r with
    | Some b =>
        (best = Some b \/ exists ch, ch ∈ chs /\ table !! ch = Some b)
        /\ (mr <= Bounds.range_of b)%Q
        /\ forall ch b', ch ∈ chs -> table !! ch = Some b' ->
             (Bounds.range_of b' <= Bounds.range_of b)%Q
    | None =>
        best = None
        /\ forall ch b', ch ∈ chs -> table !! ch = Some b' ->
             (Bounds.range_of b' <= mr)%Q
    end.
Proof.
  induction chs as [| ch rest IH]; intros mr best r Hrun Hbest; cbn in Hrun.
  - inversion Hrun; subst r. destruct best as [b |].
    + split; [left; reflexivity |]. split.
      * rewrite (Hbest b eq_refl). apply Qle_refl.
      * intros ch b' Hin. inversion Hin.
    + split; [reflexivity |]. intros ch b' Hin. inversion Hin.
  - destruct (table !! ch) as [[y_min y_max] |] eqn:Hch; [| discriminate].
    destruct (Bounds.Qgtb (y_max - y_min) mr) eqn:Hgt.
    + apply Qgtb_true in Hgt.
      specialize (IH _ _ _ Hrun). cbn in IH.
      assert (Hb : forall b, Some (y_min, y_max) = Some b ->
                             Bounds.range_of b = (y_max - y_min)%Q).
      { intros b Hb. inversion Hb. reflexivity. }
      specialize (IH Hb). destruct r as [b |].
      * destruct IH as (Hfrom & Hge & Hall). split; [| split].
        -- right. destruct Hfrom as [Hfrom | (c & Hc & Hl)].
           ++ inversion Hfrom; subst b. exists ch. split; [left | exact Hch].
           ++ exists c. split; [right; exact Hc | exact Hl].
        -- apply Qlt_le_weak. eapply Qlt_le_trans; [exact Hgt | exact Hge].
        -- intros c b' Hin Hl. apply elem_of_cons in Hin as [-> | Hin].
           ++ rewrite Hch in Hl. inversion Hl; subst b'. exact Hge.
           ++ exact (Hall c b' Hin Hl).
      * destruct IH as [Hnone _]. discriminate.
    + apply Qgtb_false in Hgt.
      specialize (IH _ _ _ Hrun Hbest). destruct r as [b |].
      * destruct IH as (Hfrom & Hge & Hall). split; [| split].
        -- destruct Hfrom as [Hfrom | (c & Hc & Hl)]; [left; exact Hfrom |].
           right. exists c. split; [right; exact Hc | exact Hl].
        -- exact Hge.
        -- intros c b' Hin Hl. apply elem_of_cons in Hin as [-> | Hin].
           ++ rewrite Hch in Hl. inversion Hl; subst b'.
              eapply Qle_trans; [exact Hgt | exact Hge].
           ++ exact (Hall c b' Hin Hl).
      * destruct IH as [Hnone Hall]. split; [exact Hnone |].
        intros c b' Hin Hl. apply elem_of_cons in Hin as [-> | Hin].
        -- rewrite Hch in Hl. inversion Hl; subst b'. exact Hgt.
        -- exact (Hall c b' Hin Hl).
Qed.

Lemma select_loop_returns (table : gmap nat (Q * Q)) :
  forall (chs : list nat) (mr : Q) (best : option (Q * Q)),
    (forall c, c ∈ chs -> is_Some (table !! c)) ->
    exists r, Bounds.select_loop table chs mr best = Returned r.
Proof.
  induction chs as [| ch rest IH]; intros mr best Hall; cbn.
  - eexists. reflexivity.
  - destruct (Hall ch ltac:(left)) as [[y_min y_max] Hch]. rewrite Hch.
    destruct (Bounds.Qgtb (y_max - y_min) mr);
      apply IH; intros c Hc; apply Hall; right; exact Hc.
Qed.

(** As long as every requested channel has its bounds and one of them has a
    range above zero, the selection returns the pair of a requested channel
    of largest range. *)
Lemma select_bounds_largest_range (table : gmap nat (Q * Q))
    (chs : list nat) (ch0 : nat) (b0 : Q * Q) :
  (forall c, c ∈ chs -> is_Some (table !! c)) ->
  ch0 ∈ chs -> table !! ch0 = Some b0 -> (0 < Bounds.range_of b0)%Q ->
  exists b ch,
    Bounds.select_bounds table chs = Returned (Some b)
    /\ ch ∈ chs /\ table !! ch = Some b
    /\ forall c b', c ∈ chs -> table !! c = Some b' ->
         (Bounds.range_of b' <= Bounds.range_of b)%Q.
Proof.
  intros Hall Hin Hl Hpos. unfold Bounds.select_bounds.
  destruct chs as [| c0 rest]; [inversion Hin |].
  destruct (select_loop_returns table (c0 :: rest) 0%Q None Hall) as [r Hrun].
  rewrite Hrun.
  apply select_loop_spec in Hrun; [| intros b Hb; discriminate].
  destruct r as [b |].
  - destruct Hrun as ([Hfrom | (ch & Hch & Hb)] & _ & Hmax); [discriminate |].
    exists b, ch. repeat split; assumption.
  - destruct Hrun as [_ Hmax]. exfalso.
    exact (Qlt_not_le _ _ Hpos (Hmax ch0 b0 Hin Hl)).
Qed.

(** The case the loop misses: for a requested channel whose bound pair has
    range zero (a flat channel), both selection functions return [None]
    instead of that channel's pair, and the caller's unpacking raises. *)
Lemma flat_channel_selects_no_bounds :
  let self := {| Bounds.channel_iqr_bounds := {[ 0%nat := (3%Q, 3%Q) ]};
                 Bounds.channel_minmax_bounds := {[ 0%nat := (3%Q, 3%Q) ]} |} in
  Bounds.get_iqr_bounds_for_channels self [0%nat] = Returned None
  /\ Bounds.get_minmax_bounds_for_channels self [0%nat] = Returned None
  /\ Bounds.unpack_bounds (Bounds.get_iqr_bounds_for_channels self [0%nat])
     = Raised TypeError.
Proof. repeat split; vm_compute; reflexivity. Qed.

(** C9 (as stated, refuted): for channels with bounds [(0, 10)] and
    [(100, 105)] the selection returns [(0, 10)], the pair of largest range,
    which does not cover [(100, 105)]. *)
Lemma selection_not_covering_counterexample :
  ~ (forall (self : Bounds.bounds_tables) (channel_indices : list nat),
        channel_indices <> [] ->
        (forall c, c ∈ channel_indices ->
                   is_Some (Bounds.channel_iqr_bounds self !! c)) ->
        Bounds.spec_selection (Bounds.channel_iqr_bounds self) channel_indices
          (Bounds.get_iqr_bounds_for_channels self channel_indices)).
Proof.
  intros Hclaim.
  pose (self := {| Bounds.channel_iqr_bounds :=
                     {[ 0%nat := (0%Q, 10%Q); 1%nat := (100%Q, 105%Q) ]};
                   Bounds.channel_minmax_bounds := ∅ |}).
  destruct (Hclaim self [0%nat; 1%nat]) as (b & ch & Hrun & _ & _ & _ & Hcover).
  - discriminate.
  - intros c Hc. apply elem_of_cons in Hc as [-> | Hc];
      [eexists; reflexivity |].
    apply elem_of_cons in Hc as [-> | Hc]; [eexists; reflexivity | inversion Hc].
  - vm_compute in Hrun. inversion Hrun; subst b.
    destruct (Hcover 1%nat (100%Q, 105%Q)) as [_ Hupper];
      [right; left | reflexivity |].
    revert Hupper. vm_compute. intros Hle. apply Hle. reflexivity.
Qed.

(** C9 (amended): for every non-empty set of requested channels, each with
    precomputed bounds and at least one with a range above zero, the
    selection function (in IQR mode and in min/max mode alike) returns the
    bound pair of a requested channel whose range is the largest among the
    requested channels; the pair's range is at least that of every requested
    channel. *)
Theorem selection_returns_largest_range (self : Bounds.bounds_tables)
    (channel_indices : list nat) :
  (forall ch0 b0,
      (forall c, c ∈ channel_indices ->
                 is_Some (Bounds.channel_iqr_bounds self !! c)) ->
      ch0 ∈ channel_indices ->
      Bounds.channel_iqr_bounds self !! ch0 = Some b0 ->
      (0 < Bounds.range_of b0)%Q ->
      exists b ch,
        Bounds.get_iqr_bounds_for_channels self channel_indices = Returned (Some b)
        /\ ch ∈ channel_indices /\ Bounds.channel_iqr_bounds self !! ch = Some b
        /\ forall c b', c ∈ channel_indices ->
             Bounds.channel_iqr_bounds self !! c = Some b' ->
             (Bounds.range_of b' <= Bounds.range_of b)%Q)
  /\ (forall ch0 b0,
      (forall c, c ∈ channel_indices ->
                 is_Some (Bounds.channel_minmax_bounds self !! c)) ->
      ch0 ∈ channel_indices ->
      Bounds.channel_minmax_bounds self !! ch0 = Some b0 ->
      (0 < Bounds.range_of b0)%Q ->
      exists b ch,
        Bounds.get_minmax_bounds_for_channels self channel_indices = Returned (Some b)
        /\ ch ∈ channel_indices /\ Bounds.channel_minmax_bounds self !! ch = Some b
        /\ forall c b', c ∈ channel_indices ->
             Bounds.channel_minmax_bounds self !! c = Some b' ->
             (Bounds.range_of b' <= Bounds.range_of b)%Q).
Proof.
  split; intros ch0 b0 Hall Hin Hl Hpos;
    unfold Bounds.get_iqr_bounds_for_channels, Bounds.get_minmax_bounds_for_channels;
    eapply select_bounds_largest_range; eassumption.
Qed.

Lemma selection_returns_largest_range_witness :
  exists b,
    Bounds.get_iqr_bounds_for_channels
      {| Bounds.channel_iqr_bounds :=
           {[ 0%nat := (0%Q, 10%Q); 1%nat := (100%Q, 105%Q) ]};
         Bounds.channel_minmax_bounds := ∅ |} [0%nat; 1%nat]
    = Returned (Some b)
    /\ (Bounds.range_of (100%Q, 105%Q) <= Bounds.range_of b)%Q.
Proof.
  destruct (selection_returns_largest_range
              {| Bounds.channel_iqr_bounds :=
                   {[ 0%nat := (0%Q, 10%Q); 1%nat := (100%Q, 105%Q) ]};
                 Bounds.channel_minmax_bounds := ∅ |} [0%nat; 1%nat])
    as [Hiqr _].
  destruct (Hiqr 0%nat (0%Q, 10%Q)) as (b & ch & Hrun & _ & _ & Hmax).
  - intros c Hc. apply elem_of_cons in Hc as [-> | Hc];
      [eexists; reflexivity |].
    apply elem_of_cons in Hc as [-> | Hc]; [eexists; reflexivity | inversion Hc].
  - left.
  - reflexivity.
  - reflexivity.
  - exists b. split; [exact Hrun |].
    apply (Hmax 1%nat (100%Q, 105%Q)); [right; left | reflexivity].
Defined.

(** ** Band-power axis ceiling *)

Lemma py_max_spec (vs : list Q) :
  forall v,
    (v <= Spectral.py_max v vs)%Q
    /\ Forall (fun x => (x <= Spectral.py_max v vs)%Q) vs
    /\ (Spectral.py_max v vs = v \/ In (Spectral.py_max v vs) vs).
Proof.
  unfold Spectral.py_max.
  induction vs as [| x vs IH]; intros v; cbn [fold_left].
  - split; [apply Qle_refl |]. split; [constructor | left; reflexivity].
  - destruct (Bounds.Qgtb x v) eqn:Hgt.
    + apply Qgtb_true in Hgt. destruct (IH x) as (Hx & Hall & Hin).
      split; [apply Qlt_le_weak; eapply Qlt_le_trans; eassumption |].
      split; [constructor; assumption |].
      right. destruct Hin as [-> | Hin]; [left; reflexivity | right; exact Hin].
    + apply Qgtb_false in Hgt. destruct (IH v) as (Hv & Hall & Hin).
      split; [exact Hv |].
      split; [constructor; [eapply Qle_trans; eassumption | exact Hall] |].
      destruct Hin as [-> | Hin]; [left; reflexivity | right; right; exact Hin].
Qed.





(** ** Display smoother *)











(** ** Filter pipeline *)

Import Engine.

Section FilterFacts.
Context {R : Type} `{Float R}.

Lemma next_state_length (bs as_ zs : list R) (x y : R) :
  length (next_state bs as_ zs x y) = Nat.min (length bs) (length as_).
Proof.
  revert as_ zs. induction bs as [| b bs IH]; intros [| a as_] zs; cbn;
    try reflexivity.
  destruct zs; cbn; rewrite IH; reflexivity.
Qed.

Lemma df2t_run_length (bn an xs : list R) :
  forall z, length (fst (df2t_run bn an xs z)) = length xs.
Proof.
  induction xs as [| x xs IH]; intros z; cbn; [reflexivity |].
  specialize (IH (next_state (tl bn) (tl an) (tl z) x
                    match z with
                    | [] => f_mul (hd f_zero bn) x
                    | z0 :: _ => f_add z0 (f_mul (hd f_zero bn) x)
                    end)).
  destruct (df2t_run bn an xs _) as [ys zf]. cbn in *. lia.
Qed.

Lemma df2t_run_state_length (bn an xs : list R) (n : nat) :
  Nat.min (length (tl bn)) (length (tl an)) = n ->
  forall z, length z = n -> length (snd (df2t_run bn an xs z)) = n.
Proof.
  intros Hn. induction xs as [| x xs IH]; intros z Hz; cbn; [exact Hz |].
  match goal with
  | |- context [df2t_run bn an xs ?z'] =>
      specialize (IH z'); destruct (df2t_run bn an xs z') as [ys zf]
  end.
  cbn in *. apply IH. rewrite next_state_length. exact Hn.
Qed.

(** The recurrence consumes its input sample by sample: running it over two
    chunks in a row, handing the delay values over, is running it once. *)
Lemma df2t_run_app (bn an xs1 xs2 : list R) :
  forall z,
    df2t_run bn an (xs1 ++ xs2) z
    = let '(ys1, z1) := df2t_run bn an xs1 z in
      let '(ys2, z2) := df2t_run bn an xs2 z1 in
      (ys1 ++ ys2, z2).
Proof.
  induction xs1 as [| x xs1 IH]; intros z; cbn.
  - destruct (df2t_run bn an xs2 z); reflexivity.
  - rewrite IH.
    destruct (df2t_run bn an xs1 _) as [ys1 z1].
    destruct (df2t_run bn an xs2 z1) as [ys2 z2]. reflexivity.
Qed.

Lemma pad_to_length (n : nat) (cs : list R) :
  (length cs <= n)%nat -> length (pad_to n cs) = n.
Proof.
  intros Hle. unfold pad_to. rewrite length_app, length_replicate. lia.
Qed.

(** [lfilter] either rejects the state vector, whatever the samples, or runs
    the recurrence with coefficient vectors whose order is the length of the
    state. *)
Lemma lfilter_cases (b a zi : list R) :
  (exists e, forall x, lfilter b a x zi = Raised e)
  \/ (exists bn an,
        (forall x, lfilter b a x zi = Returned (df2t_run bn an x zi))
        /\ Nat.min (length (tl bn)) (length (tl an)) = length zi
        /\ forall z, length z = length zi ->
             forall x, lfilter b a x z = Returned (df2t_run bn an x z)).
Proof.
  unfold lfilter.
  destruct a as [| a0 a']; [left; exists ValueError; reflexivity |].
  destruct b as [| b0 b']; [left; exists ValueError; reflexivity |].
  set (n := (Nat.max (length (a0 :: a')) (length (b0 :: b')) - 1)%nat).
  destruct (Nat.eqb (length zi) n) eqn:Hlen;
    [| left; exists ValueError; reflexivity].
  apply Nat.eqb_eq in Hlen. right.
  exists (pad_to (S n) (map (fun c => f_div c a0) (b0 :: b'))),
         (pad_to (S n) (map (fun c => f_div c a0) (a0 :: a'))).
  assert (Hb : length (pad_to (S n) (map (fun c => f_div c a0) (b0 :: b'))) = S n).
  { apply pad_to_length. rewrite length_map. subst n. cbn [length]. lia. }
  assert (Ha : length (pad_to (S n) (map (fun c => f_div c a0) (a0 :: a'))) = S n).
  { apply pad_to_length. rewrite length_map. subst n. cbn [length]. lia. }
  split; [reflexivity |]. split.
  - destruct (pad_to (S n) (map (fun c => f_div c a0) (b0 :: b'))); [discriminate |].
    destruct (pad_to (S n) (map (fun c => f_div c a0) (a0 :: a'))); [discriminate |].
    cbn in *. lia.
  - intros z Hz x. rewrite Hz, Hlen, Nat.eqb_refl. reflexivity.
Qed.

Lemma lfilter_fail_any (b a x x' zi : list R) (e : exn) :
  lfilter b a x zi = Raised e -> lfilter b a x' zi = Raised e.
Proof.
  intros Hx. destruct (lfilter_cases b a zi) as [(e' & Hraise) | (bn & an & Hrun & _)].
  - rewrite Hraise in Hx |- *. exact Hx.
  - rewrite Hrun in Hx. discriminate.
Qed.

Lemma lfilter_length (b a x zi y zf : list R) :
  lfilter b a x zi = Returned (y, zf) -> length y = length x.
Proof.
  intros Hx. destruct (lfilter_cases b a zi) as [(e' & Hraise) | (bn & an & Hrun & _)].
  - rewrite Hraise in Hx. discriminate.
  - rewrite Hrun in Hx. inversion Hx as [Hpair].
    pose proof (df2t_run_length bn an x zi) as Hl. rewrite Hpair in Hl. exact Hl.
Qed.

Lemma lfilter_nil (b a zi y zf : list R) :
  lfilter b a [] zi = Returned (y, zf) -> y = [] /\ zf = zi.
Proof.
  intros Hx. destruct (lfilter_cases b a zi) as [(e' & Hraise) | (bn & an & Hrun & _)].
  - rewrite Hraise in Hx. discriminate.
  - rewrite Hrun in Hx. cbn in Hx. inversion Hx. split; reflexivity.
Qed.

(** Filtering two chunks in a row with the state handed over is filtering
    their concatenation. *)
Lemma lfilter_app (b a x1 x2 zi : list R) :
  lfilter b a (x1 ++ x2) zi
  = bind (lfilter b a x1 zi)
         (fun '(y1, z1) =>
            bind (lfilter b a x2 z1)
                 (fun '(y2, z2) => Returned (y1 ++ y2, z2))).
Proof.
  destruct (lfilter_cases b a zi)
    as [(e' & Hraise) | (bn & an & Hrun & Hord & Hnext)].
  - rewrite !Hraise. reflexivity.
  - rewrite !Hrun. cbn [bind]. rewrite df2t_run_app.
    pose proof (df2t_run_state_length bn an x1 (length zi) Hord zi eq_refl) as Hz1.
    destruct (df2t_run bn an x1 zi) as [y1 z1]. cbn in Hz1.
    rewrite (Hnext z1 Hz1). cbn [bind].
    destruct (df2t_run bn an x2 z1) as [y2 z2]. reflexivity.
Qed.

End FilterFacts.

Section ChannelView.
Context {R : Type} `{Float R}.

Lemma lfilter_next (b a x x' zi y zf : list R) :
  lfilter b a x zi = Returned (y, zf) -> exists r, lfilter b a x' zf = Returned r.
Proof.
  intros Hx.
  destruct (lfilter_cases b a zi)
    as [(e' & Hraise) | (bn & an & Hrun & Hord & Hnext)].
  - rewrite Hraise in Hx. discriminate.
  - rewrite Hrun in Hx. inversion Hx as [Hpair].
    pose proof (df2t_run_state_length bn an x (length zi) Hord zi eq_refl) as Hz.
    rewrite Hpair in Hz. cbn in Hz.
    eexists. apply Hnext. exact Hz.
Qed.

Lemma stage_fail_any (b a x x' : list R) (z : option (list R)) (e : exn) :
  stage b a x z = Raised e -> stage b a x' z = Raised e.
Proof.
  destruct z as [zi |]; cbn; [| trivial].
  destruct (lfilter b a x zi) as [[y zf] | e'] eqn:Hx; cbn; [discriminate |].
  intros He. rewrite (lfilter_fail_any _ _ _ x' _ _ Hx). exact He.
Qed.

Lemma stage_next (b a x x' y : list R) (z z' : option (list R)) :
  stage b a x z = Returned (y, z') -> exists r, stage b a x' z' = Returned r.
Proof.
  destruct z as [zi |]; cbn; [| discriminate].
  destruct (lfilter b a x zi) as [[y0 zf] | e'] eqn:Hx; cbn; [| discriminate].
  intros Hr. inversion Hr; subst y0 z'. cbn.
  destruct (lfilter_next b a x x' zi y zf Hx) as [[y' zf'] Hx'].
  rewrite Hx'. cbn. eexists. reflexivity.
Qed.

Lemma stage_length (b a x y : list R) (z z' : option (list R)) :
  stage b a x z = Returned (y, z') -> length y = length x.
Proof.
  destruct z as [zi |]; cbn; [| discriminate].
  destruct (lfilter b a x zi) as [[y0 zf] | e'] eqn:Hx; cbn; [| discriminate].
  intros Hr. inversion Hr; subst y0 z'. exact (lfilter_length _ _ _ _ _ _ Hx).
Qed.

Lemma stage_nil (b a y : list R) (z z' : option (list R)) :
  stage b a [] z = Returned (y, z') -> y = [] /\ z' = z.
Proof.
  destruct z as [zi |]; cbn; [| discriminate].
  destruct (lfilter b a [] zi) as [[y0 zf] | e'] eqn:Hx; cbn; [| discriminate].
  intros Hr. inversion Hr; subst y0 z'.
  destruct (lfilter_nil _ _ _ _ _ Hx) as [-> ->]. split; reflexivity.
Qed.

Lemma stage_app (b a x1 x2 : list R) (z : option (list R)) :
  stage b a (x1 ++ x2) z
  = bind (stage b a x1 z)
         (fun '(y1, z1) =>
            bind (stage b a x2 z1)
                 (fun '(y2, z2) => Returned (y1 ++ y2, z2))).
Proof.
  destruct z as [zi |]; cbn; [| reflexivity].
  rewrite lfilter_app.
  destruct (lfilter b a x1 zi) as [[y1 z1] | e1]; cbn; [| reflexivity].
  destruct (lfilter b a x2 z1) as [[y2 z2] | e2]; reflexivity.
Qed.

Ltac run_stages :=
  cbn [bind local_try local_apply_bandpass local_apply_notch].

(** The two filter stages of the block, from given state entries. *)
Lemma stages_app (self : engine R) (x1 x2 : list R) (s : local_state) :
  local_try [local_apply_bandpass self; local_apply_notch self] (x1 ++ x2, s)
  = let '(y1, s1) :=
      local_try [local_apply_bandpass self; local_apply_notch self] (x1, s) in
    let '(y2, s2) :=
      local_try [local_apply_bandpass self; local_apply_notch self] (x2, s1) in
    (y1 ++ y2, s2).
Proof.
  destruct s as [zb zn]. run_stages.
  rewrite stage_app.
  destruct (stage (bandpass_b self) (bandpass_a self) x1 zb)
    as [[y1 zb1] | e1] eqn:Hb1; run_stages.
  - destruct (stage_next _ _ _ x2 _ _ _ Hb1) as [[y2 zb2] Hb2].
    rewrite Hb2. run_stages. rewrite stage_app.
    destruct (stage (notch_b self) (notch_a self) y1 zn)
      as [[w1 zn1] | e3] eqn:Hn1; run_stages.
    + destruct (stage_next _ _ _ y2 _ _ _ Hn1) as [[w2 zn2] Hn2].
      rewrite Hn2, Hb2. run_stages. rewrite Hn2. reflexivity.
    + rewrite Hb2. run_stages.
      rewrite (stage_fail_any _ _ _ y2 _ _ Hn1). reflexivity.
  - rewrite (stage_fail_any _ _ _ x2 _ _ Hb1). reflexivity.
Qed.

Lemma stages_length (self : engine R) (x : list R) (s : local_state) :
  length (fst (local_try [local_apply_bandpass self; local_apply_notch self] (x, s)))
  = length x.
Proof.
  destruct s as [zb zn]. run_stages.
  destruct (stage (bandpass_b self) (bandpass_a self) x zb)
    as [[y zb1] | e1] eqn:Hb; run_stages; [| reflexivity].
  pose proof (stage_length _ _ _ _ _ _ Hb) as Hy.
  destruct (stage (notch_b self) (notch_a self) y zn)
    as [[w zn1] | e2] eqn:Hn; run_stages; [| exact Hy].
  cbn. rewrite (stage_length _ _ _ _ _ _ Hn). exact Hy.
Qed.

Lemma stages_nil (self : engine R) (zb zn : list R) :
  local_try [local_apply_bandpass self; local_apply_notch self]
    ([], (Some zb, Some zn))
  = ([], (Some zb, Some zn)).
Proof.
  run_stages.
  destruct (stage (bandpass_b self) (bandpass_a self) [] (Some zb))
    as [[y zb1] | e1] eqn:Hb; run_stages; [| reflexivity].
  destruct (stage_nil _ _ _ _ _ Hb) as [-> ->].
  destruct (stage (notch_b self) (notch_a self) [] (Some zn))
    as [[w zn1] | e2] eqn:Hn; run_stages; [| reflexivity].
  destruct (stage_nil _ _ _ _ _ Hn) as [-> ->]. reflexivity.
Qed.

Lemma stages_seeded (self : engine R) (x y : list R) (zb zn : list R)
    (s : local_state) :
  local_try [local_apply_bandpass self; local_apply_notch self]
    (x, (Some zb, Some zn)) = (y, s) ->
  exists zb' zn', s = (Some zb', Some zn').
Proof.
  cbn [bind local_try local_apply_bandpass local_apply_notch stage].
  destruct (lfilter (bandpass_b self) (bandpass_a self) x zb)
    as [[y1 zb1] | e1];
    cbn [bind local_try local_apply_bandpass local_apply_notch stage].
  - destruct (lfilter (notch_b self) (notch_a self) y1 zn)
      as [[w zn1] | e2]; cbn [bind]; intros Hr; inversion Hr; eauto.
  - intros Hr. inversion Hr. eauto.
Qed.

Lemma block_seeded (self : engine R) (x : list R) (zb zn : list R) :
  local_try (local_block self) (x, (Some zb, Some zn))
  = local_try [local_apply_bandpass self; local_apply_notch self]
      (x, (Some zb, Some zn)).
Proof. reflexivity. Qed.

Lemma block_nil (self : engine R) (s : local_state) :
  local_try (local_block self) ([], s) = ([], s).
Proof.
  destruct s as [[zb |] [zn |]]; try reflexivity.
  rewrite block_seeded. apply stages_nil.
Qed.

Lemma block_cons (self : engine R) (x0 : R) (t : list R) (s : local_state) :
  exists zb zn,
    forall t',
      local_try (local_block self) (x0 :: t', s)
      = local_try [local_apply_bandpass self; local_apply_notch self]
          (x0 :: t', (Some zb, Some zn)).
Proof.
  destruct s as [[zb |] [zn |]]; eexists; eexists; intros t'; reflexivity.
Qed.

(** One channel, two chunks: the block run on the first chunk and then on
    the second, from the state the first run left, gives the outputs and the
    state of one run on the whole row. *)
Lemma block_app (self : engine R) (x1 x2 : list R) (s : local_state) :
  local_try (local_block self) (x1 ++ x2, s)
  = let '(y1, s1) := local_try (local_block self) (x1, s) in
    let '(y2, s2) := local_try (local_block self) (x2, s1) in
    (y1 ++ y2, s2).
Proof.
  destruct x1 as [| x0 t].
  - rewrite block_nil. cbn [app].
    destruct (local_try (local_block self) (x2, s)); reflexivity.
  - destruct (block_cons self x0 t s) as (zb & zn & Hseed).
    cbn [app]. rewrite !Hseed.
    change (x0 :: t ++ x2) with ((x0 :: t) ++ x2). rewrite stages_app.
    unfold local_state in *.
    destruct (local_try [local_apply_bandpass self; local_apply_notch self]
                (x0 :: t, (Some zb, Some zn))) as [y1 s1] eqn:H1.
    destruct (stages_seeded _ _ _ _ _ _ H1) as (zb1 & zn1 & ->).
    rewrite block_seeded. reflexivity.
Qed.

Lemma block_length (self : engine R) (x : list R) (s : local_state) :
  length (fst (local_try (local_block self) (x, s))) = length x.
Proof.
  destruct x as [| x0 t]; [rewrite block_nil; reflexivity |].
  destruct (block_cons self x0 t s) as (zb & zn & Hseed).
  rewrite Hseed. apply stages_length.
Qed.

End ChannelView.

Section EngineView.
Context {R : Type} `{Float R}.

Lemma view_put (i : nat) (s : local_state) (self : engine R) :
  view i (put i s self) = s.
Proof.
  destruct s as [zb zn]. unfold view, put. cbn.
  rewrite !lookup_partial_alter_eq. reflexivity.
Qed.

Lemma view_put_ne (i j : nat) (s : local_state) (self : engine R) :
  i <> j -> view j (put i s self) = view j self.
Proof.
  intros Hne. unfold view, put. cbn.
  rewrite !lookup_partial_alter_ne by exact Hne. reflexivity.
Qed.

Lemma set_states_id (self : engine R) :
  set_notch_zi (notch_zi self) (set_bandpass_zi (bandpass_zi self) self) = self.
Proof. destruct self. reflexivity. Qed.

Lemma put_view (i : nat) (self : engine R) : put i (view i self) self = self.
Proof.
  unfold put, view. cbn [fst snd]. rewrite !partial_alter_self.
  apply set_states_id.
Qed.

Lemma put_put (i : nat) (s s' : local_state) (self : engine R) :
  put i s' (put i s self) = put i s' self.
Proof.
  unfold put. cbn.
  rewrite !partial_alter_partial_alter_eq. reflexivity.
Qed.

Lemma seed_bandpass_view (i : nat) (x : list R) (self : engine R) :
  seed_bandpass i (x, self) = lifted i self (local_seed_bandpass self (x, view i self)).
Proof.
  pose proof (put_view i self) as Hpv.
  unfold seed_bandpass, local_seed_bandpass, view, seed in *.
  destruct (bandpass_zi self !! i) as [zb |] eqn:Hb; cbn [bind lifted].
  - rewrite Hpv. reflexivity.
  - destruct x as [| x0 t]; cbn [bind lifted]; [reflexivity |].
    unfold put. cbn [fst snd]. rewrite partial_alter_self.
    destruct self; reflexivity.
Qed.

Lemma seed_notch_view (i : nat) (x : list R) (self : engine R) :
  seed_notch i (x, self) = lifted i self (local_seed_notch self (x, view i self)).
Proof.
  pose proof (put_view i self) as Hpv.
  unfold seed_notch, local_seed_notch, view, seed in *.
  destruct (notch_zi self !! i) as [zn |] eqn:Hn; cbn [bind lifted].
  - rewrite Hpv. reflexivity.
  - destruct x as [| x0 t]; cbn [bind lifted]; [reflexivity |].
    unfold put. cbn [fst snd]. rewrite partial_alter_self.
    destruct self; reflexivity.
Qed.

Lemma apply_bandpass_view (i : nat) (x : list R) (self : engine R) :
  apply_bandpass i (x, self)
  = lifted i self (local_apply_bandpass self (x, view i self)).
Proof.
  unfold apply_bandpass, local_apply_bandpass, view, stage.
  destruct (bandpass_zi self !! i) as [zb |]; cbn [bind lifted]; [| reflexivity].
  destruct (lfilter (bandpass_b self) (bandpass_a self) x zb) as [[y zf] | e];
    cbn [bind lifted]; [| reflexivity].
  unfold put. cbn [fst snd]. rewrite partial_alter_self.
  destruct self; reflexivity.
Qed.

Lemma apply_notch_view (i : nat) (x : list R) (self : engine R) :
  apply_notch i (x, self)
  = lifted i self (local_apply_notch self (x, view i self)).
Proof.
  unfold apply_notch, local_apply_notch, view, stage.
  destruct (notch_zi self !! i) as [zn |]; cbn [bind lifted]; [| reflexivity].
  destruct (lfilter (notch_b self) (notch_a self) x zn) as [[y zf] | e];
    cbn [bind lifted]; [| reflexivity].
  unfold put. cbn [fst snd]. rewrite partial_alter_self.
  destruct self; reflexivity.
Qed.

End EngineView.

Section PipelineFacts.
Context {R : Type} `{Float R}.

(** The whole [try] block, seen from its channel. *)
Lemma try_pass_view (i : nat) (x : list R) (self : engine R) :
  try_pass (filter_block i) (x, self)
  = let '(y, s) := local_try (local_block self) (x, view i self) in
    (y, put i s self).
Proof.
  unfold filter_block, local_block. cbn [try_pass local_try].
  rewrite seed_bandpass_view.
  destruct (local_seed_bandpass self (x, view i self)) as [[y1 s1] | e1];
    cbn [lifted]; [| rewrite put_view; reflexivity].
  rewrite seed_notch_view, view_put.
  change (local_seed_notch (put i s1 self)) with (local_seed_notch self).
  destruct (local_seed_notch self (y1, s1)) as [[y2 s2] | e2];
    cbn [lifted]; [| reflexivity].
  rewrite put_put, apply_bandpass_view, view_put.
  change (local_apply_bandpass (put i s2 self)) with (local_apply_bandpass self).
  destruct (local_apply_bandpass self (y2, s2)) as [[y3 s3] | e3];
    cbn [lifted]; [| reflexivity].
  rewrite put_put, apply_notch_view, view_put.
  change (local_apply_notch (put i s3 self)) with (local_apply_notch self).
  destruct (local_apply_notch self (y3, s3)) as [[y4 s4] | e4];
    cbn [lifted]; [| reflexivity].
  rewrite put_put. reflexivity.
Qed.


Lemma local_channel_app (self : engine R) (x1 x2 : list R) (s : local_state) :
  local_channel self (x1 ++ x2) s
  = let '(y1, s1) := local_channel self x1 s in
    let '(y2, s2) := local_channel self x2 s1 in
    (y1 ++ y2, s2).
Proof.
  unfold local_channel.
  destruct (SCIPY_AVAILABLE self && filter_coeffs_valid self);
    [apply block_app | reflexivity].
Qed.

Lemma scaled_length (self : engine R) (x : list R) :
  length (scaled self x) = length x.
Proof. unfold scaled. apply length_map. Qed.

Lemma scaled_app (self : engine R) (x1 x2 : list R) :
  scaled self (x1 ++ x2) = scaled self x1 ++ scaled self x2.
Proof. unfold scaled. apply map_app. Qed.

(** The loop body of one channel never raises: it returns the scaled output
    of the channel's filter part and writes back the channel's state pair. *)
Lemma process_channel_view (i : nat) (x zeros : list R) (self : engine R) :
  length zeros = length x ->
  process_channel i x zeros self
  = Returned (scaled self (fst (local_channel self x (view i self))),
              put i (snd (local_channel self x (view i self))) self).
Proof.
  intros Hz. unfold process_channel, local_channel.
  destruct (SCIPY_AVAILABLE self && filter_coeffs_valid self) eqn:Hon.
  - rewrite try_pass_view.
    pose proof (block_length self x (view i self)) as Hlen.
    destruct (local_try (local_block self) (x, view i self)) as [y s].
    cbn [fst snd] in *.
    change (scaled (put i s self) y) with (scaled self y).
    unfold assign_row. rewrite scaled_length, Hlen, Hz, Nat.eqb_refl.
    reflexivity.
  - cbn [fst snd]. unfold assign_row.
    rewrite scaled_length, Hz, Nat.eqb_refl. cbn [bind].
    rewrite put_view. reflexivity.
Qed.

(** The loop over the channels: it never raises; output row [j] and the
    final state entries of channel [i0 + j] are those of that channel's own
    filter part, run from the entries the engine held at the start; no other
    entry of the state dictionaries changes, nor any other attribute. *)
Lemma process_rows_view (data_rows : list (list R)) :
  forall (i0 : nat) (self : engine R),
  exists outs bz nz,
    process_rows i0 data_rows self
    = Returned (outs, set_notch_zi nz (set_bandpass_zi bz self))
    /\ length outs = length data_rows
    /\ (forall j x, data_rows !! j = Some x ->
          outs !! j
          = Some (scaled self (fst (local_channel self x (view (i0 + j) self))))
          /\ (bz !! (i0 + j)%nat, nz !! (i0 + j)%nat)
             = snd (local_channel self x (view (i0 + j) self)))
    /\ (forall i, (i < i0 \/ i0 + length data_rows <= i)%nat ->
          bz !! i = bandpass_zi self !! i /\ nz !! i = notch_zi self !! i).
Proof.
  induction data_rows as [| x rest IH]; intros i0 self.
  - exists [], (bandpass_zi self), (notch_zi self). cbn [process_rows].
    rewrite set_states_id. split; [reflexivity |]. split; [reflexivity |].
    split; [intros j x Hj; discriminate | intros i _; split; reflexivity].
  - cbn [process_rows].
    rewrite process_channel_view by apply length_map. cbn [bind].
    destruct (local_channel self x (view i0 self)) as [y s] eqn:Hch.
    cbn [fst snd].
    destruct (IH (S i0) (put i0 s self)) as (outs & bz & nz & Hrun & Hlen & Hrows & Hframe).
    rewrite Hrun. cbn [bind].
    exists (scaled self y :: outs), bz, nz.
    split; [reflexivity |]. split; [cbn; lia |]. split.
    + intros [| j] x' Hj.
      * cbn in Hj. inversion Hj; subst x'. rewrite Nat.add_0_r, Hch. cbn [fst snd].
        split; [reflexivity |].
        destruct (Hframe i0 ltac:(left; lia)) as [Hb Hn].
        rewrite Hb, Hn. fold (view i0 (put i0 s self)). apply view_put.
      * cbn in Hj. destruct (Hrows j x' Hj) as [Hout Hst].
        replace (i0 + S j)%nat with (S i0 + j)%nat by lia.
        rewrite (view_put_ne i0 (S i0 + j)) in Hout, Hst by lia.
        split; [exact Hout | exact Hst].
    + intros i Hi. cbn [length] in Hi.
      destruct (Hframe i ltac:(lia)) as [Hb Hn].
      assert (Hne : i0 <> i) by lia.
      pose proof (view_put_ne i0 i s self Hne) as Hv. unfold view in Hv.
      injection Hv as Hvb Hvn.
      rewrite Hb, Hn. split; [exact Hvb | exact Hvn].
Qed.

End PipelineFacts.

Section PipelineTheorems.
Context {R : Type} `{Float R}.

Lemma row_lookup (a : array2 R) (i : nat) (x : list R) :
  rows a !! i = Some x -> row i a = x.
Proof. intros Hx. unfold row. apply nth_lookup_Some. exact Hx. Qed.

Lemma states_unchanged (self : engine R) (bz nz : gmap nat (list R)) :
  (forall i, bz !! i = bandpass_zi self !! i /\ nz !! i = notch_zi self !! i) ->
  set_notch_zi nz (set_bandpass_zi bz self) = self.
Proof.
  intros Hsame.
  assert (Hb : bz = bandpass_zi self) by (apply map_eq; intros i; apply Hsame).
  assert (Hn : nz = notch_zi self) by (apply map_eq; intros i; apply Hsame).
  subst bz nz. apply set_states_id.
Qed.


(** C1: filtering a signal as one chunk, or as two consecutive chunks with
    the engine's per-channel filter states carried from the first call to
    the second, gives the same samples in every channel, at every position,
    and leaves the same engine.  The sample arithmetic is arbitrary, so the
    equality is exact for floating-point samples as well. *)
Theorem filter_continuity (self : engine R) (data : array2 R) (k : nat) :
  process_signal self data
  = bind (process_signal self (cols_to k data))
         (fun '(out1, self1) =>
            bind (process_signal self1 (cols_from k data))
                 (fun '(out2, self2) => Returned (hstack out1 out2, self2))).
Proof.
  destruct (process_rows_view (rows data) 0%nat self)
    as (outs & bz & nz & Hrun & Hlen & Hrows & Hframe).
  destruct (process_rows_view (rows (cols_to k data)) 0%nat self)
    as (outs1 & bz1 & nz1 & Hrun1 & Hlen1 & Hrows1 & Hframe1).
  destruct (process_rows_view (rows (cols_from k data)) 0%nat
              (set_notch_zi nz1 (set_bandpass_zi bz1 self)))
    as (outs2 & bz2 & nz2 & Hrun2 & Hlen2 & Hrows2 & Hframe2).
  unfold process_signal. rewrite Hrun, Hrun1. cbn [bind]. rewrite Hrun2. cbn [bind].
  change (set_notch_zi nz2 (set_bandpass_zi bz2
            (set_notch_zi nz1 (set_bandpass_zi bz1 self))))
    with (set_notch_zi nz2 (set_bandpass_zi bz2 self)).
  cbn [cols_to cols_from rows ncols] in *.
  change (map (firstn k) (rows data)) with (firstn k <$> rows data) in *.
  change (map (slice_from k) (rows data)) with (skipn k <$> rows data) in *.
  rewrite length_fmap in *.
  assert (Hsplit : forall j x, rows data !! j = Some x ->
            local_channel self x (view j self)
            = (fst (local_channel self (firstn k x) (view j self))
                 ++ fst (local_channel self (skipn k x) (bz1 !! j, nz1 !! j)),
               (bz2 !! j, nz2 !! j))
            /\ outs1 !! j = Some (scaled self (fst (local_channel self (firstn k x)
                                                     (view j self))))
            /\ outs2 !! j = Some (scaled self (fst (local_channel self (skipn k x)
                                                     (bz1 !! j, nz1 !! j))))).
  { intros j x Hx.
    assert (Hx1 : (firstn k <$> rows data) !! j = Some (firstn k x))
      by (rewrite list_lookup_fmap, Hx; reflexivity).
    assert (Hx2 : (skipn k <$> rows data) !! j = Some (skipn k x))
      by (rewrite list_lookup_fmap, Hx; reflexivity).
    destruct (Hrows1 j _ Hx1) as [Hout1 Hst1].
    destruct (Hrows2 j _ Hx2) as [Hout2 Hst2].
    cbn [Nat.add] in *.
    change (local_channel (set_notch_zi nz1 (set_bandpass_zi bz1 self)))
      with (local_channel self) in *.
    change (scaled (set_notch_zi nz1 (set_bandpass_zi bz1 self)))
      with (scaled self) in *.
    change (view j (set_notch_zi nz1 (set_bandpass_zi bz1 self)))
      with (bz1 !! j, nz1 !! j) in *.
    rewrite <- (take_drop k x) at 1. rewrite local_channel_app.
    rewrite Hst1 in Hout2, Hst2 |- *.
    destruct (local_channel self (firstn k x) (view j self)) as [y1 s1].
    cbn [fst snd] in *.
    destruct (local_channel self (skipn k x) s1) as [y2 s2].
    cbn [fst snd] in *. rewrite Hst2.
    split; [reflexivity |]. split; assumption. }
  f_equal. f_equal.
  - unfold hstack. cbn [ncols rows]. f_equal; [lia |].
    apply list_eq. intros j. rewrite lookup_zip_with.
    destruct (rows data !! j) as [x |] eqn:Hx.
    + destruct (Hrows j x Hx) as [Hout _]. cbn [Nat.add] in Hout.
      destruct (Hsplit j x Hx) as (Hwhole & Hout1 & Hout2).
      rewrite Hout, Hout1, Hout2, Hwhole. cbn -[scaled]. rewrite scaled_app. reflexivity.
    + apply lookup_ge_None in Hx.
      rewrite (proj2 (lookup_ge_None outs j)) by lia.
      rewrite (proj2 (lookup_ge_None outs1 j)) by lia. reflexivity.
  - assert (Hmaps : forall i, bz !! i = bz2 !! i /\ nz !! i = nz2 !! i).
    { intros i. destruct (rows data !! i) as [x |] eqn:Hx.
      - destruct (Hrows i x Hx) as [_ Hst]. cbn [Nat.add] in Hst.
        destruct (Hsplit i x Hx) as (Hwhole & _ & _).
        rewrite Hwhole in Hst. cbn [snd] in Hst.
        injection Hst as Hb Hn. split; assumption.
      - apply lookup_ge_None in Hx.
        destruct (Hframe i ltac:(right; lia)) as [Hb Hn].
        destruct (Hframe1 i ltac:(right; lia)) as [Hb1 Hn1].
        destruct (Hframe2 i ltac:(right; lia)) as [Hb2 Hn2].
        cbn in Hb2, Hn2. rewrite Hb, Hn, Hb2, Hn2, Hb1, Hn1.
        split; reflexivity. }
    assert (Hb : bz = bz2) by (apply map_eq; intros i; apply Hmaps).
    assert (Hn : nz = nz2) by (apply map_eq; intros i; apply Hmaps).
    subst bz2 nz2. reflexivity.
Qed.

End PipelineTheorems.

Section FailureFacts.
Context {R : Type} `{Float R}.

Lemma seed_bandpass_data (i : nat) (x y : list R) (self self' : engine R) :
  seed_bandpass i (x, self) = Returned (y, self') ->
  y = x /\ bandpass_b self' = bandpass_b self /\ bandpass_a self' = bandpass_a self.
Proof.
  unfold seed_bandpass. destruct (bandpass_zi self !! i).
  - intros Hr. inversion Hr. repeat split.
  - destruct x; [discriminate |]. intros Hr. inversion Hr. repeat split.
Qed.

Lemma seed_notch_data (i : nat) (x y : list R) (self self' : engine R) :
  seed_notch i (x, self) = Returned (y, self') ->
  y = x /\ bandpass_b self' = bandpass_b self /\ bandpass_a self' = bandpass_a self.
Proof.
  unfold seed_notch. destruct (notch_zi self !! i).
  - intros Hr. inversion Hr. repeat split.
  - destruct x; [discriminate |]. intros Hr. inversion Hr. repeat split.
Qed.


(** A failure of the notch stage alone leaves the band-passed row in
    [channel_data]. *)
Lemma notch_failure_keeps_bandpassed (i : nat) (x : list R) (self : engine R) :
  try_raises (filter_block i) (x, self) = true ->
  try_raises [seed_bandpass i; seed_notch i; apply_bandpass i] (x, self) = false ->
  exists zb y zf,
    lfilter (bandpass_b self) (bandpass_a self) x zb = Returned (y, zf)
    /\ fst (try_pass (filter_block i) (x, self)) = y.
Proof.
  unfold filter_block. cbn [try_raises try_pass].
  destruct (seed_bandpass i (x, self)) as [[y1 e1] | ex1] eqn:H1; [| discriminate].
  destruct (seed_bandpass_data _ _ _ _ _ H1) as (-> & Hb1 & Ha1).
  destruct (seed_notch i (x, e1)) as [[y2 e2] | ex2] eqn:H2; [| discriminate].
  destruct (seed_notch_data _ _ _ _ _ H2) as (-> & Hb2 & Ha2).
  destruct (apply_bandpass i (x, e2)) as [[y3 e3] | ex3] eqn:H3; [| discriminate].
  destruct (apply_notch i (y3, e3)) as [[y4 e4] | ex4]; [discriminate |].
  intros _ _. unfold apply_bandpass in H3.
  destruct (bandpass_zi e2 !! i) as [zb |]; [| discriminate].
  rewrite Hb2, Ha2, Hb1, Ha1 in H3.
  destruct (lfilter (bandpass_b self) (bandpass_a self) x zb) as [[y zf] | ex] eqn:Hl;
    [| discriminate].
  cbn in H3. inversion H3; subst y3 e3.
  exists zb, y, zf. split; [exact Hl | reflexivity].
Qed.


End FailureFacts.




(** ** Live session: start, stop, warm-up and rolling buffer *)

Section SessionTheorems.
Context {R : Type} `{Float R}.

Lemma fill_nan_idempotent (buf : option (array2 R)) :
  fill_nan <$> (fill_nan <$> buf) = fill_nan <$> buf.
Proof.
  destruct buf as [a |]; [| reflexivity]. cbn. f_equal.
  unfold fill_nan. cbn [ncols rows]. f_equal.
  rewrite map_map. apply map_ext. intros r. rewrite map_map. reflexivity.
Qed.

(** C4 (amended): stopping a live session clears the activity flag (and
    [file_loaded]) and leaves the filter states, the FFT and band-power
    smoothing caches, the axis ceiling and the buffer contents as they were;
    they are cleared when the next session starts: that start empties the
    filter states and the smoothing caches, zeroes the ceiling, fills the
    buffer with the sentinel and re-arms the warm-up counter, so nothing of
    the stopped session reaches the next one. *)
Theorem stop_keeps_caches_until_restart (self : engine R) :
  streaming_active self = true ->
  let stopped := toggle_streaming_visualization self in
  let restarted := toggle_streaming_visualization stopped in
  streaming_active stopped = false
  /\ file_loaded stopped = false
  /\ bandpass_zi stopped = bandpass_zi self
  /\ notch_zi stopped = notch_zi self
  /\ smoothed_fft stopped = smoothed_fft self
  /\ smoothed_band_power stopped = smoothed_band_power self
  /\ band_power_y_max stopped = band_power_y_max self
  /\ stream_buffer stopped = stream_buffer self
  /\ streaming_active restarted = true
  /\ caches_cleared restarted
  /\ band_power_y_max restarted = f_zero
  /\ stream_buffer restarted = fill_nan <$> stream_buffer self
  /\ stream_warmup_remaining restarted = warmup_samples (sampling_rate self).
Proof.
  intros Hactive. unfold toggle_streaming_visualization.
  rewrite Hactive. cbn.
  repeat (split; [reflexivity |]).
  split; [| repeat (split; [reflexivity |]); reflexivity].
  unfold caches_cleared. cbn.
  repeat (split; [reflexivity |]).
  symmetry. apply fill_nan_idempotent.
Qed.

(** *** Warm-up gate *)






End SessionTheorems.

(** *** Rolling buffer *)

Section BufferTheorems.
Context {R : Type} `{Float R}.

Lemma map_fixed {A : Type} (f : A -> A) (l : list A) :
  Forall (fun x => f x = x) l -> map f l = l.
Proof.
  induction 1 as [| x l Hx _ IH]; cbn; [reflexivity |]. rewrite Hx, IH. reflexivity.
Qed.

Lemma cols_from_neg_full (a : array2 R) (k : nat) :
  rectangular a -> ncols a = k -> cols_from_neg k a = a.
Proof.
  destruct a as [n rs]. unfold rectangular, cols_from_neg. cbn [ncols rows].
  intros Hrect ->. f_equal.
  - destruct k; [reflexivity | apply Nat.min_id].
  - apply map_fixed. eapply Forall_impl; [exact Hrect |].
    intros r Hr. cbn beta in Hr. unfold slice_from_neg. destruct k; [reflexivity |].
    rewrite Hr, Nat.sub_diag. reflexivity.
Qed.

Lemma write_tail_zip (n : nat) (buf chunk : array2 R) :
  length (rows chunk) = length (rows buf) ->
  write_tail n buf chunk
  = Returned {| ncols := ncols buf;
                rows := zip_with (fun b p => slice_to_neg n b ++ p)
                                 (rows buf) (rows chunk) |}.
Proof.
  intros Hlen. unfold write_tail.
  destruct (rows chunk) as [| p [| q l]] eqn:Hps.
  - rewrite <- Hlen. reflexivity.
  - destruct (rows buf) as [| b [| b' bs]]; try discriminate. reflexivity.
  - rewrite Hlen, Nat.eqb_refl. reflexivity.
Qed.



(** After a resize the buffer has the new capacity (ten samples at least),
    and appending a chunk of exactly that many samples leaves the chunk as
    the buffer. *)
Lemma resize_then_append (self self' : engine R) (new_window_sec : Q) :
  resize_stream_buffer self new_window_sec = Returned self' ->
  exists buf,
    stream_buffer self' = Some buf
    /\ ncols buf = new_buf_size (sampling_rate self) new_window_sec
    /\ (10 <= ncols buf)%nat
    /\ forall chunk,
         rectangular chunk -> ncols chunk = ncols buf ->
         roll_buffer buf chunk = (chunk, None).
Proof.
  unfold resize_stream_buffer.
  destruct (stream_buffer self) as [old |]; [| discriminate].
  set (size := new_buf_size (sampling_rate self) new_window_sec).
  assert (Hsize : (10 <= size)%nat).
  { unfold size, new_buf_size.
    destruct (py_int (inject_Z (sampling_rate self) * new_window_sec) <? 10) eqn:Hlt;
      [| apply Z.ltb_ge in Hlt]; lia. }
  unfold copy_right.
  destruct (Nat.min (ncols old) size) as [| copy_len]; [discriminate |].
  unfold write_tail. cbn [ncols full_nan].
  assert (Hroll : forall (buf chunk : array2 R),
            ncols buf = size -> rectangular chunk -> ncols chunk = ncols buf ->
            roll_buffer buf chunk = (chunk, None)).
  { intros buf chunk Hb Hrc Heq. unfold roll_buffer.
    rewrite Heq, Hb. destruct (0 <? size)%nat eqn:Hpos;
      [| apply Nat.ltb_ge in Hpos; lia].
    rewrite Nat.leb_refl, <- Hb, cols_from_neg_full by (assumption || lia).
    reflexivity. }
  destruct (rows (cols_from_neg (S copy_len) old)) as [| p [| q l]];
    cbn [bind].
  - destruct (Nat.eqb _ _); [| discriminate]. cbn [bind].
    intros Hr. inversion Hr; subst self'. eexists. split; [reflexivity |].
    cbn [ncols]. split; [reflexivity |]. split; [exact Hsize |].
    intros chunk Hrc Heq. apply Hroll; [reflexivity | exact Hrc | exact Heq].
  - intros Hr. inversion Hr; subst self'. eexists. split; [reflexivity |].
    cbn [ncols]. split; [reflexivity |]. split; [exact Hsize |].
    intros chunk Hrc Heq. apply Hroll; [reflexivity | exact Hrc | exact Heq].
  - destruct (Nat.eqb _ _); [| discriminate]. cbn [bind].
    intros Hr. inversion Hr; subst self'. eexists. split; [reflexivity |].
    cbn [ncols]. split; [reflexivity |]. split; [exact Hsize |].
    intros chunk Hrc Heq. apply Hroll; [reflexivity | exact Hrc | exact Heq].
Qed.

End BufferTheorems.

Section TickFacts.
Context {R : Type} `{Float R}.

(** One timer tick with data, during a session: the chunk is processed, the
    warm-up gate sets the counter, and the buffer is rolled by what the gate
    passes on. *)
Lemma update_stream_data_tick (self : engine R) (eeg_data buf : array2 R) :
  board_connected self = true ->
  streaming_active self = true ->
  ncols eeg_data <> 0%nat ->
  stream_buffer self = Some buf ->
  exists processed self1,
    process_signal self eeg_data = Returned (processed, self1)
    /\ stream_warmup_remaining (fst (update_stream_data self eeg_data))
       = fst (warmup_discard (stream_warmup_remaining self) processed)
    /\ stream_buffer (fst (update_stream_data self eeg_data))
       = Some match snd (warmup_discard (stream_warmup_remaining self) processed) with
              | Some kept => fst (roll_buffer buf kept)
              | None => buf
              end.
Proof.
  intros Hboard Hactive Hcols Hbuf.
  destruct (process_rows_view (rows eeg_data) 0%nat self)
    as (outs & bz & nz & Hrun & _).
  unfold update_stream_data, process_signal.
  rewrite Hboard, Hactive, Hrun. cbn [negb orb bind].
  destruct (Nat.eqb (ncols eeg_data) 0) eqn:Hz; [apply Nat.eqb_eq in Hz; lia |].
  eexists. eexists. split; [reflexivity |].
  cbn [stream_warmup_remaining set_notch_zi set_bandpass_zi].
  destruct (warmup_discard (stream_warmup_remaining self)
              {| ncols := ncols eeg_data; rows := outs |}) as [remaining [kept |]];
    cbn [fst snd].
  - destruct (0 <? ncols kept)%nat eqn:Hkept.
    + change (stream_buffer (set_stream_warmup_remaining remaining
                (set_notch_zi nz (set_bandpass_zi bz self))))
        with (stream_buffer self).
      rewrite Hbuf.
      destruct (roll_buffer buf kept) as [buf' [e |]]; cbn [fst].
      * split; reflexivity.
      * destruct (fft_update_interval _ <=? _); split; reflexivity.
    + cbn. rewrite Hbuf. split; [reflexivity |].
      unfold roll_buffer. rewrite Hkept. reflexivity.
  - cbn. rewrite Hbuf. split; reflexivity.
Qed.

End TickFacts.

(** ** The session theorems on concrete engines *)

(** C4 (as stated, refuted): stopping [live_engine] leaves its band-pass
    state dictionary (and its other caches) filled. *)
Lemma stop_clears_caches_counterexample :
  ~ (forall self : engine cell,
        streaming_active self = true ->
        streaming_active (toggle_streaming_visualization self) = false
        /\ caches_cleared (toggle_streaming_visualization self)).
Proof.
  intros Hclaim.
  destruct (Hclaim Examples.live_engine eq_refl) as [_ [Hzi _]].
  apply (f_equal (fun m : gmap nat (list cell) => m !! 0%nat)) in Hzi.
  vm_compute in Hzi. discriminate Hzi.
Qed.

Lemma stop_keeps_caches_until_restart_witness :
  streaming_active (toggle_streaming_visualization Examples.live_engine) = false
  /\ bandpass_zi (toggle_streaming_visualization Examples.live_engine)
     = bandpass_zi Examples.live_engine
  /\ caches_cleared
       (toggle_streaming_visualization
          (toggle_streaming_visualization Examples.live_engine)).
Proof.
  destruct (stop_keeps_caches_until_restart Examples.live_engine eq_refl)
    as (Hflag & _ & Hzi & _ & _ & _ & _ & _ & _ & Hclear & _).
  split; [exact Hflag |]. split; [exact Hzi | exact Hclear].
Defined.





(** * Further properties of the engine *)

(** ** Window navigation *)

Lemma recalculate_windows_facts (self w : Segmenter.windows)
    (window_size_sec : Q) (sampling_rate total_samples : Z) :
  (0 < window_size_sec)%Q -> 0 < sampling_rate ->
  Segmenter.recalculate_windows self window_size_sec sampling_rate total_samples
  = (w, None) ->
  0 < Segmenter.stride w
  /\ 5 * Segmenter.stride w <= 4 * Segmenter.window_size_samples w
  /\ Segmenter.num_windows w
     = Z.max 1 ((total_samples - Segmenter.window_size_samples w)
                / Segmenter.stride w + 1).
Proof.
  intros Hw Hsr. unfold Segmenter.recalculate_windows.
  assert (Hprod : (0 <= window_size_sec * inject_Z sampling_rate)%Q).
  { apply Qmult_le_0_compat; [apply Qlt_le_weak; exact Hw |].
    unfold Qle. cbn. lia. }
  pose proof (py_int_nonneg _ Hprod) as Hwss.
  fold (Segmenter.calc_window_size_samples window_size_sec sampling_rate) in Hwss.
  pose proof (calc_stride_bounds _ Hwss) as Hst.
  destruct (Z.eqb_spec
              (Segmenter.calc_stride
                 (Segmenter.calc_window_size_samples window_size_sec sampling_rate)) 0)
    as [Hz | Hnz]; [discriminate |].
  intros Hrun. inversion Hrun; subst w. cbn. repeat split; lia.
Qed.

Lemma navigable_window_shape (w : Segmenter.windows) (total_samples idx : Z) :
  0 < Segmenter.stride w ->
  5 * Segmenter.stride w <= 4 * Segmenter.window_size_samples w ->
  Segmenter.num_windows w
  = Z.max 1 ((total_samples - Segmenter.window_size_samples w)
             / Segmenter.stride w + 1) ->
  0 <= total_samples ->
  0 <= idx < Segmenter.num_windows w ->
  fst (Navigation.get_window_bounds w total_samples idx)
  = idx * Segmenter.stride w
  /\ snd (Navigation.get_window_bounds w total_samples idx)
     - fst (Navigation.get_window_bounds w total_samples idx)
     = Z.min (Segmenter.window_size_samples w) total_samples
  /\ snd (Navigation.get_window_bounds w total_samples idx) <= total_samples.
Proof.
  intros Hst Hov Hn Htotal Hidx.
  unfold Navigation.get_window_bounds. cbn [fst snd].
  set (st := Segmenter.stride w) in *.
  set (wss := Segmenter.window_size_samples w) in *.
  rewrite Hn in Hidx.
  pose proof (Z.mul_div_le (total_samples - wss) st Hst) as Hdiv.
  destruct (Z.le_gt_cases wss total_samples) as [Hfull | Hshort].
  - assert (Hq : 0 <= (total_samples - wss) / st) by (apply Z.div_pos; lia).
    assert (Hle : idx * st <= total_samples - wss) by nia.
    lia.
  - assert (Hq : (total_samples - wss) / st < 0)
      by (apply Z.div_lt_upper_bound; lia).
    assert (Hz : idx = 0) by lia. subst idx. lia.
Qed.

(** X1: every window that can be navigated to lies inside the recording, starts
    at [index * stride] and holds exactly [min(window_size_samples,
    total_samples)] samples: no navigable window is cut short at the end of
    the recording. *)
Theorem navigable_windows_full_length (self w : Segmenter.windows)
    (window_size_sec : Q) (sampling_rate total_samples window_idx : Z) :
  (0 < window_size_sec)%Q -> 0 < sampling_rate -> 0 <= total_samples ->
  Segmenter.recalculate_windows self window_size_sec sampling_rate total_samples
  = (w, None) ->
  0 <= window_idx < Segmenter.num_windows w ->
  1 <= Segmenter.num_windows w
  /\ fst (Navigation.get_window_bounds w total_samples window_idx)
     = window_idx * Segmenter.stride w
  /\ 0 <= fst (Navigation.get_window_bounds w total_samples window_idx)
  /\ snd (Navigation.get_window_bounds w total_samples window_idx) <= total_samples
  /\ snd (Navigation.get_window_bounds w total_samples window_idx)
     - fst (Navigation.get_window_bounds w total_samples window_idx)
     = Z.min (Segmenter.window_size_samples w) total_samples.
Proof.
  intros Hw Hsr Htotal Hrun Hidx.
  destruct (recalculate_windows_facts _ _ _ _ _ Hw Hsr Hrun) as (Hst & Hov & Hn).
  destruct (navigable_window_shape w total_samples window_idx Hst Hov Hn
              Htotal Hidx) as (Hfst & Hlen & Hend).
  repeat split; lia.
Qed.

Lemma navigable_windows_full_length_witness :
  1 <= Segmenter.num_windows Examples.windows_5s_100hz
  /\ fst (Navigation.get_window_bounds Examples.windows_5s_100hz 1000 1) = 400
  /\ 0 <= fst (Navigation.get_window_bounds Examples.windows_5s_100hz 1000 1)
  /\ snd (Navigation.get_window_bounds Examples.windows_5s_100hz 1000 1) <= 1000
  /\ snd (Navigation.get_window_bounds Examples.windows_5s_100hz 1000 1)
     - fst (Navigation.get_window_bounds Examples.windows_5s_100hz 1000 1) = 500.
Proof.
  apply (navigable_windows_full_length Examples.no_windows
           Examples.windows_5s_100hz 5 100 1000 1);
    [reflexivity | lia | lia | reflexivity | cbn; lia].
Defined.

(** X2: for a recording at least one window long, the windows leave no gap (a
    sample before the end of the last window lies in some window), the last
    window ends less than one stride before the end of the recording, and
    the samples after it belong to no window. *)
Theorem windows_cover_all_but_tail (self w : Segmenter.windows)
    (window_size_sec : Q) (sampling_rate total_samples : Z) :
  (0 < window_size_sec)%Q -> 0 < sampling_rate ->
  Segmenter.recalculate_windows self window_size_sec sampling_rate total_samples
  = (w, None) ->
  Segmenter.window_size_samples w <= total_samples ->
  let last_end :=
    snd (Navigation.get_window_bounds w total_samples (Segmenter.num_windows w - 1)) in
  total_samples - Segmenter.stride w < last_end <= total_samples
  /\ (forall s, 0 <= s < last_end ->
        exists idx,
          0 <= idx < Segmenter.num_windows w
          /\ fst (Navigation.get_window_bounds w total_samples idx) <= s
             < snd (Navigation.get_window_bounds w total_samples idx))
  /\ (forall s idx,
        last_end <= s -> 0 <= idx < Segmenter.num_windows w ->
        ~ (fst (Navigation.get_window_bounds w total_samples idx) <= s
           < snd (Navigation.get_window_bounds w total_samples idx))).
Proof.
  intros Hw Hsr Hrun Hfull.
  destruct (recalculate_windows_facts _ _ _ _ _ Hw Hsr Hrun) as (Hst & Hov & Hn).
  unfold Navigation.get_window_bounds. cbn [fst snd].
  set (st := Segmenter.stride w) in *.
  set (wss := Segmenter.window_size_samples w) in *.
  rewrite Hn.
  pose proof (Z.div_mod (total_samples - wss) st ltac:(lia)) as Hdm.
  pose proof (Z.mod_pos_bound (total_samples - wss) st Hst) as Hr.
  assert (Hq : 0 <= (total_samples - wss) / st) by (apply Z.div_pos; lia).
  set (q := (total_samples - wss) / st) in *.
  replace (Z.max 1 (q + 1) - 1) with q by lia.
  split; [nia |]. split.
  - intros s Hs.
    pose proof (Z.div_mod s st ltac:(lia)) as Hsdm.
    pose proof (Z.mod_pos_bound s st Hst) as Hsr'.
    assert (Hsq : 0 <= s / st) by (apply Z.div_pos; lia).
    exists (Z.min (s / st) q). split; [lia |].
    destruct (Z.le_gt_cases (s / st) q) as [Hin | Hout].
    + rewrite Z.min_l by lia. nia.
    + rewrite Z.min_r by lia. nia.
  - intros s idx Hs Hidx. nia.
Qed.

Lemma windows_cover_all_but_tail_witness :
  snd (Navigation.get_window_bounds Examples.windows_5s_100hz 1000 1) <= 1000
  /\ ~ (fst (Navigation.get_window_bounds Examples.windows_5s_100hz 1000 1) <= 950
        < snd (Navigation.get_window_bounds Examples.windows_5s_100hz 1000 1)).
Proof.
  destruct (windows_cover_all_but_tail Examples.no_windows
              Examples.windows_5s_100hz 5 100 1000
              eq_refl eq_refl eq_refl ltac:(cbn; lia))
    as (Hend & _ & Htail).
  split; [apply Hend |].
  apply (Htail 950 1); cbn; lia.
Defined.

Lemma py_int_le_integer (x : Q) (k : Z) :
  (x <= inject_Z k)%Q -> 0 <= k -> py_int x <= k.
Proof.
  intros Hx Hk. destruct (Qlt_le_dec x 0) as [Hneg | Hpos].
  - destruct x as [n d]. unfold py_int, Qlt in *. cbn in *.
    rewrite Z.mul_1_r in Hneg.
    replace n with (- (- n)) by lia. rewrite Z.quot_opp_l by lia.
    pose proof (Z.quot_pos (- n) (Z.pos d) ltac:(lia) ltac:(lia)). lia.
  - destruct (py_int_bounds x Hpos) as [Hlo _].
    rewrite Zle_Qle. exact (Qle_trans _ _ _ Hlo Hx).
Qed.

Lemma time_at_mul (sampling_rate k : Z) :
  0 < sampling_rate ->
  (Navigation.time_at sampling_rate k * inject_Z sampling_rate == inject_Z k)%Q.
Proof.
  intros Hsr. unfold Navigation.time_at. field.
  intros H0. unfold Qeq in H0. cbn in H0. lia.
Qed.

Lemma time_at_le (sampling_rate i j : Z) :
  0 < sampling_rate -> i <= j ->
  (Navigation.time_at sampling_rate i <= Navigation.time_at sampling_rate j)%Q.
Proof.
  intros Hsr Hij. unfold Navigation.time_at, Qdiv.
  apply Qmult_le_compat_r; [rewrite <- Zle_Qle; exact Hij |].
  apply Qinv_le_0_compat. unfold Qle. cbn. lia.
Qed.

Lemma full_time_axis_in (total_samples sampling_rate i : Z) :
  0 <= i < total_samples ->
  Navigation.full_time_axis_at total_samples sampling_rate i
  = Returned (Navigation.time_at sampling_rate i).
Proof.
  intros Hi. unfold Navigation.full_time_axis_at.
  destruct (Z.leb_spec 0 i); [| lia].
  destruct (Z.ltb_spec i total_samples); [| lia]. reflexivity.
Qed.

Lemma full_time_axis_out (total_samples sampling_rate i : Z) :
  0 <= total_samples <= i ->
  Navigation.full_time_axis_at total_samples sampling_rate i = Raised IndexError.
Proof.
  intros Hi. unfold Navigation.full_time_axis_at.
  destruct (Z.ltb_spec i total_samples); [lia |].
  destruct (Z.ltb_spec i 0); [lia |].
  rewrite !andb_false_r. reflexivity.
Qed.

Lemma full_time_axis_last (total_samples sampling_rate : Z) :
  1 <= total_samples ->
  Navigation.full_time_axis_at total_samples sampling_rate (-1)
  = Returned (Navigation.time_at sampling_rate (total_samples - 1)).
Proof.
  intros Ht. unfold Navigation.full_time_axis_at.
  destruct (Z.leb_spec (- total_samples) (-1)); [| lia]. reflexivity.
Qed.



(** X4: once the current window is clamped by [sync_navigation_controls],
    snapping the view to it reads the time axis inside its bounds (no
    [IndexError], no wrap-around through a negative index) and yields a
    range from the window's first to its last sample with
    [t_start <= t_end]; an in-range index is left alone by the clamp, and an
    index whose start lies at or beyond the end of the recording raises
    [IndexError]. *)
Theorem snap_to_clamped_window (self w : Segmenter.windows)
    (window_size_sec : Q) (sampling_rate total_samples current_window : Z) :
  (0 < window_size_sec)%Q -> 0 < sampling_rate -> 1 <= total_samples ->
  Segmenter.recalculate_windows self window_size_sec sampling_rate total_samples
  = (w, None) ->
  let value := Navigation.sync_navigation_controls w current_window in
  let first := value * Segmenter.stride w in
  let last := first + Z.min (Segmenter.window_size_samples w) total_samples - 1 in
  (0 <= current_window < Segmenter.num_windows w -> value = current_window)
  /\ 0 <= first <= last /\ last < total_samples
  /\ Navigation.window_time_range w total_samples sampling_rate value
     = Returned (Navigation.time_at sampling_rate first,
                 Navigation.time_at sampling_rate last)
  /\ (Navigation.time_at sampling_rate first
      <= Navigation.time_at sampling_rate last)%Q
  /\ (forall beyond, total_samples <= beyond * Segmenter.stride w ->
        Navigation.window_time_range w total_samples sampling_rate beyond
        = Raised IndexError).
Proof.
  intros Hw Hsr Htotal Hrun value first last.
  destruct (recalculate_windows_facts _ _ _ _ _ Hw Hsr Hrun) as (Hst & Hov & Hn).
  assert (Hvalue : 0 <= value < Segmenter.num_windows w).
  { unfold value, Navigation.sync_navigation_controls. lia. }
  destruct (navigable_window_shape w total_samples value Hst Hov Hn
              ltac:(lia) Hvalue) as (Hfst & Hlen & Hend).
  assert (Hwss : 2 <= Segmenter.window_size_samples w) by lia.
  split; [unfold value, Navigation.sync_navigation_controls; lia |].
  split; [unfold last, first; lia |]. split; [unfold last, first; lia |].
  split; [| split].
  - unfold Navigation.window_time_range.
    destruct (Navigation.get_window_bounds w total_samples value)
      as [start_sample end_sample] eqn:Hb.
    cbn [fst snd] in *.
    rewrite (full_time_axis_in total_samples sampling_rate start_sample) by lia.
    cbn [bind].
    rewrite Z.min_l by lia.
    rewrite (full_time_axis_in total_samples sampling_rate (end_sample - 1)) by lia.
    cbn [bind]. unfold last, first. repeat f_equal; lia.
  - apply time_at_le; [exact Hsr | unfold last, first; lia].
  - intros beyond Hbeyond. unfold Navigation.window_time_range,
      Navigation.get_window_bounds.
    rewrite full_time_axis_out by lia. reflexivity.
Qed.

Lemma snap_to_clamped_window_witness :
  Navigation.sync_navigation_controls Examples.windows_5s_100hz 7 = 1
  /\ Navigation.window_time_range Examples.windows_5s_100hz 1000 100 1
     = Returned (Navigation.time_at 100 400, Navigation.time_at 100 899)
  /\ Navigation.window_time_range Examples.windows_5s_100hz 1000 100 3
     = Raised IndexError.
Proof.
  destruct (snap_to_clamped_window Examples.no_windows
              Examples.windows_5s_100hz 5 100 1000 7
              eq_refl eq_refl ltac:(lia) eq_refl)
    as (_ & _ & _ & Hsnap & _ & Hout).
  split; [reflexivity |]. split; [exact Hsnap |].
  apply Hout. cbn. lia.
Defined.

Lemma py_min2_le_l (a b : Q) : (Navigation.py_min2 a b <= a)%Q.
Proof.
  unfold Navigation.py_min2. destruct (Bounds.Qgtb a b) eqn:E.
  - apply Qgtb_true in E. apply Qlt_le_weak. exact E.
  - apply Qle_refl.
Qed.

(** X5: on a non-empty recording the visible sample range is a pair
    [(start_idx, end_idx)] with [0 <= start_idx] and
    [end_idx <= total_samples - 1], whatever the view range: the slice
    [start_idx:end_idx] never holds the last sample of the recording.  On an
    empty recording the read of the last time stamp raises [IndexError]. *)
Theorem visible_range_stops_before_last_sample
    (total_samples sampling_rate : Z) (t_min t_max : Q) :
  0 < sampling_rate -> 0 <= total_samples ->
  match Navigation.get_visible_data_range total_samples sampling_rate t_min t_max with
  | Returned (start_idx, end_idx) =>
      1 <= total_samples /\ 0 <= start_idx /\ end_idx <= total_samples - 1
  | Raised e => total_samples = 0 /\ e = IndexError
  end.
Proof.
  intros Hsr Htotal. unfold Navigation.get_visible_data_range.
  destruct (Z.eq_dec total_samples 0) as [-> | Hne].
  - cbn. split; reflexivity.
  - rewrite full_time_axis_last by lia. cbn [bind].
    split; [lia |]. split; [lia |].
    apply Z.le_trans with
      (py_int (Navigation.py_min2
                 (Navigation.time_at sampling_rate (total_samples - 1))
                 (t_max + (t_max - t_min) * (2 # 10))
               * inject_Z sampling_rate)); [apply Z.le_min_r |].
    apply py_int_le_integer; [| lia].
    rewrite <- (time_at_mul sampling_rate (total_samples - 1) Hsr).
    apply Qmult_le_compat_r; [apply py_min2_le_l |].
    unfold Qle. cbn. lia.
Qed.

Lemma visible_range_stops_before_last_sample_witness :
  Navigation.get_visible_data_range 1000 100 8 12 = Returned (720, 999).
Proof.
  pose proof (visible_range_stops_before_last_sample 1000 100 8 12
                ltac:(lia) ltac:(lia)) as H.
  destruct (Navigation.get_visible_data_range 1000 100 8 12)
    as [[start_idx end_idx] | e] eqn:E; [| destruct H; discriminate].
  vm_compute in E. exact (eq_sym E).
Defined.

(** X6: on a non-empty recording an autoplay step always yields a view
    exactly [window_size_sec] wide; when the window is no longer than the
    recording the view lies inside [0, last time stamp]; and the playback
    position left behind is either the restart position
    [window_size_sec / 2] or lies more than half a window before the last
    time stamp. *)
Theorem autoplay_view_width_and_range
    (window_size_sec autoplay_speed autoplay_current_time elapsed : Q)
    (total_samples sampling_rate : Z) :
  1 <= total_samples -> 0 < sampling_rate ->
  let last := Navigation.time_at sampling_rate (total_samples - 1) in
  exists current t_start t_end,
    Navigation.autoplay_view window_size_sec autoplay_speed
      autoplay_current_time elapsed total_samples sampling_rate
    = Returned (current, t_start, t_end)
    /\ (t_end - t_start == window_size_sec)%Q
    /\ ((window_size_sec <= last)%Q -> (0 <= t_start)%Q /\ (t_end <= last)%Q)
    /\ ((current == window_size_sec / 2)%Q
        \/ (current < last - window_size_sec / 2)%Q).
Proof.
  intros Htotal Hsr last. unfold Navigation.autoplay_view.
  rewrite full_time_axis_last by lia. cbn [bind].
  rewrite full_time_axis_in by lia. cbn [bind].
  fold last.
  assert (Hfirst : (Navigation.time_at sampling_rate 0 == 0)%Q).
  { unfold Navigation.time_at, Qdiv. apply Qmult_0_l. }
  set (first := Navigation.time_at sampling_rate 0) in *.
  set (moved := (autoplay_current_time
                 + Navigation.py_min2 elapsed (1 # 10) * autoplay_speed)%Q).
  set (half := (window_size_sec / 2)%Q).
  assert (Hhalf : (half + half == window_size_sec)%Q) by (unfold half; field).
  destruct (Qle_bool (last - half) moved) eqn:Hwrap.
  - apply Qle_bool_iff in Hwrap.
    destruct (Bounds.Qgtb first (half - half)) eqn:Hlow.
    + apply Qgtb_true in Hlow. exfalso. lra.
    + destruct (Bounds.Qgtb (half + half) last) eqn:Hhigh.
      * apply Qgtb_true in Hhigh.
        do 3 eexists. split; [reflexivity |].
        split; [lra |]. split; [intros; lra | left; reflexivity].
      * apply Qgtb_false in Hhigh.
        do 3 eexists. split; [reflexivity |].
        split; [lra |]. split; [intros; lra | left; reflexivity].
  - assert (Hmoved : (moved < last - half)%Q).
    { apply Qnot_le_lt. intros Hle. apply Qle_bool_iff in Hle. congruence. }
    destruct (Bounds.Qgtb first (moved - half)) eqn:Hlow.
    + apply Qgtb_true in Hlow.
      destruct (Bounds.Qgtb (first + window_size_sec) last) eqn:Hhigh.
      * apply Qgtb_true in Hhigh.
        do 3 eexists. split; [reflexivity |].
        split; [lra |]. split; [intros; lra | right; exact Hmoved].
      * apply Qgtb_false in Hhigh.
        do 3 eexists. split; [reflexivity |].
        split; [lra |]. split; [intros; lra | right; exact Hmoved].
    + apply Qgtb_false in Hlow.
      destruct (Bounds.Qgtb (moved + half) last) eqn:Hhigh.
      * apply Qgtb_true in Hhigh.
        do 3 eexists. split; [reflexivity |].
        split; [lra |]. split; [intros; lra | right; exact Hmoved].
      * apply Qgtb_false in Hhigh.
        do 3 eexists. split; [reflexivity |].
        split; [lra |]. split; [intros; lra | right; exact Hmoved].
Qed.

Lemma autoplay_view_width_and_range_witness :
  exists current t_start t_end,
    Navigation.autoplay_view 5 1 (94 # 10) (1 # 2) 1000 100
    = Returned (current, t_start, t_end)
    /\ (t_end - t_start == 5)%Q
    /\ (0 <= t_start)%Q /\ (t_end <= Navigation.time_at 100 999)%Q.
Proof.
  destruct (autoplay_view_width_and_range 5 1 (94 # 10) (1 # 2) 1000 100
              ltac:(lia) ltac:(lia))
    as (current & t_start & t_end & Hrun & Hwidth & Hin & _).
  exists current, t_start, t_end.
  split; [exact Hrun |]. split; [exact Hwidth |].
  apply Hin. vm_compute. discriminate.
Defined.

(** ** Resizing the rolling buffer *)

Section ResizeFacts.
Context {R : Type} `{Float R}.

Lemma new_buf_size_floor (sampling_rate : Z) (new_window_sec : Q) :
  (10 <= new_buf_size sampling_rate new_window_sec)%nat.
Proof.
  unfold new_buf_size.
  destruct (py_int (inject_Z sampling_rate * new_window_sec) <? 10) eqn:Hlt;
    [| apply Z.ltb_ge in Hlt]; lia.
Qed.

Lemma pad_rows (size copy_len cols : nat) (rs : list (list R)) :
  Forall (fun r => length r = cols) rs ->
  zip_with (fun b p => slice_to_neg (S copy_len) b ++ p)
    (replicate (length rs) (replicate size f_nan))
    (map (slice_from_neg (S copy_len)) rs)
  = map (fun b => replicate (size - S copy_len) f_nan
                  ++ skipn (cols - S copy_len) b) rs.
Proof.
  induction 1 as [| r rs Hr _ IH]; cbn [length replicate map zip_with];
    [reflexivity |].
  rewrite IH. f_equal.
  unfold slice_to_neg, slice_from_neg.
  rewrite length_replicate, take_replicate, Hr.
  f_equal. f_equal. lia.
Qed.

(** The copy of [resize_stream_buffer] on a buffer with at least one column:
    every row of the new buffer is the sentinel padding followed by the last
    [copy_len] samples of the old row. *)
Lemma copy_right_rows (channels size : nat) (old : array2 R) :
  rectangular old -> length (rows old) = channels ->
  (1 <= ncols old)%nat -> (1 <= size)%nat ->
  copy_right (Nat.min (ncols old) size) (full_nan channels size) old
  = Returned
      {| ncols := size;
         rows := map (fun b => replicate (size - Nat.min (ncols old) size) f_nan
                               ++ skipn (ncols old - Nat.min (ncols old) size) b)
                     (rows old) |}.
Proof.
  intros Hrect Hrows Hcols Hsize.
  destruct (Nat.min (ncols old) size) as [| copy_len] eqn:Hmin; [lia |].
  unfold copy_right. rewrite write_tail_zip.
  - cbn [ncols rows full_nan cols_from_neg]. rewrite <- Hrows.
    rewrite (pad_rows size copy_len (ncols old)) by exact Hrect. reflexivity.
  - cbn [rows full_nan cols_from_neg].
    rewrite length_map, length_replicate. exact Hrows.
Qed.

(** X7: resizing a buffer that has one row per channel and at least one
    column returns a buffer of the new capacity (never below ten) in which
    every row is the old row's most recent samples, right-aligned after a
    padding of sentinels; it clears the FFT smoothing cache and leaves the
    filter states and the warm-up counter alone.  A missing buffer raises
    [AttributeError], a buffer without columns [ValueError]. *)
Theorem resize_stream_buffer_right_aligned (self : engine R)
    (new_window_sec : Q) (old : array2 R) :
  stream_buffer self = Some old ->
  rectangular old -> length (rows old) = num_channels self ->
  let size := new_buf_size (sampling_rate self) new_window_sec in
  let copy_len := Nat.min (ncols old) size in
  (ncols old = 0%nat ->
   resize_stream_buffer self new_window_sec = Raised ValueError)
  /\ resize_stream_buffer (set_stream_buffer None self) new_window_sec
     = Raised AttributeError
  /\ ((1 <= ncols old)%nat ->
      exists new_buf self',
        resize_stream_buffer self new_window_sec = Returned self'
        /\ stream_buffer self' = Some new_buf
        /\ ncols new_buf = size /\ (10 <= size)%nat
        /\ length (rows new_buf) = num_channels self
        /\ rectangular new_buf
        /\ (forall i b, rows old !! i = Some b ->
              rows new_buf !! i
              = Some (replicate (size - copy_len) f_nan
                      ++ skipn (ncols old - copy_len) b))
        /\ smoothed_fft self' = ∅
        /\ bandpass_zi self' = bandpass_zi self
        /\ notch_zi self' = notch_zi self
        /\ stream_warmup_remaining self' = stream_warmup_remaining self).
Proof.
  intros Hbuf Hrect Hrows size copy_len.
  pose proof (new_buf_size_floor (sampling_rate self) new_window_sec) as Hsize.
  fold size in Hsize.
  split; [| split].
  - intros Hzero. unfold resize_stream_buffer. rewrite Hbuf, Hzero. reflexivity.
  - reflexivity.
  - intros Hcols. unfold resize_stream_buffer. rewrite Hbuf. fold size.
    rewrite (copy_right_rows (num_channels self) size old Hrect Hrows Hcols)
      by lia.
    cbn [bind]. eexists. eexists. split; [reflexivity |].
    split; [reflexivity |]. cbn [ncols rows].
    split; [reflexivity |]. split; [exact Hsize |].
    split; [rewrite length_map; exact Hrows |].
    split; [| split; [| repeat split]].
    + unfold rectangular in *. cbn [ncols rows].
      rewrite Forall_map. eapply Forall_impl; [exact Hrect |].
      intros b Hb. cbn beta in Hb.
      rewrite length_app, length_replicate, length_drop, Hb. lia.
    + intros i b Hb.
      change (map ?f (rows old)) with (f <$> rows old).
      rewrite list_lookup_fmap, Hb. reflexivity.
Qed.

(** X8: growing the buffer and then resizing it back to its capacity gives
    back the buffer as it was: a resize to a longer window loses no sample. *)
Theorem resize_grow_then_back (self self1 : engine R)
    (longer back : Q) (old : array2 R) :
  stream_buffer self = Some old ->
  rectangular old -> length (rows old) = num_channels self ->
  (1 <= ncols old)%nat ->
  (ncols old <= new_buf_size (sampling_rate self) longer)%nat ->
  new_buf_size (sampling_rate self) back = ncols old ->
  resize_stream_buffer self longer = Returned self1 ->
  exists self2,
    resize_stream_buffer self1 back = Returned self2
    /\ stream_buffer self2 = Some old.
Proof.
  intros Hbuf Hrect Hrows Hcols Hgrow Hback.
  unfold resize_stream_buffer at 1. rewrite Hbuf.
  set (size := new_buf_size (sampling_rate self) longer) in *.
  rewrite (copy_right_rows (num_channels self) size old Hrect Hrows Hcols)
    by lia.
  cbn [bind]. intros Hrun. inversion Hrun; subst self1; clear Hrun.
  unfold resize_stream_buffer.
  cbn [stream_buffer sampling_rate num_channels set_smoothed_fft
       set_stream_buffer ncols].
  rewrite Hback.
  rewrite (Nat.min_l (ncols old) size) by exact Hgrow.
  rewrite Nat.sub_diag.
  set (grown := {| ncols := size;
                   rows := map (fun b => replicate (size - ncols old) f_nan
                                         ++ skipn 0 b) (rows old) |}).
  assert (Hgrect : rectangular grown).
  { unfold rectangular, grown in *. cbn [ncols rows].
    rewrite Forall_map. eapply Forall_impl; [exact Hrect |].
    intros b Hb. cbn beta in Hb.
    rewrite length_app, length_replicate, drop_0, Hb. lia. }
  assert (Hgrows : length (rows grown) = num_channels self).
  { unfold grown. cbn [rows]. rewrite length_map. exact Hrows. }
  pose proof (copy_right_rows (num_channels self) (ncols old) grown
                Hgrect Hgrows) as Hcopy.
  change (ncols grown) with size in Hcopy.
  rewrite Hcopy by lia. cbn [bind].
  eexists. split; [reflexivity |].
  cbn [stream_buffer set_smoothed_fft set_stream_buffer]. f_equal.
  destruct old as [cols rs]. cbn [ncols rows] in *.
  unfold grown. cbn [rows]. f_equal.
  rewrite map_map. apply map_fixed.
  unfold rectangular in Hrect. cbn [ncols rows] in Hrect.
  eapply Forall_impl; [exact Hrect |].
  intros b Hb. cbn beta in Hb.
  rewrite (Nat.min_r size cols) by exact Hgrow.
  rewrite Nat.sub_diag, drop_0. cbn [replicate app].
  rewrite drop_app_length'; [reflexivity |].
  rewrite length_replicate. reflexivity.
Qed.

End ResizeFacts.

Lemma resize_stream_buffer_right_aligned_witness :
  exists new_buf self',
    resize_stream_buffer Examples.live_engine (4 # 250) = Returned self'
    /\ stream_buffer self' = Some new_buf
    /\ rows new_buf !! 0%nat
       = Some (replicate 7 NaN ++ [Val 5; Val 6; Val 7]).
Proof.
  destruct (resize_stream_buffer_right_aligned Examples.live_engine (4 # 250)
              Examples.buffer_5_6_7 eq_refl
              ltac:(repeat constructor) eq_refl)
    as (_ & _ & Hgrow).
  destruct (Hgrow ltac:(cbn; lia))
    as (new_buf & self' & Hrun & Hb & _ & _ & _ & _ & Hrow & _).
  exists new_buf, self'. split; [exact Hrun |]. split; [exact Hb |].
  exact (Hrow 0%nat [Val 5; Val 6; Val 7] eq_refl).
Defined.

Lemma resize_grow_then_back_witness :
  exists self1 self2,
    resize_stream_buffer BufferExamples.ten_column_engine (1 # 10)
    = Returned self1
    /\ resize_stream_buffer self1 (1 # 25) = Returned self2
    /\ stream_buffer self2 = Some BufferExamples.buffer_0_to_9.
Proof.
  destruct (resize_stream_buffer BufferExamples.ten_column_engine (1 # 10))
    as [self1 | e] eqn:Hgrow; [| vm_compute in Hgrow; discriminate].
  destruct (resize_grow_then_back BufferExamples.ten_column_engine self1
              (1 # 10) (1 # 25) BufferExamples.buffer_0_to_9 eq_refl
              ltac:(repeat constructor) eq_refl ltac:(cbn; lia)
              ltac:(vm_compute; lia) eq_refl Hgrow)
    as (self2 & Hback & Hsame).
  exists self1, self2. repeat split; assumption.
Defined.

(** ** Timer ticks *)

Section TickTheorems.
Context {R : Type} `{Float R}.



(** X10: a tick whose chunk fits within the remaining warm-up is discarded:
    the buffer, the throttle counter and the caches of the spectra stay as
    they are and the warm-up counter drops by the chunk length, but the
    chunk has gone through the filters, whose states are those
    [process_signal] leaves (the filters settle on the discarded samples). *)
Theorem warmup_tick_feeds_filters_only (self : engine R) (eeg_data : array2 R) :
  board_connected self = true ->
  streaming_active self = true ->
  ncols eeg_data <> 0%nat ->
  Z.of_nat (ncols eeg_data) <= stream_warmup_remaining self ->
  exists processed filtered,
    process_signal self eeg_data = Returned (processed, filtered)
    /\ update_stream_data self eeg_data
       = (set_stream_warmup_remaining
            (stream_warmup_remaining self - Z.of_nat (ncols eeg_data)) filtered,
          Discarded)
    /\ stream_buffer filtered = stream_buffer self
    /\ fft_update_counter filtered = fft_update_counter self
    /\ smoothed_fft filtered = smoothed_fft self
    /\ smoothed_band_power filtered = smoothed_band_power self.
Proof.
  intros Hboard Hactive Hcols Hwarm.
  destruct (process_rows_view (rows eeg_data) 0%nat self)
    as (outs & bz & nz & Hrun & _).
  unfold update_stream_data, process_signal.
  rewrite Hboard, Hactive, Hrun. cbn [negb orb bind].
  destruct (Nat.eqb (ncols eeg_data) 0) eqn:Hz; [apply Nat.eqb_eq in Hz; lia |].
  eexists. eexists. split; [reflexivity |].
  split; [| repeat split].
  unfold warmup_discard.
  cbn [stream_warmup_remaining set_notch_zi set_bandpass_zi ncols].
  destruct (Z.ltb_spec 0 (stream_warmup_remaining self)) as [_ | Hle]; [| lia].
  destruct (Z.leb_spec 0 (stream_warmup_remaining self
                          - Z.of_nat (ncols eeg_data))) as [_ | Hlt]; [| lia].
  reflexivity.
Qed.

End TickTheorems.


Lemma warmup_tick_feeds_filters_only_witness :
  exists processed filtered,
    process_signal (toggle_streaming_visualization Examples.idle_engine)
      Examples.chunk_1_2 = Returned (processed, filtered)
    /\ update_stream_data (toggle_streaming_visualization Examples.idle_engine)
         Examples.chunk_1_2
       = (set_stream_warmup_remaining 123 filtered, Discarded)
    /\ bandpass_zi filtered !! 0%nat = Some [Val 2].
Proof.
  destruct (warmup_tick_feeds_filters_only
              (toggle_streaming_visualization Examples.idle_engine)
              Examples.chunk_1_2 eq_refl eq_refl ltac:(discriminate)
              ltac:(vm_compute; discriminate))
    as (processed & filtered & Hrun & Htick & _).
  exists processed, filtered. split; [exact Hrun |]. split; [exact Htick |].
  vm_compute in Hrun. inversion Hrun. reflexivity.
Defined.

(** ** Band-power smoothing *)









(** ** Vertical bounds in file mode *)

Lemma np_min_spec (x : Q) (xs : list Q) :
  exists m,
    Vertical.np_min (x :: xs) = Returned m
    /\ Forall (fun v => (m <= v)%Q) (x :: xs) /\ m ∈ x :: xs.
Proof.
  eexists. split; [reflexivity |].
  revert x. induction xs as [| y ys IH]; intros x; cbn [fold_left].
  - split; [constructor; [apply Qle_refl | constructor] | left].
  - destruct (Bounds.Qgtb x y) eqn:Hgt.
    + apply Qgtb_true in Hgt. destruct (IH y) as [Hall Hin].
      inversion Hall as [| ? ? Hy Hrest]; subst.
      split.
      * constructor; [| exact Hall].
        eapply Qle_trans; [exact Hy | apply Qlt_le_weak; exact Hgt].
      * right. exact Hin.
    + apply Qgtb_false in Hgt. destruct (IH x) as [Hall Hin].
      inversion Hall as [| ? ? Hx Hrest]; subst.
      split.
      * constructor; [exact Hx |]. constructor; [| exact Hrest].
        eapply Qle_trans; [exact Hx | exact Hgt].
      * apply elem_of_cons in Hin as [-> | Hin]; [left | right; right; exact Hin].
Qed.

Lemma np_max_spec (x : Q) (xs : list Q) :
  exists m,
    Vertical.np_max (x :: xs) = Returned m
    /\ Forall (fun v => (v <= m)%Q) (x :: xs) /\ m ∈ x :: xs.
Proof.
  eexists. split; [reflexivity |].
  destruct (py_max_spec xs x) as (Hx & Hall & Hin).
  split; [constructor; assumption |].
  destruct Hin as [-> | Hin]; [left | right; apply list_elem_of_In; exact Hin].
Qed.

Lemma minmax_bounds_spec (channel_data : list Q) :
  channel_data <> [] ->
  exists lo hi,
    Vertical.minmax_bounds channel_data = Returned (lo, hi)
    /\ Forall (fun v => (lo <= v <= hi)%Q) channel_data
    /\ lo ∈ channel_data /\ hi ∈ channel_data.
Proof.
  intros Hne. destruct channel_data as [| x xs]; [congruence |].
  destruct (np_min_spec x xs) as (lo & Hlo & Hlo_all & Hlo_in).
  destruct (np_max_spec x xs) as (hi & Hhi & Hhi_all & Hhi_in).
  exists lo, hi. unfold Vertical.minmax_bounds. rewrite Hlo, Hhi.
  split; [reflexivity |]. split; [| split; assumption].
  rewrite Forall_forall in Hlo_all, Hhi_all. apply Forall_forall.
  intros v Hv. split; [apply Hlo_all | apply Hhi_all]; exact Hv.
Qed.

(** *** Quantiles *)

Lemma Qle_is_total : Total Qle.
Proof.
  intros x y. destruct (Qlt_le_dec x y) as [Hlt | Hle];
    [left; apply Qlt_le_weak; exact Hlt | right; exact Hle].
Qed.

Lemma Qle_is_transitive : Transitive Qle.
Proof. intros x y z. apply Qle_trans. Qed.

Lemma sorted_nth (s : list Q) :
  StronglySorted Qle s ->
  forall i j, (i <= j)%nat -> (j < length s)%nat ->
  (nth i s 0 <= nth j s 0)%Q.
Proof.
  induction 1 as [| x l Hsorted IH Hall]; intros i j Hij Hj;
    [cbn in Hj; lia |].
  destruct i as [| i], j as [| j]; cbn [nth]; cbn [length] in Hj.
  - apply Qle_refl.
  - rewrite Forall_forall in Hall. apply Hall.
    apply list_elem_of_In. apply nth_In. lia.
  - lia.
  - apply IH; lia.
Qed.

Lemma lerp_between (a b t : Q) :
  (a <= b)%Q -> (0 <= t <= 1)%Q ->
  (a <= Vertical.lerp a b t <= b)%Q.
Proof.
  intros Hab [H0 H1]. unfold Vertical.lerp.
  destruct (Qle_bool (1 # 2) t); split; nra.
Qed.

Lemma lerp_mono (a b t t' : Q) :
  (a <= b)%Q -> (t <= t')%Q ->
  (Vertical.lerp a b t <= Vertical.lerp a b t')%Q.
Proof.
  intros Hab Ht. unfold Vertical.lerp.
  destruct (Qle_bool (1 # 2) t), (Qle_bool (1 # 2) t'); nra.
Qed.

(** The indices that [interpolate] reads lie inside a non-empty row, in
    order, and the fractional part is a fraction. *)
Lemma interpolate_indices (arr : list Q) (v : Q) :
  (0 <= v)%Q -> (v <= inject_Z (Z.of_nat (length arr) - 1))%Q ->
  let previous_index := Qfloor v in
  let next_index := Z.min (previous_index + 1) (Z.of_nat (length arr) - 1) in
  0 <= previous_index <= next_index
  /\ next_index <= previous_index + 1
  /\ next_index < Z.of_nat (length arr)
  /\ (0 <= v - inject_Z previous_index <= 1)%Q.
Proof.
  intros H0 Hn previous_index next_index.
  pose proof (Qfloor_resp_le _ _ H0) as Hp0. change (Qfloor 0) with 0 in Hp0.
  pose proof (Qfloor_resp_le _ _ Hn) as Hpn. rewrite Qfloor_Z in Hpn.
  pose proof (Qfloor_le v) as Hlo. pose proof (Qlt_floor v) as Hhi.
  rewrite inject_Z_plus in Hhi. change (inject_Z 1) with 1%Q in Hhi.
  fold previous_index in Hp0, Hpn, Hlo, Hhi.
  subst next_index. repeat split; try lia; lra.
Qed.

Lemma interpolate_between (arr : list Q) (v : Q) :
  StronglySorted Qle arr ->
  (0 <= v)%Q -> (v <= inject_Z (Z.of_nat (length arr) - 1))%Q ->
  (nth (Z.to_nat (Qfloor v)) arr 0 <= Vertical.interpolate arr v)%Q
  /\ (Vertical.interpolate arr v
      <= nth (Z.to_nat (Z.min (Qfloor v + 1) (Z.of_nat (length arr) - 1))) arr 0)%Q.
Proof.
  intros Hsorted H0 Hn.
  destruct (interpolate_indices arr v H0 Hn) as (Hp & Hnext & Hlen & Hgamma).
  unfold Vertical.interpolate.
  apply lerp_between; [| exact Hgamma].
  apply sorted_nth; [exact Hsorted | lia | lia].
Qed.

Lemma interpolate_mono (arr : list Q) (v v' : Q) :
  StronglySorted Qle arr ->
  (0 <= v)%Q -> (v <= v')%Q -> (v' <= inject_Z (Z.of_nat (length arr) - 1))%Q ->
  (Vertical.interpolate arr v <= Vertical.interpolate arr v')%Q.
Proof.
  intros Hsorted H0 Hvv Hn.
  assert (Hn0 : (v <= inject_Z (Z.of_nat (length arr) - 1))%Q) by lra.
  assert (H0' : (0 <= v')%Q) by lra.
  destruct (interpolate_indices arr v H0 Hn0) as (Hp & Hnext & Hlen & Hgamma).
  destruct (interpolate_indices arr v' H0' Hn) as (Hp' & Hnext' & Hlen' & Hgamma').
  pose proof (Qfloor_resp_le _ _ Hvv) as Hfloor.
  destruct (Z.eq_dec (Qfloor v) (Qfloor v')) as [Hsame | Hdiff].
  - unfold Vertical.interpolate. rewrite <- Hsame.
    apply lerp_mono; [| lra].
    apply sorted_nth; [exact Hsorted | lia | lia].
  - destruct (interpolate_between arr v Hsorted H0 Hn0) as [_ Hup].
    destruct (interpolate_between arr v' Hsorted H0' Hn) as [Hdown _].
    eapply Qle_trans; [exact Hup |]. eapply Qle_trans; [| exact Hdown].
    apply sorted_nth; [exact Hsorted | lia | lia].
Qed.

Lemma merge_sort_sorted (channel_data : list Q) :
  StronglySorted Qle (merge_sort Qle channel_data).
Proof.
  apply (@StronglySorted_merge_sort Q Qle _ Qle_is_transitive Qle_is_total).
Qed.

Lemma merge_sort_length (channel_data : list Q) :
  length (merge_sort Qle channel_data) = length channel_data.
Proof. apply Permutation_length, merge_sort_Permutation. Qed.

Lemma virtual_index_range (n : nat) (q : Q) :
  (1 <= n)%nat -> (0 <= q <= 1)%Q ->
  (0 <= inject_Z (Z.of_nat n - 1) * q)%Q
  /\ (inject_Z (Z.of_nat n - 1) * q <= inject_Z (Z.of_nat n - 1))%Q.
Proof.
  intros Hn [H0 H1].
  assert (Hk : (0 <= inject_Z (Z.of_nat n - 1))%Q)
    by (unfold Qle; cbn; lia).
  split; nra.
Qed.

(** A quantile of a non-empty row lies between two of its samples. *)
Lemma np_quantile_between (channel_data : list Q) (q : Q) :
  channel_data <> [] -> (0 <= q <= 1)%Q ->
  exists v lo hi,
    Vertical.np_quantile channel_data q = Returned v
    /\ lo ∈ channel_data /\ hi ∈ channel_data /\ (lo <= v <= hi)%Q.
Proof.
  intros Hne Hq. unfold Vertical.np_quantile.
  destruct channel_data as [| x xs] eqn:Hd; [congruence |]. rewrite <- Hd.
  assert (Hlen : (1 <= length (merge_sort Qle channel_data))%nat)
    by (rewrite merge_sort_length, Hd; cbn; lia).
  set (arr := merge_sort Qle channel_data) in *.
  destruct (virtual_index_range (length arr) q Hlen Hq) as [H0 Hn].
  set (v := (inject_Z (Z.of_nat (length arr) - 1) * q)%Q) in *.
  destruct (interpolate_indices arr v H0 Hn) as (Hp & Hnext & Hlt & _).
  destruct (interpolate_between arr v (merge_sort_sorted channel_data) H0 Hn)
    as [Hlo Hhi].
  assert (Hin : forall i, (i < length arr)%nat -> nth i arr 0%Q ∈ channel_data).
  { intros i Hi. rewrite <- (merge_sort_Permutation Qle channel_data).
    apply list_elem_of_In, nth_In. exact Hi. }
  exists (Vertical.interpolate arr v),
    (nth (Z.to_nat (Qfloor v)) arr 0%Q),
    (nth (Z.to_nat (Z.min (Qfloor v + 1) (Z.of_nat (length arr) - 1))) arr 0%Q).
  split; [reflexivity |].
  split; [apply Hin; lia |]. split; [apply Hin; lia |].
  split; [exact Hlo | exact Hhi].
Qed.

(** The lower quartile of a non-empty row is not above the upper one. *)
Lemma np_quartiles_ordered (channel_data : list Q) :
  channel_data <> [] ->
  exists q1 q3,
    Vertical.np_quantile channel_data (25 # 100) = Returned q1
    /\ Vertical.np_quantile channel_data (75 # 100) = Returned q3
    /\ (q1 <= q3)%Q.
Proof.
  intros Hne. unfold Vertical.np_quantile.
  destruct channel_data as [| x xs] eqn:Hd; [congruence |]. rewrite <- Hd.
  assert (Hlen : (1 <= length (merge_sort Qle channel_data))%nat)
    by (rewrite merge_sort_length, Hd; cbn; lia).
  set (arr := merge_sort Qle channel_data) in *.
  eexists. eexists. split; [reflexivity |]. split; [reflexivity |].
  assert (Hk : (0 <= inject_Z (Z.of_nat (length arr) - 1))%Q)
    by (unfold Qle; cbn; lia).
  apply interpolate_mono; [apply merge_sort_sorted | lra | lra | lra].
Qed.

Lemma iqr_bounds_spec (channel_data : list Q) :
  channel_data <> [] ->
  exists q1 q3,
    Vertical.np_quantile channel_data (25 # 100) = Returned q1
    /\ Vertical.np_quantile channel_data (75 # 100) = Returned q3
    /\ (q1 <= q3)%Q
    /\ Vertical.iqr_bounds channel_data
       = Returned ((q1 - (q3 - q1) * 5)%Q, (q3 + (q3 - q1) * 5)%Q).
Proof.
  intros Hne.
  destruct (np_quartiles_ordered channel_data Hne) as (q1 & q3 & H1 & H3 & Hle).
  exists q1, q3. split; [exact H1 |]. split; [exact H3 |].
  split; [exact Hle |].
  unfold Vertical.iqr_bounds. rewrite H1, H3. reflexivity.
Qed.

(** X18: the IQR bounds of a non-empty channel are
    [(q1 - 5 * iqr, q3 + 5 * iqr)] for its quartiles [q1 <= q3], which lie
    between two of its samples; the pair is ordered around the quartiles and
    is [11 * iqr] wide, and it collapses to a single value for a flat
    channel. *)
Theorem iqr_bounds_ordered (channel_data : list Q) :
  channel_data <> [] ->
  exists q1 q3 y_min y_max,
    Vertical.np_quantile channel_data (25 # 100) = Returned q1
    /\ Vertical.np_quantile channel_data (75 # 100) = Returned q3
    /\ Vertical.iqr_bounds channel_data = Returned (y_min, y_max)
    /\ (y_min <= q1)%Q /\ (q1 <= q3)%Q /\ (q3 <= y_max)%Q
    /\ (y_max - y_min == 11 * (q3 - q1))%Q
    /\ (exists lo hi,
          lo ∈ channel_data /\ hi ∈ channel_data
          /\ (lo <= q1)%Q /\ (q3 <= hi)%Q)
    /\ (Vertical.flat channel_data ->
        forall v, v ∈ channel_data -> (y_min == v)%Q /\ (y_max == v)%Q).
Proof.
  intros Hne.
  destruct (iqr_bounds_spec channel_data Hne) as (q1 & q3 & H1 & H3 & Hle & Hb).
  destruct (np_quantile_between channel_data (25 # 100) Hne)
    as (v1 & lo1 & hi1 & Hv1 & Hlo1 & Hhi1 & Hb1);
    [split; unfold Qle; cbn; lia |].
  destruct (np_quantile_between channel_data (75 # 100) Hne)
    as (v3 & lo3 & hi3 & Hv3 & Hlo3 & Hhi3 & Hb3);
    [split; unfold Qle; cbn; lia |].
  rewrite H1 in Hv1. rewrite H3 in Hv3.
  inversion Hv1; subst v1. inversion Hv3; subst v3.
  exists q1, q3. eexists. eexists.
  split; [exact H1 |]. split; [exact H3 |]. split; [exact Hb |].
  split; [lra |]. split; [exact Hle |]. split; [lra |]. split; [lra |].
  split.
  - exists lo1, hi3. repeat split; try assumption; lra.
  - intros Hflat v Hv.
    pose proof (Hflat lo1 v Hlo1 Hv). pose proof (Hflat hi1 v Hhi1 Hv).
    pose proof (Hflat lo3 v Hlo3 Hv). pose proof (Hflat hi3 v Hhi3 Hv).
    split; lra.
Qed.

Lemma iqr_bounds_ordered_witness :
  exists q1 q3 y_min y_max,
    Vertical.np_quantile [1; 5; 3; 2; 8; 4; 6]%Q (25 # 100) = Returned q1
    /\ Vertical.np_quantile [1; 5; 3; 2; 8; 4; 6]%Q (75 # 100) = Returned q3
    /\ Vertical.iqr_bounds [1; 5; 3; 2; 8; 4; 6]%Q = Returned (y_min, y_max)
    /\ (q1 == 5 # 2)%Q /\ (q3 == 11 # 2)%Q
    /\ (y_max - y_min == 33)%Q.
Proof.
  destruct (iqr_bounds_ordered [1; 5; 3; 2; 8; 4; 6]%Q ltac:(discriminate))
    as (q1 & q3 & y_min & y_max & H1 & H3 & Hb & _ & _ & _ & Hwidth & _).
  exists q1, q3, y_min, y_max.
  split; [exact H1 |]. split; [exact H3 |]. split; [exact Hb |].
  vm_compute in H1, H3. inversion H1; subst q1. inversion H3; subst q3.
  split; [reflexivity |]. split; [reflexivity |].
  rewrite Hwidth. reflexivity.
Defined.

(** *** The tables of [prepare_data] *)

Lemma bounds_in_returns (mode : Vertical.bounds_mode) (channel_data : list Q) :
  channel_data <> [] ->
  exists b, Vertical.bounds_in mode channel_data = Returned b.
Proof.
  intros Hne. destruct mode; cbn [Vertical.bounds_in].
  - destruct (iqr_bounds_spec channel_data Hne) as (q1 & q3 & _ & _ & _ & Hb).
    eexists. exact Hb.
  - destruct (minmax_bounds_spec channel_data Hne) as (lo & hi & Hb & _).
    eexists. exact Hb.
Qed.

(** The tables the loop leaves: the entries outside the rows visited stay,
    and every row visited gets its bounds in both tables. *)
Lemma prepare_loop_tables (raw_data : list (list Q)) :
  forall (ch_idx : nat) (self : Bounds.bounds_tables),
  Forall (fun channel_data => channel_data <> []) raw_data ->
  exists self',
    Vertical.prepare_loop raw_data ch_idx self = Returned self'
    /\ (forall mode ch, (ch < ch_idx \/ ch_idx + length raw_data <= ch)%nat ->
          Vertical.table_of mode self' !! ch = Vertical.table_of mode self !! ch)
    /\ (forall mode j channel_data, raw_data !! j = Some channel_data ->
          exists b,
            Vertical.table_of mode self' !! (ch_idx + j)%nat = Some b
            /\ Vertical.bounds_in mode channel_data = Returned b).
Proof.
  induction raw_data as [| channel_data rest IH]; intros ch_idx self Hne.
  - exists self. split; [reflexivity |]. split; [reflexivity |].
    intros mode j d Hj. discriminate.
  - inversion Hne as [| ? ? Hd Hrest]; subst.
    destruct (bounds_in_returns Vertical.iqr channel_data Hd) as [bi Hbi].
    destruct (bounds_in_returns Vertical.minmax channel_data Hd) as [bm Hbm].
    cbn [Vertical.bounds_in] in Hbi, Hbm.
    cbn [Vertical.prepare_loop]. rewrite Hbi, Hbm. cbn [Engine.bind].
    destruct (IH (S ch_idx)
                {| Bounds.channel_iqr_bounds :=
                     <[ch_idx := bi]> (Bounds.channel_iqr_bounds self);
                   Bounds.channel_minmax_bounds :=
                     <[ch_idx := bm]> (Bounds.channel_minmax_bounds self) |}
                Hrest) as (self' & Hrun & Hframe & Hrows).
    exists self'. split; [exact Hrun |]. split.
    + intros mode ch Hch. cbn [length] in Hch. rewrite Hframe by lia.
      destruct mode; cbn; apply lookup_insert_ne; lia.
    + intros mode [| j] d Hj.
      * cbn in Hj. inversion Hj; subst d.
        rewrite Nat.add_0_r, Hframe by lia.
        destruct mode; cbn; rewrite lookup_insert_eq; eexists;
          (split; [reflexivity | assumption]).
      * cbn in Hj. destruct (Hrows mode j d Hj) as (b & Hb & Hin).
        exists b. replace (ch_idx + S j)%nat with (S ch_idx + j)%nat by lia.
        split; assumption.
Qed.

Lemma prepare_data_tables (raw_data : list (list Q))
    (self : Bounds.bounds_tables) (mode : Vertical.bounds_mode) :
  Forall (fun channel_data => channel_data <> []) raw_data ->
  Vertical.prepare_data raw_data = Returned self ->
  (forall ch, is_Some (Vertical.table_of mode self !! ch)
              <-> (ch < length raw_data)%nat)
  /\ (forall ch channel_data b,
        raw_data !! ch = Some channel_data ->
        Vertical.table_of mode self !! ch = Some b ->
        Vertical.bounds_in mode channel_data = Returned b).
Proof.
  intros Hne Hprep.
  destruct (prepare_loop_tables raw_data 0%nat
              {| Bounds.channel_iqr_bounds := ∅;
                 Bounds.channel_minmax_bounds := ∅ |} Hne)
    as (self' & Hrun & Hframe & Hrows).
  unfold Vertical.prepare_data in Hprep. rewrite Hrun in Hprep.
  inversion Hprep; subst self'. split.
  - intros ch. split.
    + intros Hsome.
      destruct (Nat.lt_ge_cases ch (length raw_data)) as [Hlt | Hge];
        [exact Hlt |].
      rewrite Hframe in Hsome by (right; cbn; lia).
      destruct mode; cbn in Hsome; rewrite lookup_empty in Hsome;
        destruct Hsome as [b Hb]; discriminate.
    + intros Hlt. destruct (lookup_lt_is_Some_2 _ _ Hlt) as [d Hd].
      destruct (Hrows mode ch d Hd) as (b & Hb & _).
      cbn in Hb. rewrite Hb. eexists. reflexivity.
  - intros ch d b Hd Hb.
    destruct (Hrows mode ch d Hd) as (b' & Hb' & Hin).
    cbn in Hb'. rewrite Hb' in Hb. inversion Hb; subst b'. exact Hin.
Qed.



Lemma select_loop_flat (table : gmap nat (Q * Q)) :
  forall (chs : list nat) (mr : Q) (best : option (Q * Q)),
  (forall c, c ∈ chs ->
     exists b, table !! c = Some b /\ (Bounds.range_of b <= mr)%Q) ->
  Bounds.select_loop table chs mr best = Returned best.
Proof.
  induction chs as [| ch rest IH]; intros mr best Hall; cbn; [reflexivity |].
  destruct (Hall ch ltac:(left)) as ([y_min y_max] & Hch & Hle).
  rewrite Hch. unfold Bounds.range_of in Hle. cbn [fst snd] in Hle.
  apply Qgtb_false in Hle. rewrite Hle.
  apply IH. intros c Hc. apply Hall. right. exact Hc.
Qed.

(** The bounds of a channel have no extent exactly when the channel is
    degenerate in the mode. *)
Lemma degenerate_iff_no_range (mode : Vertical.bounds_mode)
    (channel_data : list Q) (b : Q * Q) :
  channel_data <> [] ->
  Vertical.bounds_in mode channel_data = Returned b ->
  Vertical.degenerate mode channel_data <-> (Bounds.range_of b <= 0)%Q.
Proof.
  intros Hne Hb. destruct mode; cbn [Vertical.bounds_in Vertical.degenerate] in *.
  - destruct (iqr_bounds_spec channel_data Hne) as (q1 & q3 & H1 & H3 & Hle & Hb').
    rewrite Hb' in Hb. inversion Hb; subst b.
    unfold Bounds.range_of. cbn [fst snd]. split.
    + intros (q1' & q3' & H1' & H3' & Heq).
      rewrite H1 in H1'. rewrite H3 in H3'.
      inversion H1'; subst q1'. inversion H3'; subst q3'. lra.
    + intros Hrange. exists q1, q3.
      split; [exact H1 |]. split; [exact H3 |]. lra.
  - destruct (minmax_bounds_spec channel_data Hne)
      as (lo & hi & Hb' & Hall & Hlo & Hhi).
    rewrite Hb' in Hb. inversion Hb; subst b.
    unfold Vertical.flat, Bounds.range_of. cbn [fst snd].
    rewrite Forall_forall in Hall. split.
    + intros Hflat. pose proof (Hflat hi lo Hhi Hlo) as Heq. lra.
    + intros Hle v w Hv Hw.
      destruct (Hall v Hv) as [Hv1 Hv2]. destruct (Hall w Hw) as [Hw1 Hw2]. lra.
Qed.

Lemma classic_flat (raw_data : list (list Q)) (table : gmap nat (Q * Q))
    (chs : list nat) :
  (forall ch, is_Some (table !! ch) <-> (ch < length raw_data)%nat) ->
  (forall ch, ch ∈ chs -> (ch < length raw_data)%nat) ->
  (forall c, c ∈ chs ->
     exists b, table !! c = Some b /\ (Bounds.range_of b <= 0)%Q)
  \/ (exists ch channel_data b,
        ch ∈ chs /\ raw_data !! ch = Some channel_data
        /\ table !! ch = Some b /\ (0 < Bounds.range_of b)%Q).
Proof.
  intros Hkeys. induction chs as [| c rest IH]; intros Hin.
  - left. intros c Hc. inversion Hc.
  - assert (Hc : (c < length raw_data)%nat) by (apply Hin; left).
    destruct (proj2 (Hkeys c) Hc) as [b Hb].
    destruct (lookup_lt_is_Some_2 _ _ Hc) as [d Hd].
    destruct (Qlt_le_dec 0 (Bounds.range_of b)) as [Hpos | Hle].
    + right. exists c, d, b. split; [left |]. repeat split; assumption.
    + destruct (IH ltac:(intros ch Hch; apply Hin; right; exact Hch))
        as [Hflat | (ch & d' & b' & Hch & Hd' & Hb' & Hpos)].
      * left. intros c' Hc'. apply elem_of_cons in Hc' as [-> | Hc'].
        -- exists b. split; assumption.
        -- apply Hflat. exact Hc'.
      * right. exists ch, d', b'. split; [right; exact Hch |].
        repeat split; assumption.
Qed.

(** X13: with the tables [prepare_data] computed and a non-empty selection
    of channels of the recording, the vertical zoom never meets a missing
    table entry ([KeyError]).  It raises [TypeError] exactly when every
    selected channel is degenerate in the current mode: flat in min-max
    mode, with coinciding quartiles in IQR mode (which a channel that is not
    flat can have).  Otherwise it sets a range centred like the bounds of a
    selected channel and as wide as their range times [100 / value]. *)
Theorem zoom_fails_exactly_on_flat_selection (raw_data : list (list Q))
    (self : Bounds.bounds_tables) (mode : Vertical.bounds_mode)
    (active_channels : list nat) (value : Q) :
  Forall (fun channel_data => channel_data <> []) raw_data ->
  Vertical.prepare_data raw_data = Returned self ->
  active_channels <> [] ->
  (forall ch, ch ∈ active_channels -> (ch < length raw_data)%nat) ->
  (0 < value)%Q ->
  let zoomed := Vertical.apply_vertical_zoom mode self active_channels value in
  (zoomed = Raised TypeError
   <-> forall ch channel_data,
         ch ∈ active_channels -> raw_data !! ch = Some channel_data ->
         Vertical.degenerate mode channel_data)
  /\ (zoomed <> Raised TypeError ->
      exists ch y_min y_max new_y_min new_y_max,
        ch ∈ active_channels
        /\ Vertical.table_of mode self !! ch = Some (y_min, y_max)
        /\ zoomed = Returned (Some (new_y_min, new_y_max))
        /\ (new_y_min + new_y_max == y_min + y_max)%Q
        /\ ((new_y_max - new_y_min) * value == (y_max - y_min) * 100)%Q).
Proof.
  intros Hne Hprep Hsel Hactive Hvalue zoomed.
  destruct (prepare_data_tables raw_data self mode Hne Hprep) as [Hkeys Hrows].
  set (table := Vertical.table_of mode self) in *.
  assert (Hall : forall c, c ∈ active_channels -> is_Some (table !! c)).
  { intros c Hc. apply Hkeys. apply Hactive. exact Hc. }
  assert (Hdeg : forall ch d b, raw_data !! ch = Some d -> table !! ch = Some b ->
            Vertical.degenerate mode d <-> (Bounds.range_of b <= 0)%Q).
  { intros ch d b Hd Hb. apply degenerate_iff_no_range.
    - rewrite Forall_forall in Hne. apply Hne.
      eapply list_elem_of_lookup_2. exact Hd.
    - exact (Hrows ch d b Hd Hb). }
  assert (Hzoom : zoomed
            = Engine.bind
                (Bounds.unpack_bounds
                   (Bounds.select_bounds table active_channels))
                (fun '(y_min, y_max) =>
                   Returned (Some (((y_min + y_max) / 2
                                    - (y_max - y_min) / (value / 100) / 2)%Q,
                                   ((y_min + y_max) / 2
                                    + (y_max - y_min) / (value / 100) / 2)%Q)))).
  { unfold zoomed, Vertical.apply_vertical_zoom, table.
    destruct active_channels; [congruence |]. destruct mode; reflexivity. }
  destruct (classic_flat raw_data table active_channels Hkeys Hactive)
    as [Hflat | (ch0 & d0 & b0 & Hin0 & Hd0 & Hb0 & Hpos)].
  - assert (Hnone : Bounds.select_bounds table active_channels = Returned None).
    { unfold Bounds.select_bounds.
      destruct active_channels as [| c0 rest]; [congruence |].
      apply select_loop_flat. exact Hflat. }
    split.
    + split.
      * intros _ ch d Hch Hd.
        destruct (Hflat ch Hch) as (b & Hb & Hle).
        apply (Hdeg ch d b Hd Hb). exact Hle.
      * intros _. rewrite Hzoom, Hnone. reflexivity.
    + intros Hok. exfalso. apply Hok. rewrite Hzoom, Hnone. reflexivity.
  - destruct (select_bounds_largest_range table active_channels ch0 b0
                Hall Hin0 Hb0 Hpos) as ([y_min y_max] & ch & Hrun & Hch & Hb & _).
    assert (Hz : zoomed
              = Returned (Some (((y_min + y_max) / 2
                                 - (y_max - y_min) / (value / 100) / 2)%Q,
                                ((y_min + y_max) / 2
                                 + (y_max - y_min) / (value / 100) / 2)%Q))).
    { rewrite Hzoom, Hrun. reflexivity. }
    split.
    + split.
      * intros Hfail. rewrite Hz in Hfail. discriminate.
      * intros Hflat. exfalso.
        pose proof (proj1 (Hdeg ch0 d0 b0 Hd0 Hb0) (Hflat ch0 d0 Hin0 Hd0))
          as Hle.
        exact (Qlt_not_le _ _ Hpos Hle).
    + intros _. exists ch, y_min, y_max. eexists. eexists.
      split; [exact Hch |]. split; [exact Hb |]. split; [exact Hz |].
      split; field; lra.
Qed.

Lemma zoom_fails_exactly_on_flat_selection_witness :
  exists self,
    Vertical.prepare_data Vertical.three_channels = Returned self
    /\ Vertical.apply_vertical_zoom Vertical.iqr self [2%nat] 100
       = Raised TypeError
    /\ Vertical.apply_vertical_zoom Vertical.minmax self [2%nat] 100
       <> Raised TypeError
    /\ ~ Vertical.flat [0; 5; 5; 5; 5; 5; 9]%Q.
Proof.
  destruct (Vertical.prepare_data Vertical.three_channels)
    as [self | e] eqn:Hprep; [| vm_compute in Hprep; discriminate].
  exists self. split; [reflexivity |].
  assert (Hne : Forall (fun channel_data : list Q => channel_data <> [])
                  Vertical.three_channels)
    by (repeat constructor; discriminate).
  split; [| split].
  - apply (zoom_fails_exactly_on_flat_selection Vertical.three_channels self
             Vertical.iqr [2%nat] 100 Hne Hprep ltac:(discriminate)).
    + intros ch Hch. apply list_elem_of_singleton in Hch as ->. cbn. lia.
    + reflexivity.
    + intros ch d Hch Hd. apply list_elem_of_singleton in Hch as ->.
      cbn in Hd. inversion Hd; subst d.
      eexists. eexists. split; [reflexivity |]. split; [reflexivity |].
      vm_compute. reflexivity.
  - vm_compute in Hprep. inversion Hprep; subst self.
    vm_compute. discriminate.
  - intros Hflat.
    pose proof (Hflat 0%Q 9%Q ltac:(left) ltac:(do 6 right; left)) as Heq.
    vm_compute in Heq. discriminate.
Defined.

(** ** Changing the window length *)

Lemma py_max2_cases (a b : Q) :
  ((a < b)%Q /\ Navigation.py_max2 a b = b)
  \/ ((b <= a)%Q /\ Navigation.py_max2 a b = a).
Proof.
  unfold Navigation.py_max2. destruct (Bounds.Qgtb b a) eqn:E.
  - left. split; [apply Qgtb_true; exact E | reflexivity].
  - right. split; [apply Qgtb_false; exact E | reflexivity].
Qed.

Lemma py_min2_cases (a b : Q) :
  ((b < a)%Q /\ Navigation.py_min2 a b = b)
  \/ ((a <= b)%Q /\ Navigation.py_min2 a b = a).
Proof.
  unfold Navigation.py_min2. destruct (Bounds.Qgtb a b) eqn:E.
  - left. split; [apply Qgtb_true; exact E | reflexivity].
  - right. split; [apply Qgtb_false; exact E | reflexivity].
Qed.

Lemma resized_view_range (value t_center last : Q) :
  (0 < value)%Q -> (0 <= last)%Q ->
  let view := WindowLength.resized_view value t_center last in
  (0 <= fst view)%Q /\ (snd view <= last)%Q
  /\ ((value <= last)%Q -> (snd view - fst view == value)%Q)
  /\ ((last <= value)%Q -> (fst view == 0)%Q /\ (snd view == last)%Q).
Proof.
  intros Hvalue Hlast. unfold WindowLength.resized_view. cbv zeta.
  assert (Hhalf : (value / 2 + value / 2 == value)%Q) by field.
  set (half := (value / 2)%Q) in *. clearbody half.
  destruct (py_max2_cases 0 (t_center - half)) as [[Hlow ->] | [Hlow ->]].
  - destruct (Qeq_bool (t_center - half) 0) eqn:Hzero;
      [apply Qeq_bool_iff in Hzero; lra |].
    destruct (py_min2_cases last (t_center + half))
      as [[Hhigh ->] | [Hhigh ->]].
    + destruct (Qeq_bool (t_center + half) last) eqn:Hend;
        [apply Qeq_bool_iff in Hend; lra |].
      cbn [fst snd]. repeat split; lra.
    + rewrite Qeq_bool_refl. cbn [fst snd].
      destruct (py_max2_cases 0 (last - value)) as [[Hfit ->] | [Hfit ->]];
        repeat split; lra.
  - rewrite Qeq_bool_refl. cbn [fst snd].
    destruct (py_min2_cases value last) as [[Hfit ->] | [Hfit ->]];
      repeat split; lra.
Qed.

Lemma time_at_nonneg (sampling_rate k : Z) :
  0 < sampling_rate -> 0 <= k -> (0 <= Navigation.time_at sampling_rate k)%Q.
Proof.
  intros Hsr Hk. unfold Navigation.time_at, Qdiv.
  apply Qmult_le_0_compat; [unfold Qle; cbn; lia |].
  apply Qinv_le_0_compat. unfold Qle. cbn. lia.
Qed.

(** X14: changing the window length on a loaded, non-empty recording.  When
    the new window holds fewer than two samples the handler raises
    [ZeroDivisionError] and leaves a stride of zero behind, after which every
    lookup of a window by time raises as well.  Otherwise it returns a view
    that lies inside the recording, is exactly [value] seconds wide when the
    recording is that long and shows the whole recording when it is
    shorter, and the current window is a valid index. *)
Theorem window_length_change (self : Segmenter.windows) (current_window : Z)
    (value t_center : Q) (sampling_rate total_samples : Z) :
  (0 < value)%Q -> 0 < sampling_rate -> 1 <= total_samples ->
  let result :=
    WindowLength.on_window_size_spinbox_changed self current_window value
      t_center sampling_rate total_samples in
  let w := fst (fst result) in
  let last := Navigation.time_at sampling_rate (total_samples - 1) in
  (py_int (value * inject_Z sampling_rate) <= 1 ->
   snd result = Raised ZeroDivisionError
   /\ Segmenter.stride w = 0 /\ snd (fst result) = current_window
   /\ forall t, Navigation.get_window_from_time w sampling_rate t
                = Raised ZeroDivisionError)
  /\ (2 <= py_int (value * inject_Z sampling_rate) ->
      exists t_start t_end,
        snd result = Returned (t_start, t_end)
        /\ (0 <= t_start)%Q /\ (t_end <= last)%Q
        /\ ((value <= last)%Q -> (t_end - t_start == value)%Q)
        /\ ((last <= value)%Q -> (t_start == 0)%Q /\ (t_end == last)%Q)
        /\ 0 <= snd (fst result) < Segmenter.num_windows w).
Proof.
  intros Hvalue Hsr Htotal result w last.
  assert (Hprod : (0 <= value * inject_Z sampling_rate)%Q).
  { apply Qmult_le_0_compat; [lra |]. unfold Qle. cbn. lia. }
  pose proof (py_int_nonneg _ Hprod) as Hwss.
  pose proof (calc_stride_bounds _ Hwss) as Hst.
  subst w result.
  unfold WindowLength.on_window_size_spinbox_changed,
    Segmenter.recalculate_windows, Segmenter.calc_window_size_samples in *.
  set (wss := py_int (value * inject_Z sampling_rate)) in *.
  destruct (Z.eqb_spec (Segmenter.calc_stride wss) 0) as [Hz | Hnz];
    cbn [fst snd].
  - split; [| intros Hbig; lia].
    intros _. split; [reflexivity |]. split; [exact Hz |].
    split; [reflexivity |].
    intros t. unfold Navigation.get_window_from_time. cbn [Segmenter.stride].
    rewrite Hz. reflexivity.
  - split; [intros Hsmall; lia |].
    intros _. rewrite full_time_axis_last by lia. cbn [Engine.bind]. fold last.
    pose proof (resized_view_range value t_center last Hvalue
                  (time_at_nonneg sampling_rate (total_samples - 1) Hsr
                     ltac:(lia))) as Hview.
    cbv zeta in Hview.
    destruct (WindowLength.resized_view value t_center last) as [t_start t_end].
    cbn [fst snd] in Hview. destruct Hview as (H0 & H1 & H2 & H3).
    exists t_start, t_end. split; [reflexivity |].
    repeat split; try assumption; try (apply H3; assumption);
      unfold Navigation.sync_navigation_controls; cbn [Segmenter.num_windows];
      lia.
Qed.

Lemma window_length_change_witness :
  snd (WindowLength.on_window_size_spinbox_changed Examples.windows_5s_100hz 1
         (1 # 10) 5 10 1000) = Raised ZeroDivisionError
  /\ exists t_start t_end,
       snd (WindowLength.on_window_size_spinbox_changed
              Examples.windows_5s_100hz 1 4 9 100 1000)
       = Returned (t_start, t_end)
       /\ (t_end - t_start == 4)%Q.
Proof.
  split.
  - apply (window_length_change Examples.windows_5s_100hz 1 (1 # 10) 5 10 1000);
      [reflexivity | lia | lia | vm_compute; discriminate].
  - destruct (window_length_change Examples.windows_5s_100hz 1 4 9 100 1000
                eq_refl ltac:(lia) ltac:(lia)) as [_ Hok].
    destruct (Hok ltac:(vm_compute; discriminate))
      as (t_start & t_end & Hrun & _ & _ & Hwidth & _).
    exists t_start, t_end. split; [exact Hrun |].
    apply Hwidth. vm_compute. discriminate.
Defined.

(** ** Stacked display *)

(** X15: with [num_active >= 1] channels stacked, the Y range spans exactly
    [total_y_span], whatever the number of channels; every lane centre lies
    at least one spacing inside it; and a sample that deviates from its
    channel mean by at most half a spacing (after amplitude scaling) is drawn
    inside the range and does not cross the midline to the next lane. *)
Theorem stacked_lanes_fill_span (total_y_span channel_amplitude_scale : Q)
    (num_active k : Z) (x mean : Q) :
  (0 < total_y_span)%Q -> 1 <= num_active -> 0 <= k < num_active ->
  let d := Stacked.compute_channel_spacing total_y_span num_active in
  let y_bottom := fst (Stacked.y_range total_y_span num_active) in
  let y_top := snd (Stacked.y_range total_y_span num_active) in
  (0 < d)%Q
  /\ (y_top - y_bottom == total_y_span)%Q
  /\ (y_bottom + d <= Stacked.offset d k <= y_top - d)%Q
  /\ (Stacked.offset d k - Stacked.offset d (k + 1) == d)%Q
  /\ ((- (d / 2) <= (x - mean) * channel_amplitude_scale <= d / 2)%Q ->
      let y := Stacked.offset_sample channel_amplitude_scale d k x mean in
      (y_bottom + d / 2 <= y <= y_top - d / 2)%Q
      /\ (Stacked.offset d (k + 1) + d / 2 <= y)%Q).
Proof.
  intros Hspan Hn Hk d y_bottom y_top.
  subst y_bottom y_top. unfold Stacked.y_range. cbn [fst snd]. fold d.
  assert (Hd : (d * (inject_Z num_active + 1) == total_y_span)%Q).
  { unfold d, Stacked.compute_channel_spacing.
    destruct (Z.leb_spec num_active 0) as [Hle | _]; [lia |].
    rewrite inject_Z_plus. change (inject_Z 1) with 1%Q. field.
    assert (0 <= inject_Z num_active)%Q by (unfold Qle; cbn; lia). lra. }
  assert (HN : (1 <= inject_Z num_active)%Q) by (unfold Qle; cbn; lia).
  assert (Hk0 : (0 <= inject_Z k)%Q) by (unfold Qle; cbn; lia).
  assert (Hk1 : (inject_Z k + 1 <= inject_Z num_active)%Q).
  { change 1%Q with (inject_Z 1). rewrite <- inject_Z_plus, <- Zle_Qle. lia. }
  assert (Hhalf : (d / 2 + d / 2 == d)%Q) by field.
  unfold Stacked.offset_sample, Stacked.offset.
  rewrite (inject_Z_plus k 1). change (inject_Z 1) with 1%Q.
  clearbody d. set (N := inject_Z num_active) in *. set (K := inject_Z k) in *.
  set (half := (d / 2)%Q) in *. clearbody N K half.
  assert (Hdpos : (0 < d)%Q) by nra.
  split; [exact Hdpos |]. split; [lra |].
  split; [split; nra |]. split; [lra |].
  intros Hdev. cbv zeta. split; [split; nra | nra].
Qed.

Lemma stacked_lanes_fill_span_witness :
  (snd (Stacked.y_range 1600 3) - fst (Stacked.y_range 1600 3) == 1600)%Q
  /\ (Stacked.offset (Stacked.compute_channel_spacing 1600 3) 1 == - (400))%Q.
Proof.
  destruct (stacked_lanes_fill_span 1600 1 3 1 0 0 eq_refl ltac:(lia) ltac:(lia))
    as (_ & Hspan & _).
  split; [exact Hspan | reflexivity].
Defined.

(** ** Filter design *)

Section DesignTheorems.
Context {R : Type} `{Float R}.
Variable butter : Z -> outcome (list R * list R).
Variable iirnotch : Z -> outcome (list R * list R).
Variable lfilter_zi : list R -> list R -> outcome (list R).

(** With filtering off, [process_signal] is the gain alone. *)
Lemma process_signal_off (self : engine R) (data : array2 R) :
  SCIPY_AVAILABLE self && filter_coeffs_valid self = false ->
  process_signal self data
  = Returned ({| ncols := ncols data; rows := map (scaled self) (rows data) |},
              self).
Proof.
  intros Hoff.
  destruct (process_rows_view (rows data) 0%nat self)
    as (outs & bz & nz & Hrun & Hlen & Hrows & Hframe).
  unfold process_signal. rewrite Hrun. cbn [bind].
  assert (Houts : outs = map (scaled self) (rows data)).
  { apply list_eq. intros j.
    change (map (scaled self) (rows data)) with (scaled self <$> rows data).
    rewrite list_lookup_fmap.
    destruct (rows data !! j) as [x |] eqn:Hx.
    - destruct (Hrows j x Hx) as [Hout _]. rewrite Hout.
      unfold local_channel. rewrite Hoff. reflexivity.
    - apply lookup_ge_None in Hx. apply lookup_ge_None. lia. }
  rewrite Houts, states_unchanged; [reflexivity |].
  intros i. destruct (rows data !! i) as [x |] eqn:Hx.
  - destruct (Hrows i x Hx) as [_ Hst]. cbn [Nat.add] in Hst.
    unfold local_channel in Hst. rewrite Hoff in Hst. cbn [snd] in Hst.
    unfold view in Hst. injection Hst as Hb Hn. split; assumption.
  - apply lookup_ge_None in Hx. apply Hframe. right. cbn. lia.
Qed.

(** X16: the filter design never raises; it marks the coefficients valid
    exactly when scipy is available and all four design calls return, and
    then both state dictionaries are empty.  After any failure the stored
    filter states are kept as they were (a band-pass design that succeeded
    before the failure stays assigned), and [process_signal] on the engine
    it leaves multiplies the samples by the gain [magnitude_scale / 100] and
    does nothing else. *)
Theorem failed_design_disables_filtering (self : engine R) (data : array2 R) :
  let designed :=
    Design.calculate_filter_coefficients butter iirnotch lfilter_zi self in
  (filter_coeffs_valid designed = true
   <-> SCIPY_AVAILABLE self = true
       /\ exists bb ba nb na bzt nzt,
            butter (sampling_rate self) = Returned (bb, ba)
            /\ iirnotch (sampling_rate self) = Returned (nb, na)
            /\ lfilter_zi bb ba = Returned bzt
            /\ lfilter_zi nb na = Returned nzt
            /\ bandpass_b designed = bb /\ bandpass_a designed = ba
            /\ notch_b designed = nb /\ notch_a designed = na
            /\ bandpass_zi_template designed = bzt
            /\ notch_zi_template designed = nzt
            /\ bandpass_zi designed = ∅ /\ notch_zi designed = ∅)
  /\ (filter_coeffs_valid designed = false ->
      bandpass_zi designed = bandpass_zi self
      /\ notch_zi designed = notch_zi self
      /\ (forall bb ba, butter (sampling_rate self) = Returned (bb, ba) ->
            SCIPY_AVAILABLE self = true ->
            bandpass_b designed = bb /\ bandpass_a designed = ba)
      /\ process_signal designed data
         = Returned ({| ncols := ncols data;
                        rows := map (scaled self) (rows data) |}, designed)).
Proof.
  intros designed. subst designed.
  unfold Design.calculate_filter_coefficients.
  destruct (SCIPY_AVAILABLE self) eqn:Hscipy; cbn [negb].
  2: { split.
       - split; [discriminate | intros [Hs _]; discriminate].
       - intros _. split; [reflexivity |]. split; [reflexivity |].
         split; [intros; discriminate |].
         rewrite process_signal_off; [reflexivity |].
         cbn. rewrite Hscipy. reflexivity. }
  destruct (butter (sampling_rate self)) as [[bb ba] | e1] eqn:Hb.
  2: { split.
       - split; [discriminate |].
         intros (_ & ? & ? & ? & ? & ? & ? & Hx & _). discriminate.
       - intros _. split; [reflexivity |]. split; [reflexivity |].
         split; [intros ? ? Hx; discriminate |].
         rewrite process_signal_off; [reflexivity |].
         cbn. apply andb_false_r. }
  cbn [sampling_rate Design.set_bandpass].
  destruct (iirnotch (sampling_rate self)) as [[nb na] | e2] eqn:Hn.
  2: { split.
       - split; [discriminate |].
         intros (_ & ? & ? & ? & ? & ? & ? & _ & Hx & _). discriminate.
       - intros _. split; [reflexivity |]. split; [reflexivity |].
         split; [intros ? ? Hx _; inversion Hx; split; reflexivity |].
         rewrite process_signal_off; [reflexivity |].
         cbn. apply andb_false_r. }
  cbn [bandpass_b bandpass_a Design.set_notch Design.set_bandpass].
  destruct (lfilter_zi bb ba) as [bzt | e3] eqn:Hbz.
  2: { split.
       - split; [discriminate |].
         intros (_ & bb' & ba' & ? & ? & ? & ? & Hx & _ & Hy & _).
         inversion Hx; subst bb' ba'. rewrite Hbz in Hy. discriminate.
       - intros _. split; [reflexivity |]. split; [reflexivity |].
         split; [intros ? ? Hx _; inversion Hx; split; reflexivity |].
         rewrite process_signal_off; [reflexivity |].
         cbn. apply andb_false_r. }
  cbn [notch_b notch_a Design.set_notch Design.set_bandpass
       Design.set_bandpass_zi_template].
  destruct (lfilter_zi nb na) as [nzt | e4] eqn:Hnz.
  2: { split.
       - split; [discriminate |].
         intros (_ & ? & ? & nb' & na' & ? & ? & _ & Hx & _ & Hy & _).
         inversion Hx; subst nb' na'. rewrite Hnz in Hy. discriminate.
       - intros _. split; [reflexivity |]. split; [reflexivity |].
         split; [intros ? ? Hx _; inversion Hx; split; reflexivity |].
         rewrite process_signal_off; [reflexivity |].
         cbn. apply andb_false_r. }
  split.
  - split; [| reflexivity].
    intros _. split; [reflexivity |].
    exists bb, ba, nb, na, bzt, nzt. repeat split; assumption || reflexivity.
  - intros Hoff. discriminate.
Qed.

End DesignTheorems.

Lemma failed_design_disables_filtering_witness :
  let designed :=
    Design.calculate_filter_coefficients Design.butter_above_70
      Design.iirnotch_above_120 Design.lfilter_zi_zero
      (Examples.idle_engine_at 100) in
  filter_coeffs_valid designed = false
  /\ process_signal designed Examples.chunk_1_2
     = Returned ({| ncols := 2;
                    rows := map (scaled (Examples.idle_engine_at 100))
                                [[Val 1; Val 2]] |}, designed).
Proof.
  intros designed. split; [reflexivity |].
  destruct (failed_design_disables_filtering Design.butter_above_70
              Design.iirnotch_above_120 Design.lfilter_zi_zero
              (Examples.idle_engine_at 100) Examples.chunk_1_2) as [_ Hoff].
  destruct (Hoff eq_refl) as (_ & _ & _ & Hrun). exact Hrun.
Defined.

(** ** The data slice of a window *)

Lemma py_int_ge_integer (x : Q) (k : Z) :
  (inject_Z k <= x)%Q -> 0 <= k -> k <= py_int x.
Proof.
  intros Hx Hk.
  assert (Hpos : (0 <= x)%Q).
  { eapply Qle_trans; [| exact Hx]. unfold Qle. cbn. lia. }
  destruct (py_int_bounds x Hpos) as [_ Hhi].
  assert (Hlt : (inject_Z k < inject_Z (py_int x + 1))%Q).
  { rewrite inject_Z_plus. eapply Qle_lt_trans; [exact Hx | exact Hhi]. }
  rewrite <- Zlt_Qlt in Hlt. lia.
Qed.



(** ** The controls follow the view *)

Lemma recalculate_windows_stride (self w : Segmenter.windows)
    (window_size_sec : Q) (sampling_rate total_samples : Z) :
  (0 < window_size_sec)%Q -> 0 < sampling_rate ->
  Segmenter.recalculate_windows self window_size_sec sampling_rate total_samples
  = (w, None) ->
  10 * Segmenter.stride w <= 8 * Segmenter.window_size_samples w
  < 10 * Segmenter.stride w + 10.
Proof.
  intros Hw Hsr. unfold Segmenter.recalculate_windows.
  assert (Hprod : (0 <= window_size_sec * inject_Z sampling_rate)%Q).
  { apply Qmult_le_0_compat; [apply Qlt_le_weak; exact Hw |].
    unfold Qle. cbn. lia. }
  pose proof (py_int_nonneg _ Hprod) as Hwss.
  fold (Segmenter.calc_window_size_samples window_size_sec sampling_rate) in Hwss.
  pose proof (calc_stride_bounds _ Hwss) as Hst.
  destruct (Z.eqb_spec
              (Segmenter.calc_stride
                 (Segmenter.calc_window_size_samples window_size_sec sampling_rate)) 0);
    [discriminate |].
  intros Hrun. inversion Hrun; subst w. cbn. exact Hst.
Qed.

Lemma py_int_unique (x : Q) (k : Z) :
  0 <= k -> (inject_Z k <= x)%Q -> (x < inject_Z k + 1)%Q -> py_int x = k.
Proof.
  intros Hk Hlo Hhi.
  pose proof (py_int_ge_integer x k Hlo Hk) as Hge.
  assert (Hpos : (0 <= x)%Q).
  { eapply Qle_trans; [| exact Hlo]. unfold Qle. cbn. lia. }
  destruct (py_int_bounds x Hpos) as [Hfloor _].
  assert (Hlt : (inject_Z (py_int x) < inject_Z (k + 1))%Q).
  { rewrite inject_Z_plus. eapply Qle_lt_trans; [exact Hfloor | exact Hhi]. }
  rewrite <- Zlt_Qlt in Hlt. lia.
Qed.

(** X19: navigating to a valid window and then reading the window back from
    the view that was set gives the same window: the slider and the spinbox
    do not jump after a snap. *)
Theorem controls_follow_snapped_view (self w : Segmenter.windows)
    (window_size_sec : Q) (sampling_rate total_samples current_window : Z) :
  (0 < window_size_sec)%Q -> 0 < sampling_rate -> 1 <= total_samples ->
  Segmenter.recalculate_windows self window_size_sec sampling_rate total_samples
  = (w, None) ->
  0 <= current_window < Segmenter.num_windows w ->
  exists view_range,
    Navigation.window_time_range w total_samples sampling_rate current_window
    = Returned view_range
    /\ Plot.update_window_controls_from_view w sampling_rate view_range
       = Returned current_window.
Proof.
  intros Hw Hsr Htotal Hrun Hidx.
  destruct (recalculate_windows_facts _ _ _ _ _ Hw Hsr Hrun) as (Hst & Hov & Hn).
  pose proof (recalculate_windows_stride _ _ _ _ _ Hw Hsr Hrun) as Hstride.
  destruct (navigable_window_shape w total_samples current_window Hst Hov Hn
              ltac:(lia) Hidx) as (Hfst & Hlen & Hend).
  unfold Navigation.window_time_range.
  destruct (Navigation.get_window_bounds w total_samples current_window)
    as [s0 e0]. cbn [fst snd] in Hfst, Hlen, Hend.
  assert (Hs0 : 0 <= s0) by (rewrite Hfst; nia).
  rewrite (full_time_axis_in total_samples sampling_rate s0) by lia.
  cbn [Engine.bind]. rewrite Z.min_l by lia.
  rewrite (full_time_axis_in total_samples sampling_rate (e0 - 1)) by lia.
  cbn [Engine.bind].
  eexists. split; [reflexivity |].
  unfold Plot.update_window_controls_from_view, Navigation.get_window_from_time.
  cbn [fst snd].
  destruct (Z.eqb_spec (Segmenter.stride w) 0) as [Hz | _]; [lia |].
  set (st := Segmenter.stride w) in *.
  set (wss := Segmenter.window_size_samples w) in *.
  set (m := (s0 + e0 - 1) / 2).
  pose proof (Z.div_mod (s0 + e0 - 1) 2 ltac:(lia)) as Hdm.
  pose proof (Z.mod_pos_bound (s0 + e0 - 1) 2 ltac:(lia)) as Hmod.
  fold m in Hdm.
  assert (Hm : py_int ((Navigation.time_at sampling_rate s0
                        + Navigation.time_at sampling_rate (e0 - 1)) / 2
                       * inject_Z sampling_rate) = m).
  { assert (Hsum : ((Navigation.time_at sampling_rate s0
                     + Navigation.time_at sampling_rate (e0 - 1)) / 2
                    * inject_Z sampling_rate
                    == inject_Z (s0 + e0 - 1) / 2)%Q).
    { unfold Navigation.time_at.
      replace (s0 + e0 - 1) with (s0 + (e0 - 1)) by lia.
      rewrite inject_Z_plus. field.
      intros H0. unfold Qeq in H0. cbn in H0. lia. }
    assert (Hnum : (inject_Z (s0 + e0 - 1)
                    == 2 * inject_Z m + inject_Z ((s0 + e0 - 1) mod 2))%Q).
    { rewrite Hdm at 1. rewrite inject_Z_plus, inject_Z_mult. reflexivity. }
    assert (Hr0 : (0 <= inject_Z ((s0 + e0 - 1) mod 2))%Q)
      by (unfold Qle; cbn; lia).
    assert (Hr1 : (inject_Z ((s0 + e0 - 1) mod 2) <= 1)%Q)
      by (unfold Qle; cbn; lia).
    assert (Hhalf : (inject_Z (s0 + e0 - 1) / 2 * 2
                     == inject_Z (s0 + e0 - 1))%Q) by field.
    set (centre := (inject_Z (s0 + e0 - 1) / 2)%Q) in *.
    apply py_int_unique; [lia | rewrite Hsum; lra | rewrite Hsum; lra]. }
  rewrite Hm. f_equal.
  assert (Hdiv : m / st = current_window).
  { symmetry. apply (Z.div_unique_pos m st current_window (m - current_window * st));
      nia. }
  rewrite Hdiv. lia.
Qed.

Lemma controls_follow_snapped_view_witness :
  exists view_range,
    Navigation.window_time_range Examples.windows_5s_100hz 1000 100 1
    = Returned view_range
    /\ Plot.update_window_controls_from_view Examples.windows_5s_100hz 100
         view_range = Returned 1.
Proof.
  apply (controls_follow_snapped_view Examples.no_windows
           Examples.windows_5s_100hz 5 100 1000 1);
    [reflexivity | lia | lia | reflexivity | cbn; lia].
Defined.
